(** * Orders API: validation, query construction and pagination

    A shallow embedding of the orders controller ([createOrder], [getOrders],
    [getOrderById], [updateOrder], [deleteOrder]) and of the table created by
    [initializeDatabase], followed by the properties of the specification
    that concern them.

    Modelling conventions.
    - A JavaScript number is [JS.number]: a not-a-number value, the two
      infinities, or the rational value of a finite double (the two zeros
      are one value).  What the program computes is rounded to a double
      ([JS.round_double], to the nearest with ties to even, with overflow
      and gradual underflow); the numbers of a request body are doubles
      already.  The page, the limit and the offset are doubles with
      integer values, kept as integers and rounded by [JS.to_double].
      The ids of the rows and the count of a listing are integers, not
      bounded in the model.
    - A string is the sequence of the bytes of its UTF-8 encoding.
    - A value of the JSON request body is [JS.value].  An object or an array
      is carried with the string its default conversion yields
      ("[object Object]" for a plain object, the elements joined by commas
      for an array), which is what the controller's comparisons look at;
      the driver binds every one of them as the text "[object Object]".
    - Query-string and route parameters are strings; an absent query
      parameter is [None].
    - The callbacks passed to [db.run], [db.get] and [db.all] run one after
      the other: a controller is a function from the request and the
      database to the response and the database.
    - The SQL engine is modelled for the statements the controller
      issues: a WHERE clause filters the rows, COUNT counts them, ORDER BY
      sorts them, LIMIT and OFFSET cut the page.  A statement fails on a
      constraint of the table, or on an OFFSET that is not a 64-bit
      integer.  Column affinity is applied on write and on comparison:
      numeric text becomes a number in quantity and amount, a number
      becomes its text in the four TEXT columns. *)

From Stdlib Require Import ZArith QArith Bool List String Ascii Lia.
From Stdlib Require Import Sorting.Sorted Sorting.Permutation.
From Stdlib Require Import Structures.OrderedTypeEx.
From Stdlib Require Import Numbers.DecimalString Numbers.DecimalPos.
Import ListNotations.

Local Open Scope Z_scope.

(* ===================================================================== *)
(** ** JavaScript values and coercions *)
(* ===================================================================== *)

Module JS.

Inductive number : Type :=
| NaN
| NegInf
| Fin (q : Q)
| PosInf.

Definition isNaN_number (x : number) : bool :=
  match x with NaN => true | _ => false end.

(** A total comparison; the relational operators below guard it with the
    not-a-number test, the storage engine uses it as it is. *)
Definition cmp (x y : number) : comparison :=
  match x, y with
  | NaN, NaN => Eq
  | NaN, _ => Lt
  | _, NaN => Gt
  | NegInf, NegInf => Eq
  | NegInf, _ => Lt
  | _, NegInf => Gt
  | Fin a, Fin b => (a ?= b)%Q
  | Fin _, PosInf => Lt
  | PosInf, Fin _ => Gt
  | PosInf, PosInf => Eq
  end.

Definition ordered (x y : number) : bool :=
  negb (isNaN_number x || isNaN_number y).

(** [x < y] and [x <= y] on numbers: false as soon as one side is not a
    number. *)
Definition lt (x y : number) : bool :=
  ordered x y && match cmp x y with Lt => true | _ => false end.

Definition le (x y : number) : bool :=
  ordered x y && match cmp x y with Gt => false | _ => true end.

Definition of_Z (z : Z) : number := Fin (inject_Z z).

Definition zero : number := of_Z 0.

Definition infinity (sg : Z) : number := if sg <? 0 then NegInf else PosInf.

(** *** Rounding to a double *)

(** [p / r] rounded to the nearest integer, a tie to the even one ([r]
    positive). *)
Definition round_half_even (p r : Z) : Z :=
  let q := p / r in
  match 2 * (p mod r) ?= r with
  | Lt => q
  | Gt => q + 1
  | Eq => if Z.odd q then q + 1 else q
  end.

(** [2 ^ k <= n / d], for positive [n] and [d]. *)
Definition at_least_pow2 (n d k : Z) : bool :=
  if 0 <=? k then d * 2 ^ k <=? n else d <=? n * 2 ^ (- k).

(** The double nearest to a rational: 53 significant bits, a tie going
    to the even one, fewer bits below [2 ^ -1022] and an infinity from
    [2 ^ 1024 - 2 ^ 970] on. *)
Definition round_double (q : Q) : number :=
  let n := Z.abs (Qnum q) in
  let d := Zpos (Qden q) in
  let s := Z.sgn (Qnum q) in
  if n =? 0 then zero
  else
    let l := Z.log2 n - Z.log2 d in
    let e := if at_least_pow2 n d l then l else l - 1 in
    let k := Z.max (e - 52) (- 1074) in
    if 0 <=? k then
      let m := round_half_even n (d * 2 ^ k) in
      if 2 ^ 1024 <=? m * 2 ^ k then infinity s
      else of_Z (s * (m * 2 ^ k))
    else
      let m := round_half_even (n * 2 ^ (- k)) d in
      Fin (Qred (s * m # Z.to_pos (2 ^ (- k)))).

(** The double nearest to an integer, for the numbers [parseInt] returns
    and the arithmetic on them, which stays on integers.  The result is
    again an integer; [2 ^ 1024] and its opposite stand for the two
    infinities. *)
Definition to_double (n : Z) : Z :=
  if Z.abs n <? 2 ^ 53 then n
  else
    let k := Z.log2 (Z.abs n) - 52 in
    let m := round_half_even (Z.abs n) (2 ^ k) in
    Z.sgn n * Z.min (m * 2 ^ k) (2 ^ 1024).

(** *** Scanning numeric text *)

Definition code (c : ascii) : Z := Z.of_nat (nat_of_ascii c).

(** White space and line terminators.  A string is the sequence of the
    bytes of its UTF-8 encoding, so a character outside ASCII takes two
    or three of them.  In ASCII: tab, line feed, vertical tab, form feed,
    carriage return and space. *)
Definition is_ws (c : ascii) : bool :=
  let n := code c in
  (n =? 9) || (n =? 10) || (n =? 11) || (n =? 12) || (n =? 13) || (n =? 32).

(** U+00A0, the no-break space. *)
Definition is_ws2 (c1 c2 : ascii) : bool :=
  (code c1 =? 194) && (code c2 =? 160).

(** U+1680, U+2000 to U+200A, U+2028, U+2029, U+202F, U+205F, U+3000 and
    U+FEFF. *)
Definition is_ws3 (c1 c2 c3 : ascii) : bool :=
  let '(a, b, c) := (code c1, code c2, code c3) in
  ((a =? 225) && (b =? 154) && (c =? 128))
  || ((a =? 226) && (b =? 128)
      && (((128 <=? c) && (c <=? 138)) || (c =? 168) || (c =? 169)
          || (c =? 175)))
  || ((a =? 226) && (b =? 129) && (c =? 159))
  || ((a =? 227) && (b =? 128) && (c =? 128))
  || ((a =? 239) && (b =? 187) && (c =? 191)).

Fixpoint trim_start (s : string) : string :=
  match s with
  | EmptyString => EmptyString
  | String c1 s1 =>
      if is_ws c1 then trim_start s1
      else
        match s1 with
        | EmptyString => s
        | String c2 s2 =>
            if is_ws2 c1 c2 then trim_start s2
            else
              match s2 with
              | EmptyString => s
              | String c3 s3 =>
                  if is_ws3 c1 c2 c3 then trim_start s3 else s
              end
        end
  end.

(** Nothing but white space. *)
Definition blank (s : string) : bool := String.eqb (trim_start s) "".

Fixpoint trim_end (s : string) : string :=
  match s with
  | EmptyString => EmptyString
  | String c s' => if blank s then EmptyString else String c (trim_end s')
  end.

Definition trim (s : string) : string := trim_end (trim_start s).

Definition digit_value (c : ascii) : option Z :=
  let n := code c in
  if (48 <=? n) && (n <=? 57) then Some (n - 48)
  else if (97 <=? n) && (n <=? 122) then Some (n - 87)
  else if (65 <=? n) && (n <=? 90) then Some (n - 55)
  else None.

Definition digit (radix : Z) (c : ascii) : option Z :=
  match digit_value c with
  | Some d => if d <? radix then Some d else None
  | None => None
  end.

(** The longest run of digits at the head of [s]: its value, its length
    and what follows it. *)
Fixpoint digits (radix : Z) (s : string) (acc : Z) (n : nat)
  : Z * nat * string :=
  match s with
  | String c s' =>
      match digit radix c with
      | Some d => digits radix s' (acc * radix + d) (S n)
      | None => (acc, n, s)
      end
  | EmptyString => (acc, n, s)
  end.

Definition sign (s : string) : Z * string :=
  match s with
  | String "+"%char r => (1, r)
  | String "-"%char r => (-1, r)
  | _ => (1, s)
  end.

Definition is_char (a b : ascii) (c : ascii) : bool :=
  Ascii.eqb c a || Ascii.eqb c b.

Definition ten : Q := inject_Z 10.

(** An exponent part at the head of [s], when there is a complete one. *)
Definition exponent (s : string) : Z * string :=
  match s with
  | String c s1 =>
      if is_char "e" "E" c then
        let '(sg, s2) := sign s1 in
        let '(ev, n, s3) := digits 10 s2 0 0 in
        match n with
        | O => (0, s)
        | S _ => (sg * ev, s3)
        end
      else (0, s)
  | EmptyString => (0, s)
  end.

(** The longest prefix of [s] that is an unsigned decimal literal
    (digits, optional fraction, optional exponent), with its value and the
    rest of [s]. *)
Definition unsigned_decimal (s : string) : option (Q * string) :=
  let '(ip, ni, r1) := digits 10 s 0 0 in
  match r1 with
  | String "."%char r1' =>
      let '(fp, nf, r2) := digits 10 r1' 0 0 in
      match ni, nf with
      | O, O => None
      | _, _ =>
          let m := (inject_Z ip + inject_Z fp / ten ^ Z.of_nat nf)%Q in
          let '(e, r3) := exponent r2 in
          Some ((m * ten ^ e)%Q, r3)
      end
  | _ =>
      match ni with
      | O => None
      | S _ =>
          let '(e, r3) := exponent r1 in
          Some ((inject_Z ip * ten ^ e)%Q, r3)
      end
  end.

(** The number a literal of value [q] and sign [sg] denotes. *)
Definition signed (sg : Z) (q : Q) : number :=
  match round_double q with
  | Fin r => Fin (inject_Z sg * r)%Q
  | _ => infinity sg
  end.

(** [parseFloat(s)]: leading white space is skipped and the longest
    decimal prefix is read; anything after it is ignored. *)
Definition parseFloat (s : string) : number :=
  let '(sg, r) := sign (trim_start s) in
  if String.prefix "Infinity" r then infinity sg
  else match unsigned_decimal r with
       | Some (q, _) => signed sg q
       | None => NaN
       end.

(** [parseInt(s)] with no radix: leading white space, a sign, an optional
    [0x] prefix, then the longest run of digits, whose value is rounded to
    a double.  [None] is NaN. *)
Definition parseInt (s : string) : option Z :=
  let '(sg, r) := sign (trim_start s) in
  let '(radix, r') :=
    match r with
    | String "0"%char (String c r2) =>
        if is_char "x" "X" c then (16, r2) else (10, r)
    | _ => (10, r)
    end in
  let '(v, n, _) := digits radix r' 0 0 in
  match n with
  | O => None
  | S _ => Some (to_double (sg * v))
  end.

(** [x || d] on the result of [parseInt]: NaN and 0 are falsy. *)
Definition or_default (x : option Z) (d : Z) : Z :=
  match x with
  | None => d
  | Some 0 => d
  | Some v => v
  end.

Definition radix_literal (radix : Z) (s : string) : number :=
  let '(v, n, r) := digits radix s 0 0 in
  match n, r with
  | S _, EmptyString => round_double (inject_Z v)
  | _, _ => NaN
  end.

Definition decimal_literal (t : string) : number :=
  let '(sg, r) := sign t in
  if String.eqb r "Infinity" then infinity sg
  else match unsigned_decimal r with
       | Some (q, EmptyString) => signed sg q
       | _ => NaN
       end.

(** The conversion of a string to a number ([Number(s)], and what [isNaN]
    and the relational operators apply to a string operand): the whole
    trimmed text has to be a numeric literal, and the empty text is 0. *)
Definition StringToNumber (s : string) : number :=
  let t := trim s in
  match t with
  | EmptyString => zero
  | String "0"%char (String c r) =>
      if is_char "x" "X" c then radix_literal 16 r
      else if is_char "o" "O" c then radix_literal 8 r
      else if is_char "b" "B" c then radix_literal 2 r
      else decimal_literal t
  | _ => decimal_literal t
  end.

(** *** Values of a request body *)

Inductive value : Type :=
| Undefined
| Null
| Bool (b : bool)
| Num (n : number)
| Str (s : string)
| Obj (to_string : string).

Definition truthy_number (n : number) : bool :=
  match n with
  | NaN => false
  | Fin q => negb (Qeq_bool q 0)
  | _ => true
  end.

Definition truthy (v : value) : bool :=
  match v with
  | Undefined | Null => false
  | Bool b => b
  | Num n => truthy_number n
  | Str s => negb (String.eqb s "")
  | Obj _ => true
  end.

Definition falsy (v : value) : bool := negb (truthy v).

Definition ToNumber (v : value) : number :=
  match v with
  | Undefined => NaN
  | Null => zero
  | Bool b => if b then of_Z 1 else zero
  | Num n => n
  | Str s => StringToNumber s
  | Obj s => StringToNumber s
  end.

(** [v <= 0]: the other operand is a number, so [v] is converted. *)
Definition le_zero (v : value) : bool := le (ToNumber v) zero.

Definition is_undefined (v : value) : bool :=
  match v with Undefined => true | _ => false end.

(** [isNaN(s)] on a string. *)
Definition isNaN (s : string) : bool := isNaN_number (StringToNumber s).

(** [list.includes(v)] on an array of strings: only an equal string is
    found. *)
Definition includes (l : list string) (v : value) : bool :=
  match v with
  | Str s => existsb (String.eqb s) l
  | _ => false
  end.

End JS.


(* ===================================================================== *)
(** ** The orders table and the statements run against it *)
(* ===================================================================== *)

Module Sql.

(** A stored or bound value: NULL, a number (INTEGER or REAL), or text. *)
Inductive sqlval : Type :=
| SNull
| SNum (n : JS.number)
| SText (s : string).

(** How the driver binds a JavaScript value to a [?] placeholder: a
    boolean as 0 or 1, NaN as NULL, and every object or array as the same
    fixed text. *)
Definition bind (v : JS.value) : sqlval :=
  match v with
  | JS.Undefined | JS.Null => SNull
  | JS.Bool b => SNum (if b then JS.of_Z 1 else JS.zero)
  | JS.Num JS.NaN => SNull
  | JS.Num n => SNum n
  | JS.Str s => SText s
  | JS.Obj _ => SText "[object Object]"
  end.

(** The white space of the engine is that of ASCII. *)
Fixpoint ltrim (s : string) : string :=
  match s with
  | String c s' => if JS.is_ws c then ltrim s' else s
  | EmptyString => EmptyString
  end.

Fixpoint rtrim (s : string) : string :=
  match s with
  | EmptyString => EmptyString
  | String c s' =>
      match rtrim s' with
      | EmptyString =>
          if JS.is_ws c then EmptyString else String c EmptyString
      | t => String c t
      end
  end.

(** Text made of digits and nothing else. *)
Definition integer_literal (s : string) : bool :=
  match JS.digits 10 s 0 0 with
  | (_, S _, EmptyString) => true
  | _ => false
  end.

(** Text that reads as a decimal literal in full, white space around it
    allowed: the integer it writes when it is made of digits alone, the
    double nearest to its value when it has a fraction or an exponent. *)
Definition numeric_of_text (s : string) : option JS.number :=
  let '(sg, r) := JS.sign (rtrim (ltrim s)) in
  match JS.unsigned_decimal r with
  | Some (q, EmptyString) =>
      Some (if integer_literal r then JS.Fin (inject_Z sg * q)%Q
            else JS.signed sg q)
  | _ => None
  end.

(** INTEGER and NUMERIC column affinity: well-formed numeric text becomes
    a number, anything else is kept. *)
Definition numeric_affinity (v : sqlval) : sqlval :=
  match v with
  | SText s =>
      match numeric_of_text s with
      | Some n => SNum n
      | None => v
      end
  | _ => v
  end.

(** *** Numbers written as text *)

Definition integer_text (z : Z) : string :=
  NilZero.string_of_int (Z.to_int z).

(** A run of digits without the zeros at its end. *)
Fixpoint strip_zeros (s : string) : string :=
  match s with
  | EmptyString => EmptyString
  | String c s' =>
      match strip_zeros s' with
      | EmptyString =>
          if Ascii.eqb c "0" then EmptyString else String c EmptyString
      | t => String c t
      end
  end.

(** The digits after the point: at least one. *)
Definition fraction (s : string) : string :=
  match strip_zeros s with
  | EmptyString => "0"
  | t => t
  end.

Fixpoint zeros (n : nat) : string :=
  match n with
  | O => EmptyString
  | S n' => String "0" (zeros n')
  end.

Definition digit_count (z : Z) : Z :=
  Z.of_nat (String.length (integer_text z)).

(** [10 ^ k <= n / d], for positive [n] and [d]. *)
Definition at_least_pow10 (n d k : Z) : bool :=
  if 0 <=? k then d * 10 ^ k <=? n else d <=? n * 10 ^ (- k).

(** The decimal exponent of [n / d]: the [e] with
    [10 ^ e <= n / d < 10 ^ (e + 1)]. *)
Definition decimal_exponent (n d : Z) : Z :=
  let l := digit_count n - digit_count d in
  if at_least_pow10 n d l then l else l - 1.

(** [p / r] rounded to the nearest integer, a tie going up. *)
Definition round_half_up (p r : Z) : Z := (2 * p + r) / (2 * r).

(** An exponent is written with two digits at least. *)
Definition exponent_text (e : Z) : string :=
  ((if (e <? 0)%Z then "-" else "+")
   ++ (if (Z.abs e <? 10)%Z then "0" else "") ++ integer_text (Z.abs e))
  %string.

(** The text of a REAL other than 0, in the format ["%!.15g"]: fifteen
    significant digits, the zeros at the end dropped but for one digit
    after the point, and an exponent when the decimal exponent is below
    -4 or above 14. *)
Definition real_text (q : Q) : string :=
  let n := Z.abs (Qnum q) in
  let d := Zpos (Qden q) in
  let e0 := decimal_exponent n d in
  let m0 := if e0 <=? 14 then round_half_up (n * 10 ^ (14 - e0)) d
            else round_half_up n (d * 10 ^ (e0 - 14)) in
  let '(m, e) := if 10 ^ 15 <=? m0 then (m0 / 10, e0 + 1) else (m0, e0) in
  let ds := integer_text m in
  ((if (Qnum q <? 0)%Z then "-" else "")
   ++ (if ((e <? - 4) || (14 <? e))%Z then
         substring 0 1 ds ++ "." ++ fraction (substring 1 14 ds)
         ++ "e" ++ exponent_text e
       else if (0 <=? e)%Z then
         substring 0 (Z.to_nat (e + 1)) ds ++ "."
         ++ fraction (substring (Z.to_nat (e + 1)) (Z.to_nat (14 - e)) ds)
       else
         "0." ++ zeros (Z.to_nat (- e - 1)) ++ strip_zeros ds))%string.

(** The driver binds a number that is a 32-bit integer as an INTEGER and
    any other as a REAL. *)
Definition is_int32 (q : Q) : bool :=
  (Zpos (Qden (Qred q)) =? 1)
  && (- 2 ^ 31 <=? Qnum (Qred q)) && (Qnum (Qred q) <? 2 ^ 31).

(** The text the engine writes for a bound number (a NaN is bound as
    NULL and does not come here). *)
Definition number_text (n : JS.number) : string :=
  match n with
  | JS.NaN => "NaN"
  | JS.NegInf => "-Inf"
  | JS.PosInf => "Inf"
  | JS.Fin q => if is_int32 q then integer_text (Qnum (Qred q))
                else real_text q
  end.

(** TEXT column affinity: a number is stored as its text. *)
Definition text_affinity (v : sqlval) : sqlval :=
  match v with
  | SNum n => SText (number_text n)
  | _ => v
  end.

(** The engine's order on values: NULL, then numbers, then text compared
    byte by byte. *)
Definition compare (a b : sqlval) : comparison :=
  match a, b with
  | SNull, SNull => Eq
  | SNull, _ => Lt
  | _, SNull => Gt
  | SNum x, SNum y => JS.cmp x y
  | SNum _, SText _ => Lt
  | SText _, SNum _ => Gt
  | SText s, SText t => String.compare s t
  end.

Inductive operator : Type := OpEq | OpGe | OpLe.

(** [a op b] in a WHERE clause: a comparison with NULL selects nothing. *)
Definition test (o : operator) (a b : sqlval) : bool :=
  match a, b with
  | SNull, _ | _, SNull => false
  | _, _ =>
      match o, compare a b with
      | OpEq, Eq => true
      | OpGe, (Eq | Gt) => true
      | OpLe, (Eq | Lt) => true
      | _, _ => false
      end
  end.

(** *** Schema *)

Inductive column : Type :=
| customer_name | product | quantity | amount | status | order_date.

Definition column_name (c : column) : string :=
  match c with
  | customer_name => "customer_name"
  | product => "product"
  | quantity => "quantity"
  | amount => "amount"
  | status => "status"
  | order_date => "order_date"
  end.

Record order : Type := mkOrder {
  id : Z;
  o_customer_name : sqlval;
  o_product : sqlval;
  o_quantity : sqlval;
  o_amount : sqlval;
  o_status : sqlval;
  o_order_date : sqlval;
  created_at : string
}.

Definition get (c : column) (r : order) : sqlval :=
  match c with
  | customer_name => o_customer_name r
  | product => o_product r
  | quantity => o_quantity r
  | amount => o_amount r
  | status => o_status r
  | order_date => o_order_date r
  end.

(** The affinity of a column: TEXT for the four declared TEXT, INTEGER
    for quantity and NUMERIC for amount. *)
Definition affinity (c : column) (v : sqlval) : sqlval :=
  match c with
  | quantity | amount => numeric_affinity v
  | customer_name | product | status | order_date => text_affinity v
  end.

Definition set (c : column) (v : sqlval) (r : order) : order :=
  let w := affinity c v in
  match c with
  | customer_name =>
      mkOrder (id r) w (o_product r) (o_quantity r) (o_amount r)
              (o_status r) (o_order_date r) (created_at r)
  | product =>
      mkOrder (id r) (o_customer_name r) w (o_quantity r) (o_amount r)
              (o_status r) (o_order_date r) (created_at r)
  | quantity =>
      mkOrder (id r) (o_customer_name r) (o_product r) w (o_amount r)
              (o_status r) (o_order_date r) (created_at r)
  | amount =>
      mkOrder (id r) (o_customer_name r) (o_product r) (o_quantity r) w
              (o_status r) (o_order_date r) (created_at r)
  | status =>
      mkOrder (id r) (o_customer_name r) (o_product r) (o_quantity r)
              (o_amount r) w (o_order_date r) (created_at r)
  | order_date =>
      mkOrder (id r) (o_customer_name r) (o_product r) (o_quantity r)
              (o_amount r) (o_status r) w (created_at r)
  end.

Definition status_values : list string :=
  ["pending"; "processing"; "completed"; "cancelled"]%string.

(** [CHECK(status IN ('pending', 'processing', 'completed', 'cancelled'))] *)
Definition check_status (v : sqlval) : bool :=
  match v with
  | SText s => existsb (String.eqb s) status_values
  | _ => false
  end.

Definition is_null (v : sqlval) : bool :=
  match v with SNull => true | _ => false end.

Definition all_columns : list column :=
  [customer_name; product; quantity; amount; status; order_date].

(** The NOT NULL constraints of the six columns and the CHECK on status. *)
Definition constraints_ok (r : order) : bool :=
  forallb (fun c => negb (is_null (get c r))) all_columns
  && check_status (o_status r).

(** The table, with the AUTOINCREMENT sequence (the largest id ever
    given out). *)
Record database : Type := mkDatabase {
  rows : list order;
  sequence : Z
}.

Definition empty : database := mkDatabase [] 0.

Definition max_id (l : list order) : Z :=
  fold_right (fun r m => Z.max (id r) m) 0 l.

Definition next_id (db : database) : Z :=
  Z.max (sequence db) (max_id (rows db)) + 1.

(** What a [db.run] callback sees: an error, or [this.lastID] and
    [this.changes] with the table after the statement. *)
Inductive run_result : Type :=
| RunError (message : string)
| RunDone (lastID : Z) (changes : Z) (db' : database).

Definition changes_of (r : run_result) : option Z :=
  match r with
  | RunError _ => None
  | RunDone _ changes _ => Some changes
  end.

(** [INSERT INTO orders (customer_name, product, quantity, amount, status,
    order_date) VALUES (?, ?, ?, ?, ?, ?)] *)
Definition run_insert (params : list sqlval) (now : string) (db : database)
  : run_result :=
  match params with
  | [p1; p2; p3; p4; p5; p6] =>
      let r := mkOrder (next_id db) (affinity customer_name p1)
                       (affinity product p2) (affinity quantity p3)
                       (affinity amount p4) (affinity status p5)
                       (affinity order_date p6) now in
      if constraints_ok r
      then RunDone (id r) 1 (mkDatabase (rows db ++ [r]) (id r))
      else RunError "SQLITE_CONSTRAINT"
  | _ => RunError "SQLITE_RANGE"
  end.

(** [WHERE id = ?]: the parameter takes the integer affinity of the
    column before it is compared. *)
Definition id_is (p : sqlval) (r : order) : bool :=
  test OpEq (SNum (JS.of_Z (id r))) (numeric_affinity p).

Fixpoint assign (sets : list (column * sqlval)) (r : order) : order :=
  match sets with
  | [] => r
  | (c, v) :: sets' => assign sets' (set c v r)
  end.

Definition split_last (l : list sqlval) : list sqlval * sqlval :=
  (removelast l, last l SNull).

(** [UPDATE orders SET c1 = ?, ..., cn = ? WHERE id = ?], the parameters
    being the n values followed by the id. *)
Definition run_update (updates : list column) (params : list sqlval)
  (db : database) : run_result :=
  let '(vals, p_id) := split_last params in
  if negb (List.length vals =? List.length updates)%nat then RunError "SQLITE_RANGE"
  else
    let hit := filter (id_is p_id) (rows db) in
    let upd := fun r =>
      if id_is p_id r then assign (combine updates vals) r else r in
    if forallb (fun r => constraints_ok (upd r)) hit
    then RunDone 0 (Z.of_nat (List.length hit))
                 (mkDatabase (map upd (rows db)) (sequence db))
    else RunError "SQLITE_CONSTRAINT".

(** [DELETE FROM orders WHERE id = ?] *)
Definition run_delete (params : list sqlval) (db : database) : run_result :=
  match params with
  | [p_id] =>
      let hit := filter (id_is p_id) (rows db) in
      RunDone 0 (Z.of_nat (List.length hit))
        (mkDatabase (filter (fun r => negb (id_is p_id r)) (rows db))
                    (sequence db))
  | _ => RunError "SQLITE_RANGE"
  end.

(** [SELECT * FROM orders WHERE id = ?] through [db.get]: the first row. *)
Definition get_by_id (params : list sqlval) (db : database) : option order :=
  match params with
  | [p_id] => find (id_is p_id) (rows db)
  | _ => None
  end.

(** *** Listing *)

(** A fragment [column op ?] of a WHERE clause. *)
Record condition : Type := mkCondition {
  cond_column : column;
  cond_op : operator
}.

Definition operator_text (o : operator) : string :=
  match o with OpEq => "=" | OpGe => ">=" | OpLe => "<=" end.

Definition condition_text (f : condition) : string :=
  (column_name (cond_column f) ++ " " ++ operator_text (cond_op f) ++ " ?")
  %string.

(** [filters.length > 0 ? 'WHERE ' + filters.join(' AND ') : ''] *)
Definition whereClause (filters : list condition) : string :=
  match filters with
  | [] => ""%string
  | _ => ("WHERE " ++ String.concat " AND " (map condition_text filters))
         %string
  end.

(** The fragments joined by AND, the i-th placeholder taking the i-th
    parameter. *)
Definition where_holds (filters : list condition) (params : list sqlval)
  (r : order) : bool :=
  forallb (fun fp => test (cond_op (fst fp)) (get (cond_column (fst fp)) r)
                          (snd fp))
          (combine filters params).

(** [SELECT COUNT( * ) as total FROM orders <where>] *)
Definition count (filters : list condition) (params : list sqlval)
  (db : database) : Z :=
  Z.of_nat (List.length (filter (where_holds filters params) (rows db))).

(** [ORDER BY order_date DESC, id DESC]: does [a] come no later than [b]. *)
Definition precedes (a b : order) : bool :=
  match compare (o_order_date a) (o_order_date b) with
  | Gt => true
  | Lt => false
  | Eq => id b <=? id a
  end.

Fixpoint insert_sorted (a : order) (l : list order) : list order :=
  match l with
  | [] => [a]
  | b :: l' => if precedes a b then a :: l else b :: insert_sorted a l'
  end.

Definition order_by (l : list order) : list order :=
  fold_right insert_sorted [] l.

(** What a [db.all] callback sees: an error, or the rows. *)
Inductive all_result : Type :=
| AllError (message : string)
| AllRows (rows : list order).

(** A number bound to LIMIT or OFFSET has to be an integer the engine
    can hold in 64 bits: one bound as a REAL is converted when it lies
    strictly between the two ends of that range. *)
Definition is_int64 (z : Z) : bool := (- 2 ^ 63 <? z) && (z <? 2 ^ 63).

(** The rows a limit and an offset leave: a negative limit is no limit,
    a negative offset is none. *)
Definition slice (limit offset : Z) (l : list order) : list order :=
  let l' := skipn (Z.to_nat offset) l in
  if limit <? 0 then l' else firstn (Z.to_nat limit) l'.

Definition mismatch : string := "SQLITE_MISMATCH: datatype mismatch".

(** [LIMIT ? OFFSET ?] *)
Definition limit_offset (limit offset : Z) (l : list order) : all_result :=
  if is_int64 limit && is_int64 offset
  then AllRows (slice limit offset l)
  else AllError mismatch.

(** [SELECT * FROM orders <where> ORDER BY order_date DESC, id DESC
    LIMIT ? OFFSET ?], the last two parameters being the limit and the
    offset. *)
Definition select_page (filters : list condition) (params : list sqlval)
  (limit offset : Z) (db : database) : all_result :=
  limit_offset limit offset
    (order_by (filter (where_holds filters params) (rows db))).

End Sql.

(* ===================================================================== *)
(** ** The controller *)
(* ===================================================================== *)

Module Controllers.

Import JS.

(** The six fields read from [req.body]. *)
Record fields : Type := mkFields {
  customer_name : value;
  product : value;
  quantity : value;
  amount : value;
  status : value;
  order_date : value
}.

(** [req.query] of [GET /orders]. *)
Record query : Type := mkQuery {
  q_page : option string;
  q_limit : option string;
  q_status : option string;
  q_minAmount : option string;
  q_maxAmount : option string;
  q_startDate : option string;
  q_endDate : option string
}.

Record pagination : Type := mkPagination {
  page : Z;
  limit : Z;
  totalOrders : Z;
  totalPages : Z;
  hasNextPage : bool;
  hasPreviousPage : bool
}.

(** The JSON documents the controller sends. *)
Inductive json : Type :=
| ErrorRequired (error : string) (required : list string)
| ErrorStatuses (error : string) (validStatuses : list string)
| ErrorConstraints (error : string) (constraints : string)
| ErrorDetails (error : string) (details : string)
| Error (error : string)
| OrderCreated (id : Z) (sent : fields) (message : string)
| Listing (data : list Sql.order) (pg : pagination)
| Row (row : Sql.order)
| Message (message : string) (id : string).

Record response : Type := mkResponse {
  statusCode : Z;
  body : json
}.

Definition validStatuses : list string :=
  ["pending"; "processing"; "completed"; "cancelled"]%string.

Definition required_fields : list string :=
  ["customer_name"; "product"; "quantity"; "amount"; "status"; "order_date"]
  %string.

Definition database_error (m : string) : response :=
  mkResponse 500 (ErrorDetails "Database error" m).

(** *** createOrder *)

Definition createOrder (b : fields) (now : string) (db : Sql.database)
  : response * Sql.database :=
  if falsy (customer_name b) || falsy (product b) || falsy (quantity b)
     || falsy (amount b) || falsy (status b) || falsy (order_date b)
  then (mkResponse 400
          (ErrorRequired "Missing required fields" required_fields), db)
  else if negb (includes validStatuses (status b))
  then (mkResponse 400 (ErrorStatuses "Invalid status" validStatuses), db)
  else if le_zero (quantity b) || le_zero (amount b)
  then (mkResponse 400
          (Error "Quantity and amount must be positive numbers"), db)
  else
    match Sql.run_insert
            (map Sql.bind [customer_name b; product b; quantity b;
                           amount b; status b; order_date b]) now db with
    | Sql.RunError m => (database_error m, db)
    | Sql.RunDone lastID _ db' =>
        (mkResponse 201 (OrderCreated lastID b "Order created successfully"),
         db')
    end.

(** *** getOrders *)

(** [parseInt(req.query.x)]: an absent parameter is [undefined], which
    [parseInt] reads as the text "undefined". *)
Definition parseInt_param (v : option string) : option Z :=
  parseInt (match v with Some s => s | None => "undefined"%string end).

(** [if (req.query.x)]: a parameter that is there and not empty. *)
Definition given (v : option string) : option string :=
  match v with
  | Some s => if String.eqb s "" then None else Some s
  | None => None
  end.

(** The arrays [filters] and [params] as they grow. *)
Definition builder : Type := (list Sql.condition * list Sql.sqlval)%type.

Definition push (c : Sql.column) (o : Sql.operator) (p : Sql.sqlval)
  (w : builder) : builder :=
  (fst w ++ [Sql.mkCondition c o], snd w ++ [p]).

Definition bind_step {A B E : Type} (x : E + A) (k : A -> E + B) : E + B :=
  match x with
  | inl e => inl e
  | inr a => k a
  end.

Notation "x <- e ;; k" := (bind_step e (fun x => k))
  (at level 61, e at next level, right associativity).

Definition filter_status (q : query) (w : builder) : response + builder :=
  match given (q_status q) with
  | Some s =>
      if negb (includes validStatuses (Str s))
      then inl (mkResponse 400
                  (ErrorStatuses "Invalid status filter" validStatuses))
      else inr (push Sql.status Sql.OpEq (Sql.SText s) w)
  | None => inr w
  end.

Definition filter_minAmount (q : query) (w : builder) : response + builder :=
  match given (q_minAmount q) with
  | Some s =>
      let minAmount := parseFloat s in
      if isNaN_number minAmount || lt minAmount zero
      then inl (mkResponse 400 (Error "Invalid minAmount parameter"))
      else inr (push Sql.amount Sql.OpGe (Sql.bind (Num minAmount)) w)
  | None => inr w
  end.

Definition filter_maxAmount (q : query) (w : builder) : response + builder :=
  match given (q_maxAmount q) with
  | Some s =>
      let maxAmount := parseFloat s in
      if isNaN_number maxAmount || lt maxAmount zero
      then inl (mkResponse 400 (Error "Invalid maxAmount parameter"))
      else inr (push Sql.amount Sql.OpLe (Sql.bind (Num maxAmount)) w)
  | None => inr w
  end.

Definition filter_startDate (q : query) (w : builder) : response + builder :=
  match given (q_startDate q) with
  | Some s => inr (push Sql.order_date Sql.OpGe (Sql.SText s) w)
  | None => inr w
  end.

Definition filter_endDate (q : query) (w : builder) : response + builder :=
  match given (q_endDate q) with
  | Some s => inr (push Sql.order_date Sql.OpLe (Sql.SText s) w)
  | None => inr w
  end.

(** The part of [getOrders] that builds the WHERE clause, in the order of
    the source. *)
Definition build_where (q : query) : response + builder :=
  w1 <- filter_status q ([], []) ;;
  w2 <- filter_minAmount q w1 ;;
  w3 <- filter_maxAmount q w2 ;;
  w4 <- filter_startDate q w3 ;;
  filter_endDate q w4.

(** [Math.ceil(totalOrders / limit)] on a count and a positive limit
    (the quotient is a double, which leaves the ceiling as it is for a
    count below [2 ^ 53]). *)
Definition Math_ceil_div (a b : Z) : Z := - ((- a) / b).

Definition invalid_pagination : response :=
  mkResponse 400
    (ErrorConstraints "Invalid pagination parameters"
                      "page >= 1, 1 <= limit <= 100").

(** [(page - 1) * limit], each operation giving a double. *)
Definition offset_at (page limit : Z) : Z :=
  to_double (to_double (page - 1) * limit).

Definition getOrders (q : query) (db : Sql.database) : response :=
  let page := or_default (parseInt_param (q_page q)) 1 in
  let limit := or_default (parseInt_param (q_limit q)) 10 in
  let offset := offset_at page limit in
  if (page <? 1) || (limit <? 1) || (limit >? 100)
  then invalid_pagination
  else
    match build_where q with
    | inl r => r
    | inr (filters, params) =>
        let totalOrders := Sql.count filters params db in
        let totalPages := Math_ceil_div totalOrders limit in
        match Sql.select_page filters params limit offset db with
        | Sql.AllError m => database_error m
        | Sql.AllRows rows =>
            mkResponse 200
              (Listing rows
                 (mkPagination page limit totalOrders totalPages
                               (page <? totalPages) (page >? 1)))
        end
    end.

(** *** getOrderById, updateOrder, deleteOrder *)

(** [!id || isNaN(id)] on the route parameter. *)
Definition invalid_id (id : string) : bool :=
  String.eqb id "" || isNaN id.

Definition invalid_order_id : response :=
  mkResponse 400 (Error "Invalid order ID").

Definition not_found : response :=
  mkResponse 404 (Error "Order not found").

Definition getOrderById (id : string) (db : Sql.database) : response :=
  if invalid_id id then invalid_order_id
  else
    match Sql.get_by_id [Sql.SText id] db with
    | None => not_found
    | Some row => mkResponse 200 (Row row)
    end.

(** [if (v) { updates.push('c = ?'); params.push(v); }] *)
Definition set_if (c : Sql.column) (v : value)
  (w : list Sql.column * list Sql.sqlval)
  : list Sql.column * list Sql.sqlval :=
  if truthy v then (fst w ++ [c], snd w ++ [Sql.bind v]) else w.

(** The arrays [updates] and [params] after the six tests. *)
Definition build_updates (b : fields) : list Sql.column * list Sql.sqlval :=
  set_if Sql.order_date (order_date b)
    (set_if Sql.status (status b)
       (set_if Sql.amount (amount b)
          (set_if Sql.quantity (quantity b)
             (set_if Sql.product (product b)
                (set_if Sql.customer_name (customer_name b) ([], [])))))).

(** The first part of [updateOrder], up to the statement handed to
    [db.run]: a rejection, or the columns to set with the parameters (the
    values, then the id). *)
Definition update_statement (id : string) (b : fields)
  : response + (list Sql.column * list Sql.sqlval) :=
  if invalid_id id then inl invalid_order_id
  else if truthy (status b) && negb (includes validStatuses (status b))
  then inl (mkResponse 400 (ErrorStatuses "Invalid status" validStatuses))
  else if (negb (is_undefined (quantity b)) && le_zero (quantity b))
          || (negb (is_undefined (amount b)) && le_zero (amount b))
  then inl (mkResponse 400
              (Error "Quantity and amount must be positive numbers"))
  else
    let '(updates, params) := build_updates b in
    if (List.length updates =? 0)%nat
    then inl (mkResponse 400 (Error "No fields to update"))
    else inr (updates, params ++ [Sql.SText id]).

Definition updateOrder (id : string) (b : fields) (db : Sql.database)
  : response * Sql.database :=
  match update_statement id b with
  | inl r => (r, db)
  | inr (updates, params) =>
      match Sql.run_update updates params db with
      | Sql.RunError m => (database_error m, db)
      | Sql.RunDone _ changes db' =>
          if changes =? 0 then (not_found, db')
          else (mkResponse 200 (Message "Order updated successfully" id),
                db')
      end
  end.

Definition deleteOrder (id : string) (db : Sql.database)
  : response * Sql.database :=
  if invalid_id id then (invalid_order_id, db)
  else
    match Sql.run_delete [Sql.SText id] db with
    | Sql.RunError m => (database_error m, db)
    | Sql.RunDone _ changes db' =>
        if changes =? 0 then (not_found, db')
        else (mkResponse 200 (Message "Order deleted successfully" id), db')
    end.

End Controllers.

(* ===================================================================== *)
(** ** Vocabulary of the specification *)
(* ===================================================================== *)

Module Spec.

Import Controllers.

(** The page and the limit a request asks for, once defaulted. *)
Definition page_of (q : query) : Z :=
  JS.or_default (parseInt_param (q_page q)) 1.

Definition limit_of (q : query) : Z :=
  JS.or_default (parseInt_param (q_limit q)) 10.

(** The offset the data query is given. *)
Definition offset_of (q : query) : Z :=
  offset_at (page_of q) (limit_of q).

Definition pagination_ok (q : query) : bool :=
  (1 <=? page_of q) && (1 <=? limit_of q) && (limit_of q <=? 100).

Definition filters_ok (q : query) : bool :=
  match build_where q with
  | inl _ => false
  | inr _ => true
  end.

(** A request that passes the whole of filter validation. *)
Definition valid_request (q : query) : bool :=
  pagination_ok q && filters_ok q.

(** One conjunct per filter that is given, in the words of the
    specification: [status = value], [amount >= minAmount],
    [amount <= maxAmount], [order_date >= startDate],
    [order_date <= endDate]. *)
Definition conjunct_of (c : Sql.column) (o : Sql.operator)
  (bound : string -> Sql.sqlval) (v : option string)
  : list (Sql.condition * Sql.sqlval) :=
  match given v with
  | Some s => [(Sql.mkCondition c o, bound s)]
  | None => []
  end.

Definition amount_bound (s : string) : Sql.sqlval :=
  Sql.SNum (JS.parseFloat s).

Definition conjuncts (q : query) : list (Sql.condition * Sql.sqlval) :=
  conjunct_of Sql.status Sql.OpEq Sql.SText (q_status q)
  ++ conjunct_of Sql.amount Sql.OpGe amount_bound (q_minAmount q)
  ++ conjunct_of Sql.amount Sql.OpLe amount_bound (q_maxAmount q)
  ++ conjunct_of Sql.order_date Sql.OpGe Sql.SText (q_startDate q)
  ++ conjunct_of Sql.order_date Sql.OpLe Sql.SText (q_endDate q).

Definition satisfies (cs : list (Sql.condition * Sql.sqlval))
  (r : Sql.order) : bool :=
  forallb (fun cp => Sql.test (Sql.cond_op (fst cp))
                              (Sql.get (Sql.cond_column (fst cp)) r)
                              (snd cp)) cs.

(** The stored orders a request selects, whatever the page. *)
Definition matching (q : query) (db : Sql.database) : list Sql.order :=
  filter (satisfies (conjuncts q)) (Sql.rows db).

(** [n] is the ceiling of [a / b]. *)
Definition is_ceiling (n a b : Z) : Prop :=
  (n - 1) * b < a <= n * b.

(** [a] is listed before [b]: a later order_date, or the same one and an
    id that is not smaller. *)
Definition listed_before (a b : Sql.order) : Prop :=
  Sql.compare (Sql.o_order_date a) (Sql.o_order_date b) = Gt
  \/ (Sql.compare (Sql.o_order_date a) (Sql.o_order_date b) = Eq
      /\ Sql.id b <= Sql.id a).

Definition same_order_date (a b : Sql.order) : Prop :=
  Sql.compare (Sql.o_order_date a) (Sql.o_order_date b) = Eq.

Definition unique_ids (db : Sql.database) : Prop :=
  NoDup (map Sql.id (Sql.rows db)).

(** *** Fields of a body *)

Definition field (c : Sql.column) (b : fields) : JS.value :=
  match c with
  | Sql.customer_name => customer_name b
  | Sql.product => product b
  | Sql.quantity => quantity b
  | Sql.amount => amount b
  | Sql.status => status b
  | Sql.order_date => order_date b
  end.

(** The body with one field left out. *)
Definition without (c : Sql.column) (b : fields) : fields :=
  match c with
  | Sql.customer_name =>
      mkFields JS.Undefined (product b) (quantity b) (amount b) (status b)
               (order_date b)
  | Sql.product =>
      mkFields (customer_name b) JS.Undefined (quantity b) (amount b)
               (status b) (order_date b)
  | Sql.quantity =>
      mkFields (customer_name b) (product b) JS.Undefined (amount b)
               (status b) (order_date b)
  | Sql.amount =>
      mkFields (customer_name b) (product b) (quantity b) JS.Undefined
               (status b) (order_date b)
  | Sql.status =>
      mkFields (customer_name b) (product b) (quantity b) (amount b)
               JS.Undefined (order_date b)
  | Sql.order_date =>
      mkFields (customer_name b) (product b) (quantity b) (amount b)
               (status b) JS.Undefined
  end.

Definition supplied (c : Sql.column) (b : fields) : bool :=
  negb (JS.is_undefined (field c b)).

(** The required fields a body lacks (absent or falsy), by name. *)
Definition absent_fields (b : fields) : list string :=
  map Sql.column_name
      (filter (fun c => JS.falsy (field c b)) Sql.all_columns).

(** The field names a response lists. *)
Definition named_fields (r : response) : list string :=
  match body r with
  | ErrorRequired _ names => names
  | _ => []
  end.

Definition is_missing_fields (r : response) : bool :=
  (statusCode r =? 400)
  && match body r with
     | ErrorRequired e _ => String.eqb e "Missing required fields"
     | _ => false
     end.

Definition is_invalid_magnitude (r : response) : bool :=
  (statusCode r =? 400)
  && match body r with
     | Error e =>
         String.eqb e "Quantity and amount must be positive numbers"
     | _ => false
     end.

(** *** The field constraints of the data model *)


Definition positive (q : Q) : bool :=
  match (0 ?= q)%Q with Lt => true | _ => false end.




Definition is_digit (c : ascii) : bool :=
  (48 <=? JS.code c) && (JS.code c <=? 57).




(** The two columns whose values [updateOrder] compares with 0. *)
Definition magnitude_column (c : Sql.column) : bool :=
  match c with
  | Sql.quantity | Sql.amount => true
  | _ => false
  end.

(** The number of rows a [WHERE id = ?] on this route parameter reaches. *)
Definition rows_with_id (id : string) (db : Sql.database) : Z :=
  Z.of_nat (List.length (filter (Sql.id_is (Sql.SText id)) (Sql.rows db))).

(** [DELETE /orders/:id] sent [n] times in a row: the responses, and the
    table at the end. *)
Fixpoint delete_times (n : nat) (id : string) (db : Sql.database)
  : list response * Sql.database :=
  match n with
  | O => ([], db)
  | S n' =>
      let '(r, db') := deleteOrder id db in
      let '(rs, db'') := delete_times n' id db' in
      (r :: rs, db'')
  end.

(** The row the table makes of the body [createOrder] hands to it: each
    value as the driver binds it, under the affinity of its column. *)
Definition stored_row (b : fields) (now : string) (db : Sql.database)
  : Sql.order :=
  Sql.mkOrder (Sql.next_id db)
    (Sql.affinity Sql.customer_name (Sql.bind (customer_name b)))
    (Sql.affinity Sql.product (Sql.bind (product b)))
    (Sql.affinity Sql.quantity (Sql.bind (quantity b)))
    (Sql.affinity Sql.amount (Sql.bind (amount b)))
    (Sql.affinity Sql.status (Sql.bind (status b)))
    (Sql.affinity Sql.order_date (Sql.bind (order_date b))) now.

(** Every check of [createOrder] passes. *)
Definition create_accepts (b : fields) : bool :=
  forallb (fun c => JS.truthy (field c b)) Sql.all_columns
  && JS.includes validStatuses (status b)
  && negb (JS.le_zero (quantity b)) && negb (JS.le_zero (amount b)).

(** The number of stored orders a request selects. *)
Definition total_of (q : query) (db : Sql.database) : Z :=
  Z.of_nat (List.length (matching q db)).

(** How many of the five filters a request gives. *)
Definition given_count (q : query) : nat :=
  List.length
    (filter (fun v => match given v with Some _ => true | None => false end)
            [q_status q; q_minAmount q; q_maxAmount q; q_startDate q;
             q_endDate q]).

(** The two parts of a listing. *)
Definition data_of (r : response) : list Sql.order :=
  match body r with
  | Listing data _ => data
  | _ => []
  end.

Definition pagination_of (r : response) : pagination :=
  match body r with
  | Listing _ pg => pg
  | _ => mkPagination 0 0 0 0 false false
  end.

(** The table keeps what its schema declares: a primary key, and the
    NOT NULL and CHECK constraints on every row. *)
Definition well_formed (db : Sql.database) : Prop :=
  unique_ids db
  /\ Forall (fun r => Sql.constraints_ok r = true) (Sql.rows db).

End Spec.

(* ===================================================================== *)
(** ** Sample requests and tables *)
(* ===================================================================== *)

Module Samples.

Import Controllers.

Definition text (s : string) : JS.value := JS.Str s.
Definition int (z : Z) : JS.value := JS.Num (JS.of_Z z).
Definition dec (q : Q) : JS.value := JS.Num (JS.round_double q).

Definition no_query : query := mkQuery None None None None None None None.

Definition paged (p l : option string) : query :=
  mkQuery p l None None None None None.

Definition nothing : fields :=
  mkFields JS.Undefined JS.Undefined JS.Undefined JS.Undefined JS.Undefined
           JS.Undefined.

Definition alice : fields :=
  mkFields (text "Alice") (text "Mouse") (int 1) (dec (50 # 1))
           (text "pending") (text "2026-01-01").

Definition bob : fields :=
  mkFields (text "Bob") (text "Keyboard") (int 2) (dec (12099 # 100))
           (text "completed") (text "2026-01-01").

Definition carol : fields :=
  mkFields (text "Carol") (text "Monitor") (int 3) (int 900)
           (text "completed") (text "2026-02-05").

(** A body that passes every check of [createOrder] with a fractional
    quantity, a three-digit amount and a date that is not one. *)
Definition odd : fields :=
  mkFields (text "Dan") (text "Cable") (dec (3 # 2)) (dec (1 # 1000))
           (text "pending") (text "tomorrow").

(** All but the date. *)
Definition undated : fields :=
  mkFields (text "Alice") (text "Mouse") (int 1) (dec (50 # 1))
           (text "pending") JS.Undefined.

(** [{quantity: 0, status: "completed"}] *)
Definition zero_quantity : fields :=
  mkFields JS.Undefined JS.Undefined (int 0) JS.Undefined
           (text "completed") JS.Undefined.

(** [{customer_name: "", status: "completed"}] *)
Definition empty_name : fields :=
  mkFields (text "") JS.Undefined JS.Undefined JS.Undefined
           (text "completed") JS.Undefined.

Definition now : string := "2026-02-07 10:30:00".

Definition db1 : Sql.database := snd (createOrder alice now Sql.empty).
Definition db2 : Sql.database := snd (createOrder bob now db1).
Definition db3 : Sql.database := snd (createOrder carol now db2).

(** [GET /orders?status=completed&minAmount=100&maxAmount=1000] *)
Definition completed_range : query :=
  mkQuery None None (Some "completed"%string) (Some "100"%string)
          (Some "1000"%string) None None.

(** [GET /orders?page=2&limit=2] *)
Definition second_page : query :=
  paged (Some "2"%string) (Some "2"%string).


(** [GET /orders?status=pending&minAmount=10&maxAmount=100] *)
Definition pending_range : query :=
  mkQuery None None (Some "pending"%string) (Some "10"%string)
          (Some "100"%string) None None.

(** [{status: "completed"}] *)
Definition complete : fields :=
  mkFields JS.Undefined JS.Undefined JS.Undefined JS.Undefined
           (text "completed") JS.Undefined.

(** [{customer_name: 123, product: ["x", "y"], quantity: "abc",
    amount: "2.50", status: "pending", order_date: 1.5}] *)
Definition mixed : fields :=
  mkFields (int 123) (JS.Obj "x,y") (text "abc") (text "2.50")
           (text "pending") (dec (15 # 10)).


(** The no-break space U+00A0 followed by "1". *)
Definition nbsp_1 : string :=
  String (ascii_of_nat 194) (String (ascii_of_nat 160) "1").

End Samples.

(* ===================================================================== *)
(** ** Requests in sequence *)
(* ===================================================================== *)

Module Api.

Import Controllers Spec.

(** The decimal text of an integer, as a client writes an id or a page
    number into a URL. *)
Definition decimal_text (n : Z) : string :=
  NilZero.string_of_int (Z.to_int n).

(** Text made of decimal digits only. *)
Fixpoint all_digits (s : string) : bool :=
  match s with
  | EmptyString => true
  | String c s' => is_digit c && all_digits s'
  end.

(** The routes of the server that reach the controller, each with what
    the handler reads from the request; [now] is the clock of the table
    when an order is inserted. *)
Inductive request : Type :=
| POST_orders (b : fields) (now : string)
| GET_orders (q : query)
| GET_orders_id (id : string)
| PUT_orders_id (id : string) (b : fields)
| DELETE_orders_id (id : string).

Definition handle (rq : request) (db : Sql.database)
  : response * Sql.database :=
  match rq with
  | POST_orders b now => createOrder b now db
  | GET_orders q => (getOrders q db, db)
  | GET_orders_id id => (getOrderById id db, db)
  | PUT_orders_id id b => updateOrder id b db
  | DELETE_orders_id id => deleteOrder id db
  end.

(** Requests handled one after the other. *)
Fixpoint serve (rqs : list request) (db : Sql.database)
  : list response * Sql.database :=
  match rqs with
  | [] => ([], db)
  | rq :: rqs' =>
      let '(r, db') := handle rq db in
      let '(rs, db'') := serve rqs' db' in
      (r :: rs, db'')
  end.

(** The id a response announces for a created order. *)
Definition created_id (r : response) : option Z :=
  match body r with
  | OrderCreated id _ _ => Some id
  | _ => None
  end.

Fixpoint created_ids (rs : list response) : list Z :=
  match rs with
  | [] => []
  | r :: rs' =>
      match created_id r with
      | Some id => id :: created_ids rs'
      | None => created_ids rs'
      end
  end.

(** The same request for another page. *)
Definition at_page (q : query) (p : Z) : query :=
  mkQuery (Some (decimal_text p)) (q_limit q) (q_status q) (q_minAmount q)
          (q_maxAmount q) (q_startDate q) (q_endDate q).

(** The same request with another status filter, or none. *)
Definition with_status (q : query) (v : option string) : query :=
  mkQuery (q_page q) (q_limit q) v (q_minAmount q) (q_maxAmount q)
          (q_startDate q) (q_endDate q).

(** A column after an update: the bound value of a truthy field, under
    the affinity of the column, and the former value otherwise. *)
Definition keep_or_set (c : Sql.column) (b : fields) (r : Sql.order)
  : Sql.sqlval :=
  if JS.truthy (field c b)
  then Sql.affinity c (Sql.bind (field c b))
  else Sql.get c r.

Definition updated_row (b : fields) (r : Sql.order) : Sql.order :=
  Sql.mkOrder (Sql.id r)
    (keep_or_set Sql.customer_name b r) (keep_or_set Sql.product b r)
    (keep_or_set Sql.quantity b r) (keep_or_set Sql.amount b r)
    (keep_or_set Sql.status b r) (keep_or_set Sql.order_date b r)
    (Sql.created_at r).

(** What the status filter and an amount filter of a listing accept. *)
Definition status_filter_ok (q : query) : bool :=
  match given (q_status q) with
  | Some s => JS.includes validStatuses (JS.Str s)
  | None => true
  end.

Definition amount_filter_ok (v : option string) : bool :=
  match given v with
  | Some s =>
      negb (JS.isNaN_number (JS.parseFloat s)
            || JS.lt (JS.parseFloat s) JS.zero)
  | None => true
  end.

Definition invalid_status_filter : response :=
  mkResponse 400 (ErrorStatuses "Invalid status filter" validStatuses).

Definition invalid_amount_filter (name : string) : response :=
  mkResponse 400 (Error ("Invalid " ++ name ++ " parameter")).


Definition updated (id : string) : response :=
  mkResponse 200 (Message "Order updated successfully" id).

Definition deleted (id : string) : response :=
  mkResponse 200 (Message "Order deleted successfully" id).

Definition no_fields_to_update : response :=
  mkResponse 400 (Error "No fields to update").

(** The statuses the controller answers when the table raises no error. *)
Definition expected_status (r : response) : bool :=
  (statusCode r =? 200) || (statusCode r =? 201) || (statusCode r =? 400)
  || (statusCode r =? 404).

(** A listing that passes validation and asks for a page whose offset is
    not an integer the engine takes. *)
Definition out_of_range (rq : request) : bool :=
  match rq with
  | GET_orders q => valid_request q && negb (Sql.is_int64 (offset_of q))
  | _ => false
  end.

(** The answer to such a listing. *)
Definition offset_error : response :=
  mkResponse 500
    (ErrorDetails "Database error" "SQLITE_MISMATCH: datatype mismatch").

(** [pagination.totalOrders] of the listing asked with a status filter,
    or with none. *)
Definition listed_total (q : query) (v : option string)
  (db : Sql.database) : Z :=
  totalOrders (pagination_of (getOrders (with_status q v) db)).

End Api.

(* ===================================================================== *)
(** ** Properties *)
(* ===================================================================== *)

Import Controllers Spec.

(** *** Doubles that are integers *)

(** Below [2 ^ 53] every integer is a double. *)
Lemma to_double_exact (n : Z) :
  Z.abs n < 2 ^ 53 -> JS.to_double n = n.
Proof.
  intros H. unfold JS.to_double.
  destruct (Z.abs n <? 2 ^ 53) eqn:E; [reflexivity|].
  apply Z.ltb_ge in E. lia.
Qed.

Lemma round_half_even_floor (p r : Z) : p / r <= JS.round_half_even p r.
Proof.
  unfold JS.round_half_even.
  destruct (2 * (p mod r) ?= r); [destruct (Z.odd (p / r))| |]; lia.
Qed.

(** Rounding does not go below [2 ^ 53]. *)
Lemma to_double_large (n : Z) :
  2 ^ 53 <= n -> 2 ^ 53 <= JS.to_double n.
Proof.
  intros H. unfold JS.to_double.
  assert (Hpos : 0 < n) by (assert (0 < 2 ^ 53) by reflexivity; lia).
  rewrite (Z.abs_eq n) by lia.
  destruct (n <? 2 ^ 53) eqn:E; [exact H|].
  rewrite (Z.sgn_pos n) by exact Hpos. rewrite Z.mul_1_l.
  set (k := Z.log2 n - 52).
  assert (Hl : 53 <= Z.log2 n) by (apply Z.log2_le_pow2; [exact Hpos|exact H]).
  assert (Hk : 1 <= k) by (unfold k; lia).
  assert (Hs : 2 ^ Z.log2 n <= n) by (apply Z.log2_spec; exact Hpos).
  assert (Hp : 2 ^ Z.log2 n = 2 ^ 52 * 2 ^ k).
  { unfold k. rewrite <- Z.pow_add_r by lia. f_equal. lia. }
  assert (H2k : 2 <= 2 ^ k).
  { change 2 with (2 ^ 1) at 1. apply Z.pow_le_mono_r; lia. }
  assert (Hq : 2 ^ 52 <= n / 2 ^ k).
  { rewrite <- (Z.div_mul (2 ^ 52) (2 ^ k)) by lia.
    apply Z.div_le_mono; lia. }
  pose proof (round_half_even_floor n (2 ^ k)) as Hm.
  assert (H52 : 0 < 2 ^ 52) by reflexivity.
  assert (H53 : 2 ^ 53 = 2 ^ 52 * 2) by reflexivity.
  apply Z.min_glb.
  - rewrite H53. apply Z.mul_le_mono_nonneg; lia.
  - apply Z.pow_le_mono_r; lia.
Qed.

(** The offset of a page is the exact product as long as this is below
    [2 ^ 53], and is not below [2 ^ 53] otherwise. *)
Lemma offset_at_exact (p l : Z) :
  1 <= p -> 1 <= l -> (p - 1) * l < 2 ^ 53 ->
  offset_at p l = (p - 1) * l.
Proof.
  intros Hp Hl H. unfold offset_at.
  assert (H1 : (p - 1) <= (p - 1) * l) by nia.
  rewrite (to_double_exact (p - 1)) by lia.
  apply to_double_exact. nia.
Qed.

Lemma offset_at_large (p l : Z) :
  1 <= p -> 1 <= l -> 2 ^ 53 <= (p - 1) * l ->
  2 ^ 53 <= offset_at p l.
Proof.
  intros Hp Hl H. unfold offset_at. apply to_double_large.
  destruct (Z.lt_ge_cases (p - 1) (2 ^ 53)) as [Hs|Hs].
  - rewrite (to_double_exact (p - 1)) by lia. exact H.
  - pose proof (to_double_large (p - 1) Hs) as Hd.
    assert (0 < 2 ^ 53) by reflexivity. nia.
Qed.

Lemma offset_at_nonneg (p l : Z) :
  1 <= p -> 1 <= l -> 0 <= offset_at p l.
Proof.
  intros Hp Hl.
  destruct (Z.lt_ge_cases ((p - 1) * l) (2 ^ 53)) as [Hs|Hs].
  - rewrite offset_at_exact by assumption. nia.
  - pose proof (offset_at_large p l Hp Hl Hs).
    assert (0 < 2 ^ 53) by reflexivity. lia.
Qed.

(** An offset below [2 ^ 53] is one the engine takes. *)
Lemma offset_at_int64 (p l : Z) :
  1 <= p -> 1 <= l -> (p - 1) * l < 2 ^ 53 ->
  Sql.is_int64 (offset_at p l) = true.
Proof.
  intros Hp Hl H. rewrite offset_at_exact by assumption.
  unfold Sql.is_int64. apply andb_true_iff.
  assert (2 ^ 53 < 2 ^ 63) by reflexivity.
  assert (- 2 ^ 63 < 0) by reflexivity.
  split; apply Z.ltb_lt; nia.
Qed.

(** *** Pagination parameters *)

Lemma getOrders_pagination (q : query) (db : Sql.database) :
  pagination_ok q = false -> getOrders q db = invalid_pagination.
Proof.
  unfold pagination_ok, getOrders, page_of, limit_of.
  set (p := JS.or_default _ 1). set (l := JS.or_default _ 10).
  intros H.
  destruct (p <? 1) eqn:Hp; [reflexivity|].
  destruct (l <? 1) eqn:Hl; [reflexivity|].
  destruct (l >? 100) eqn:Hg; [reflexivity|].
  exfalso. apply Z.ltb_ge in Hp, Hl.
  rewrite Z.gtb_ltb in Hg. apply Z.ltb_ge in Hg.
  apply andb_false_iff in H. destruct H as [H|H].
  - apply andb_false_iff in H. destruct H as [H|H];
      apply Z.leb_gt in H; lia.
  - apply Z.leb_gt in H; lia.
Qed.

Lemma getOrders_valid (q : query) (db : Sql.database) :
  pagination_ok q = true ->
  getOrders q db =
    match build_where q with
    | inl r => r
    | inr (filters, params) =>
        let total := Sql.count filters params db in
        match Sql.select_page filters params (limit_of q) (offset_of q)
                              db with
        | Sql.AllError m => database_error m
        | Sql.AllRows rows =>
            mkResponse 200
              (Listing rows
                 (mkPagination (page_of q) (limit_of q) total
                    (Math_ceil_div total (limit_of q))
                    (page_of q <? Math_ceil_div total (limit_of q))
                    (page_of q >? 1)))
        end
    end.
Proof.
  unfold pagination_ok, getOrders, offset_of, page_of, limit_of.
  set (p := JS.or_default _ 1). set (l := JS.or_default _ 10).
  intros H.
  apply andb_true_iff in H. destruct H as [H Hg].
  apply andb_true_iff in H. destruct H as [Hp Hl].
  apply Z.leb_le in Hp, Hl, Hg.
  replace (p <? 1) with false by (symmetry; apply Z.ltb_ge; lia).
  replace (l <? 1) with false by (symmetry; apply Z.ltb_ge; lia).
  replace (l >? 100) with false
    by (symmetry; rewrite Z.gtb_ltb; apply Z.ltb_ge; lia).
  reflexivity.
Qed.



(** C1, on the code as it is: [GET /orders?page=0] is not rejected.  The
    value 0 read by [parseInt] is falsy, so [|| 1] replaces it before the
    test [page < 1] runs and the first page is served with status 200; in
    the same way [limit=0] is served with limit 10.  [limit=500] is
    rejected with the pagination error. *)
Theorem C1_page_zero_is_served (db : Sql.database) :
  (exists data pg,
      getOrders (Samples.paged (Some "0"%string) None) db
      = mkResponse 200 (Listing data pg)
      /\ page pg = 1 /\ limit pg = 10)
  /\ (exists data pg,
      getOrders (Samples.paged None (Some "0"%string)) db
      = mkResponse 200 (Listing data pg)
      /\ page pg = 1 /\ limit pg = 10)
  /\ getOrders (Samples.paged None (Some "500"%string)) db
     = invalid_pagination.
Proof.
  split; [|split].
  - eexists. eexists. split; [reflexivity|]. split; reflexivity.
  - eexists. eexists. split; [reflexivity|]. split; reflexivity.
  - reflexivity.
Qed.

Lemma pagination_ok_bounds (q : query) :
  pagination_ok q = true ->
  1 <= page_of q /\ 1 <= limit_of q <= 100.
Proof.
  unfold pagination_ok. rewrite !andb_true_iff, !Z.leb_le. lia.
Qed.

Lemma limit_is_int64 (l : Z) : 1 <= l <= 100 -> Sql.is_int64 l = true.
Proof.
  intros H. unfold Sql.is_int64. apply andb_true_iff.
  assert (100 < 2 ^ 63) by reflexivity.
  assert (- 2 ^ 63 < 0) by reflexivity.
  split; apply Z.ltb_lt; lia.
Qed.

Lemma select_page_rows (filters : list Sql.condition)
  (params : list Sql.sqlval) (l o : Z) (db : Sql.database) :
  Sql.is_int64 l = true -> Sql.is_int64 o = true ->
  Sql.select_page filters params l o db
  = Sql.AllRows
      (Sql.slice l o
         (Sql.order_by
            (filter (Sql.where_holds filters params) (Sql.rows db)))).
Proof.
  intros Hl Ho. unfold Sql.select_page, Sql.limit_offset.
  rewrite Hl, Ho. reflexivity.
Qed.

Lemma select_page_error (filters : list Sql.condition)
  (params : list Sql.sqlval) (l o : Z) (db : Sql.database) :
  Sql.is_int64 o = false ->
  Sql.select_page filters params l o db = Sql.AllError Sql.mismatch.
Proof.
  intros Ho. unfold Sql.select_page, Sql.limit_offset.
  rewrite Ho, andb_false_r. reflexivity.
Qed.



Lemma offset_of_int64 (q : query) :
  pagination_ok q = true -> (page_of q - 1) * limit_of q < 2 ^ 53 ->
  Sql.is_int64 (offset_of q) = true.
Proof.
  intros Hp H. destruct (pagination_ok_bounds q Hp) as [H1 [H2 _]].
  apply offset_at_int64; assumption.
Qed.

Lemma offset_of_exact (q : query) :
  pagination_ok q = true -> (page_of q - 1) * limit_of q < 2 ^ 53 ->
  offset_of q = (page_of q - 1) * limit_of q.
Proof.
  intros Hp H. destruct (pagination_ok_bounds q Hp) as [H1 [H2 _]].
  apply offset_at_exact; assumption.
Qed.




(** *** Creation *)

Lemma absent_fields_nil (b : fields) :
  absent_fields b = [] <->
  JS.falsy (customer_name b) || JS.falsy (product b)
  || JS.falsy (quantity b) || JS.falsy (amount b) || JS.falsy (status b)
  || JS.falsy (order_date b) = false.
Proof.
  unfold absent_fields, Sql.all_columns. simpl.
  destruct (JS.falsy (customer_name b)), (JS.falsy (product b)),
    (JS.falsy (quantity b)), (JS.falsy (amount b)), (JS.falsy (status b)),
    (JS.falsy (order_date b)); simpl; split; intros H;
    try reflexivity; discriminate H.
Qed.

Lemma absent_fields_required (b : fields) :
  incl (absent_fields b) required_fields.
Proof.
  unfold absent_fields. intros n Hn.
  apply in_map_iff in Hn. destruct Hn as [c [<- _]].
  destruct c; simpl; tauto.
Qed.

(** C7, as stated, fails: a body that lacks only [order_date] is answered
    with a list that also names [customer_name], which is there. *)
Lemma C7_names_present_fields_too :
  ~ (forall (b : fields) (now : string) (db : Sql.database),
        absent_fields b <> [] ->
        is_missing_fields (fst (createOrder b now db)) = true
        /\ (forall n, In n (named_fields (fst (createOrder b now db)))
                      <-> In n (absent_fields b))).
Proof.
  intros H.
  destruct (H Samples.undated Samples.now Sql.empty) as [_ Hn].
  - discriminate.
  - specialize (Hn "customer_name"%string). simpl in Hn.
    destruct Hn as [Hn _].
    destruct (Hn (or_introl eq_refl)) as [E|[]]. discriminate E.
Qed.

(** C7, amended: when one of the six required fields is absent or falsy,
    [createOrder] answers 400 "Missing required fields" and lists all six
    required field names, whichever are absent; every absent field is
    therefore among the names, and nothing is stored. *)
Theorem C7_missing_fields_lists_all_required
  (b : fields) (now : string) (db : Sql.database) :
  absent_fields b <> [] ->
  createOrder b now db
  = (mkResponse 400 (ErrorRequired "Missing required fields" required_fields),
     db)
  /\ is_missing_fields (fst (createOrder b now db)) = true
  /\ named_fields (fst (createOrder b now db)) = required_fields
  /\ incl (absent_fields b) (named_fields (fst (createOrder b now db))).
Proof.
  intros Ha.
  assert (E : createOrder b now db
              = (mkResponse 400
                   (ErrorRequired "Missing required fields" required_fields),
                 db)).
  { unfold createOrder.
    destruct (JS.falsy (customer_name b) || JS.falsy (product b)
              || JS.falsy (quantity b) || JS.falsy (amount b)
              || JS.falsy (status b) || JS.falsy (order_date b)) eqn:Hf.
    - reflexivity.
    - exfalso. apply Ha. apply absent_fields_nil. exact Hf. }
  rewrite E. simpl. repeat split.
  apply absent_fields_required.
Qed.

Lemma C7_missing_fields_lists_all_required_witness :
  named_fields (fst (createOrder Samples.undated Samples.now Sql.empty))
  = required_fields.
Proof.
  destruct (C7_missing_fields_lists_all_required
              Samples.undated Samples.now Sql.empty) as [_ [_ [H _]]].
  - discriminate.
  - exact H.
Defined.

(** *** Falsy values *)

Lemma falsy_truthy (v : JS.value) :
  JS.falsy v = true -> JS.truthy v = false.
Proof. unfold JS.falsy. destruct (JS.truthy v); [discriminate|reflexivity]. Qed.

Lemma le_zero_of_zero (q : Q) :
  Qeq_bool q 0 = true -> JS.le (JS.Fin q) JS.zero = true.
Proof.
  intros H. apply Qeq_bool_iff in H.
  unfold JS.le, JS.zero, JS.of_Z, JS.ordered. simpl.
  change (inject_Z 0) with 0%Q.
  apply Qeq_alt in H. rewrite H. reflexivity.
Qed.

(** A falsy value that is supplied, and is not NaN, is [<= 0]. *)
Lemma falsy_le_zero (v : JS.value) :
  JS.falsy v = true -> JS.is_undefined v = false -> v <> JS.Num JS.NaN ->
  JS.le_zero v = true.
Proof.
  intros Hf Hu Hn. apply falsy_truthy in Hf.
  destruct v as [| |b|n|s|s]; simpl in *; try discriminate.
  - reflexivity.
  - subst b. reflexivity.
  - destruct n as [| |q|]; simpl in *; try discriminate.
    + congruence.
    + apply negb_false_iff in Hf. apply le_zero_of_zero. exact Hf.
  - apply negb_false_iff in Hf. apply String.eqb_eq in Hf. subst s.
    reflexivity.
Qed.

(** *** Update *)

Lemma build_updates_columns (c : Sql.column) (b : fields) :
  In c (fst (build_updates b)) <-> JS.truthy (field c b) = true.
Proof.
  unfold build_updates, set_if.
  destruct (JS.truthy (customer_name b)) eqn:H1,
    (JS.truthy (product b)) eqn:H2, (JS.truthy (quantity b)) eqn:H3,
    (JS.truthy (amount b)) eqn:H4, (JS.truthy (status b)) eqn:H5,
    (JS.truthy (order_date b)) eqn:H6;
    destruct c; simpl; rewrite ?H1, ?H2, ?H3, ?H4, ?H5, ?H6;
    split; intros H; try reflexivity; try discriminate H;
    try tauto; simpl in H;
    repeat (destruct H as [H|H]; try discriminate H); try contradiction.
Qed.

Lemma update_statement_without (id : string) (b : fields) (c : Sql.column) :
  magnitude_column c = false -> JS.truthy (field c b) = false ->
  update_statement id (without c b) = update_statement id b.
Proof.
  intros Hm Hf. destruct b as [cn pr qt am st od].
  destruct c; simpl in Hm, Hf; try discriminate Hm;
    unfold update_statement, build_updates, set_if; simpl;
    rewrite Hf; reflexivity.
Qed.

Lemma update_statement_status (id : string) (b : fields) (r : response) :
  update_statement id b = inl r -> statusCode r = 400.
Proof.
  unfold update_statement.
  destruct (invalid_id id); [intros H; inversion H; reflexivity|].
  destruct (JS.truthy (status b) && _);
    [intros H; inversion H; reflexivity|].
  destruct (_ || _); [intros H; inversion H; reflexivity|].
  destruct (build_updates b) as [updates params].
  destruct (List.length updates =? 0)%nat; intros H; inversion H.
  reflexivity.
Qed.

Lemma update_statement_magnitude (id : string) (b : fields) (c : Sql.column) :
  magnitude_column c = true -> supplied c b = true ->
  JS.le_zero (field c b) = true ->
  exists r, update_statement id b = inl r
            /\ (invalid_id id = false ->
                (JS.truthy (status b) = true ->
                 JS.includes validStatuses (status b) = true) ->
                is_invalid_magnitude r = true).
Proof.
  intros Hm Hs Hl. unfold update_statement.
  destruct (invalid_id id).
  { eexists. split; [reflexivity|]. discriminate. }
  destruct (JS.truthy (status b)) eqn:Ht; simpl.
  - destruct (JS.includes validStatuses (status b)) eqn:Hi; simpl.
    + assert (E : (negb (JS.is_undefined (quantity b))
                   && JS.le_zero (quantity b))
                  || (negb (JS.is_undefined (amount b))
                      && JS.le_zero (amount b)) = true).
      { unfold supplied in Hs.
        destruct c; simpl in Hm, Hs, Hl; try discriminate Hm;
          rewrite Hs, Hl; simpl; auto using orb_true_r. }
      rewrite E. eexists. split; [reflexivity|]. reflexivity.
    + eexists. split; [reflexivity|]. intros _ H.
      specialize (H eq_refl). discriminate H.
  - assert (E : (negb (JS.is_undefined (quantity b))
                 && JS.le_zero (quantity b))
                || (negb (JS.is_undefined (amount b))
                    && JS.le_zero (amount b)) = true).
    { unfold supplied in Hs.
      destruct c; simpl in Hm, Hs, Hl; try discriminate Hm;
        rewrite Hs, Hl; simpl; auto using orb_true_r. }
    rewrite E. eexists. split; [reflexivity|]. reflexivity.
Qed.

(** C2, as stated, fails: [PUT /orders/1] with
    [{quantity: 0, status: "completed"}] is rejected with status 400,
    whereas the same request without the quantity updates the order. *)
Lemma C2_zero_quantity_is_rejected :
  ~ (forall (id : string) (b : fields) (db : Sql.database) (c : Sql.column),
        supplied c b = true -> JS.falsy (field c b) = true ->
        updateOrder id b db = updateOrder id (without c b) db).
Proof.
  intros H.
  specialize (H "1"%string Samples.zero_quantity Samples.db1 Sql.quantity
                eq_refl eq_refl).
  apply (f_equal (fun x => statusCode (fst x))) in H.
  vm_compute in H. discriminate H.
Qed.

(** C2, amended: on update, a supplied falsy value of [customer_name],
    [product], [status] or [order_date] is treated as absent: it sets no
    column and the request is handled as if the field were left out.  A
    supplied falsy value of [quantity] or [amount] (0, null, false or the
    empty string) is not skipped: the request is rejected with status 400
    and the table is unchanged, and the rejection is "Quantity and amount
    must be positive numbers" whenever the id and the status pass their
    checks. *)
Theorem C2_falsy_update_values
  (id : string) (b : fields) (db : Sql.database) (c : Sql.column) :
  supplied c b = true -> JS.falsy (field c b) = true ->
  (magnitude_column c = false ->
     updateOrder id b db = updateOrder id (without c b) db
     /\ ~ In c (fst (build_updates b)))
  /\ (magnitude_column c = true -> field c b <> JS.Num JS.NaN ->
     statusCode (fst (updateOrder id b db)) = 400
     /\ snd (updateOrder id b db) = db
     /\ (invalid_id id = false ->
         (JS.truthy (status b) = true ->
          JS.includes validStatuses (status b) = true) ->
         is_invalid_magnitude (fst (updateOrder id b db)) = true)).
Proof.
  intros Hs Hf. split.
  - intros Hm. split.
    + unfold updateOrder.
      rewrite (update_statement_without id b c Hm (falsy_truthy _ Hf)).
      reflexivity.
    + rewrite build_updates_columns, (falsy_truthy _ Hf). discriminate.
  - intros Hm Hn.
    assert (Hl : JS.le_zero (field c b) = true).
    { apply falsy_le_zero; [exact Hf| |exact Hn].
      unfold supplied in Hs. apply negb_true_iff in Hs. exact Hs. }
    destruct (update_statement_magnitude id b c Hm Hs Hl) as [r [E Hr]].
    unfold updateOrder. rewrite E. simpl.
    split; [exact (update_statement_status id b r E)|].
    split; [reflexivity|exact Hr].
Qed.

Lemma C2_falsy_update_values_witness :
  statusCode (fst (updateOrder "1" Samples.zero_quantity Samples.db1)) = 400
  /\ updateOrder "1" Samples.empty_name Samples.db1
     = updateOrder "1" (without Sql.customer_name Samples.empty_name)
                   Samples.db1.
Proof.
  split.
  - destruct (C2_falsy_update_values "1" Samples.zero_quantity Samples.db1
                Sql.quantity eq_refl eq_refl) as [_ H].
    destruct (H eq_refl) as [H400 _]; [discriminate|exact H400].
  - destruct (C2_falsy_update_values "1" Samples.empty_name Samples.db1
                Sql.customer_name eq_refl eq_refl) as [H _].
    exact (proj1 (H eq_refl)).
Defined.

(** *** What creation stores *)

Lemma bind_truthy (v : JS.value) :
  JS.truthy v = true -> Sql.is_null (Sql.bind v) = false.
Proof.
  destruct v as [| |b|n|s|s]; simpl; try discriminate; try reflexivity.
  destruct n; simpl; try discriminate; reflexivity.
Qed.

Lemma numeric_affinity_not_null (v : Sql.sqlval) :
  Sql.is_null v = false -> Sql.is_null (Sql.numeric_affinity v) = false.
Proof.
  destruct v as [|n|s]; simpl; try discriminate; try reflexivity.
  intros _. destruct (Sql.numeric_of_text s); reflexivity.
Qed.

Lemma affinity_not_null (c : Sql.column) (v : Sql.sqlval) :
  Sql.is_null v = false -> Sql.is_null (Sql.affinity c v) = false.
Proof.
  intros H. destruct c; simpl;
    try (apply numeric_affinity_not_null; exact H);
    destruct v; try discriminate; reflexivity.
Qed.

Lemma includes_check_status (v : JS.value) :
  JS.includes validStatuses v = true ->
  Sql.check_status (Sql.affinity Sql.status (Sql.bind v)) = true.
Proof.
  destruct v as [| |b|n|s|s]; simpl; try discriminate. exact (fun H => H).
Qed.

(** A string with a value that is truthy is stored as it is in a TEXT
    column. *)
Lemma text_affinity_string (s : string) :
  Sql.text_affinity (Sql.bind (JS.Str s)) = Sql.SText s.
Proof. reflexivity. Qed.






Lemma create_accepts_true (b : fields) :
  create_accepts b = true ->
  (JS.truthy (customer_name b) = true /\ JS.truthy (product b) = true
   /\ JS.truthy (quantity b) = true /\ JS.truthy (amount b) = true
   /\ JS.truthy (status b) = true /\ JS.truthy (order_date b) = true)
  /\ JS.includes validStatuses (status b) = true
  /\ JS.le_zero (quantity b) = false /\ JS.le_zero (amount b) = false.
Proof.
  unfold create_accepts, Sql.all_columns. simpl.
  rewrite !andb_true_iff, !negb_true_iff. tauto.
Qed.

Lemma create_accepts_constraints (b : fields) (now : string)
  (db : Sql.database) :
  create_accepts b = true -> Sql.constraints_ok (stored_row b now db) = true.
Proof.
  intros H. apply create_accepts_true in H.
  destruct H as [[H1 [H2 [H3 [H4 [H5 H6]]]]] [Hi _]].
  unfold Sql.constraints_ok, Sql.all_columns, stored_row.
  cbn [forallb Sql.get Sql.o_customer_name Sql.o_product Sql.o_quantity
       Sql.o_amount Sql.o_status Sql.o_order_date].
  rewrite !affinity_not_null by (apply bind_truthy; assumption).
  simpl. apply includes_check_status. assumption.
Qed.

Lemma createOrder_accepts (b : fields) (now : string) (db : Sql.database) :
  create_accepts b = true ->
  createOrder b now db
  = (mkResponse 201
       (OrderCreated (Sql.next_id db) b "Order created successfully"),
     Sql.mkDatabase (Sql.rows db ++ [stored_row b now db]) (Sql.next_id db)).
Proof.
  intros Ha. pose proof (create_accepts_constraints b now db Ha) as Hc.
  apply create_accepts_true in Ha.
  destruct Ha as [[H1 [H2 [H3 [H4 [H5 H6]]]]] [Hi [Hq Ha]]].
  unfold createOrder, JS.falsy.
  rewrite H1, H2, H3, H4, H5, H6, Hi, Hq, Ha.
  cbn [negb orb map Sql.run_insert].
  unfold stored_row in Hc. rewrite Hc. reflexivity.
Qed.

Lemma createOrder_rejects (b : fields) (now : string) (db : Sql.database) :
  create_accepts b = false ->
  statusCode (fst (createOrder b now db)) = 400
  /\ snd (createOrder b now db) = db.
Proof.
  unfold create_accepts, Sql.all_columns, createOrder, JS.falsy. simpl.
  destruct (JS.truthy (customer_name b)), (JS.truthy (product b)),
    (JS.truthy (quantity b)), (JS.truthy (amount b)),
    (JS.truthy (status b)), (JS.truthy (order_date b)); simpl;
    try (intros _; split; reflexivity).
  destruct (JS.includes validStatuses (status b)); simpl;
    try (intros _; split; reflexivity).
  destruct (JS.le_zero (quantity b)); simpl;
    try (intros _; split; reflexivity).
  destruct (JS.le_zero (amount b)); simpl;
    try (intros _; split; reflexivity).
  discriminate.
Qed.






(** What the table makes of values of another type: the number 123 sent
    as customer_name is stored as the text "123", an array as the fixed
    text of the driver, a quantity sent as the string "abc" as that
    text, an amount sent as the string "2.50" as the number 2.5 and the
    number 1.5 sent as order_date as the text "1.5". *)
Example createOrder_converts :
  let b := Samples.mixed in
  let o := stored_row b Samples.now Sql.empty in
  createOrder b Samples.now Sql.empty
  = (mkResponse 201 (OrderCreated 1 b "Order created successfully"),
     Sql.mkDatabase [o] 1)
  /\ Sql.o_customer_name o = Sql.SText "123"
  /\ Sql.o_product o = Sql.SText "[object Object]"
  /\ Sql.o_quantity o = Sql.SText "abc"
  /\ Sql.compare (Sql.o_amount o) (Sql.SNum (JS.Fin (5 # 2))) = Eq
  /\ Sql.o_order_date o = Sql.SText "1.5".
Proof. repeat split. Qed.

(** *** Not found *)

Section NoRow.

Variable A : Type.
Variable f : A -> bool.

Lemma filter_nil_none (l : list A) :
  filter f l = [] -> forall x, In x l -> f x = false.
Proof.
  intros H x Hx. destruct (f x) eqn:Hf; [|reflexivity].
  assert (Hin : In x (filter f l)) by (apply filter_In; auto).
  rewrite H in Hin. destruct Hin.
Qed.

Lemma filter_nil_keeps (l : list A) :
  filter f l = [] -> filter (fun x => negb (f x)) l = l.
Proof.
  induction l as [|a l IH]; simpl; [reflexivity|].
  destruct (f a) eqn:Hf; [discriminate|].
  intros H. simpl. rewrite (IH H). reflexivity.
Qed.

Lemma filter_nil_map (g : A -> A) (l : list A) :
  filter f l = [] -> map (fun x => if f x then g x else x) l = l.
Proof.
  induction l as [|a l IH]; simpl; [reflexivity|].
  destruct (f a) eqn:Hf; [discriminate|].
  intros H. rewrite (IH H). reflexivity.
Qed.

Lemma filter_filter_negb (l : list A) :
  filter f (filter (fun x => negb (f x)) l) = [].
Proof.
  induction l as [|a l IH]; simpl; [reflexivity|].
  destruct (f a) eqn:Hf; simpl; [exact IH|].
  rewrite Hf. exact IH.
Qed.

End NoRow.

Lemma length_zero_nil (A : Type) (l : list A) :
  Z.of_nat (List.length l) = 0 -> l = [].
Proof. destruct l; [reflexivity|simpl; lia]. Qed.

Lemma run_delete_changes (id : string) (db : Sql.database) :
  Sql.changes_of (Sql.run_delete [Sql.SText id] db)
  = Some (rows_with_id id db).
Proof. reflexivity. Qed.

Lemma deleteOrder_no_row (id : string) (db : Sql.database) :
  invalid_id id = false -> rows_with_id id db = 0 ->
  deleteOrder id db = (not_found, db).
Proof.
  intros Hid H0. unfold deleteOrder. rewrite Hid. simpl.
  unfold rows_with_id in H0. rewrite H0. simpl.
  apply length_zero_nil in H0.
  rewrite (filter_nil_keeps _ _ _ H0). destruct db; reflexivity.
Qed.

Lemma deleteOrder_some_row (id : string) (db : Sql.database) :
  invalid_id id = false -> rows_with_id id db <> 0 ->
  deleteOrder id db
  = (mkResponse 200 (Message "Order deleted successfully" id),
     Sql.mkDatabase
       (filter (fun r => negb (Sql.id_is (Sql.SText id) r)) (Sql.rows db))
       (Sql.sequence db)).
Proof.
  intros Hid H0. unfold deleteOrder. rewrite Hid. simpl.
  unfold rows_with_id in H0. apply Z.eqb_neq in H0. rewrite H0.
  reflexivity.
Qed.

Lemma build_updates_length (b : fields) :
  List.length (snd (build_updates b)) = List.length (fst (build_updates b)).
Proof.
  unfold build_updates, set_if.
  destruct (JS.truthy (customer_name b)), (JS.truthy (product b)),
    (JS.truthy (quantity b)), (JS.truthy (amount b)),
    (JS.truthy (status b)), (JS.truthy (order_date b)); reflexivity.
Qed.

(** The statement [updateOrder] issues ends with the id and has as many
    values as columns. *)
Lemma update_statement_shape (id : string) (b : fields)
  (updates : list Sql.column) (params : list Sql.sqlval) :
  update_statement id b = inr (updates, params) ->
  updates = fst (build_updates b)
  /\ params = snd (build_updates b) ++ [Sql.SText id].
Proof.
  unfold update_statement.
  destruct (invalid_id id); [discriminate|].
  destruct (JS.truthy (status b) && _); [discriminate|].
  destruct (_ || _); [discriminate|].
  destruct (build_updates b) as [u p].
  destruct (List.length u =? 0)%nat; [discriminate|].
  intros H. inversion H. split; reflexivity.
Qed.

Lemma run_update_changes (id : string) (b : fields)
  (updates : list Sql.column) (params : list Sql.sqlval)
  (db : Sql.database) (k : Z) :
  update_statement id b = inr (updates, params) ->
  Sql.changes_of (Sql.run_update updates params db) = Some k ->
  k = rows_with_id id db.
Proof.
  intros Hs. apply update_statement_shape in Hs. destruct Hs as [-> ->].
  unfold Sql.run_update, Sql.split_last.
  rewrite removelast_last, last_last, build_updates_length, Nat.eqb_refl.
  simpl. destruct (forallb _ _); simpl; intros H; inversion H. reflexivity.
Qed.

Lemma run_update_no_row (id : string) (b : fields)
  (updates : list Sql.column) (params : list Sql.sqlval)
  (db : Sql.database) (i k : Z) (db' : Sql.database) :
  update_statement id b = inr (updates, params) ->
  Sql.run_update updates params db = Sql.RunDone i k db' ->
  k = 0 -> db' = db.
Proof.
  intros Hs Hr Hk.
  assert (Hc : Sql.changes_of (Sql.run_update updates params db) = Some k)
    by (rewrite Hr; reflexivity).
  pose proof (run_update_changes id b updates params db k Hs Hc) as Hn.
  apply update_statement_shape in Hs. destruct Hs as [-> ->].
  unfold Sql.run_update, Sql.split_last in Hr.
  rewrite removelast_last, last_last, build_updates_length, Nat.eqb_refl
    in Hr.
  simpl in Hr. destruct (forallb _ _); [|discriminate].
  rewrite Hk in Hn. symmetry in Hn. unfold rows_with_id in Hn.
  apply length_zero_nil in Hn.
  rewrite (filter_nil_map _ _ _ _ Hn) in Hr.
  inversion Hr. destruct db; reflexivity.
Qed.

Lemma delete_times_no_row (id : string) (db : Sql.database) (n : nat) :
  invalid_id id = false -> rows_with_id id db = 0 ->
  delete_times n id db = (repeat not_found n, db).
Proof.
  intros Hid H0. induction n as [|n IH]; simpl; [reflexivity|].
  rewrite (deleteOrder_no_row id db Hid H0), IH. reflexivity.
Qed.

(** C6: with a numeric id, [deleteOrder] and [updateOrder] answer 404
    "Order not found" exactly when their statement ran and changed no
    row, that is when no row has the id; the table is then unchanged.
    Deleting an id that no row has answers 404 however many times it is
    repeated, and so does deleting again an id that was just deleted. *)
Theorem C6_not_found_iff_no_row_changed
  (id : string) (b : fields) (db : Sql.database) :
  invalid_id id = false ->
  (statusCode (fst (deleteOrder id db)) = 404
   <-> Sql.changes_of (Sql.run_delete [Sql.SText id] db) = Some 0)
  /\ (statusCode (fst (deleteOrder id db)) = 404 ->
      deleteOrder id db = (not_found, db))
  /\ (statusCode (fst (updateOrder id b db)) = 404
      <-> exists updates params,
            update_statement id b = inr (updates, params)
            /\ Sql.changes_of (Sql.run_update updates params db) = Some 0)
  /\ (statusCode (fst (updateOrder id b db)) = 404 ->
      updateOrder id b db = (not_found, db) /\ rows_with_id id db = 0)
  /\ (rows_with_id id db = 0 ->
      forall n, delete_times n id db = (repeat not_found n, db))
  /\ fst (deleteOrder id (snd (deleteOrder id db))) = not_found.
Proof.
  intros Hid.
  assert (Hdel : statusCode (fst (deleteOrder id db)) = 404
                 <-> rows_with_id id db = 0).
  { destruct (Z.eq_dec (rows_with_id id db) 0) as [H0|H0].
    - rewrite (deleteOrder_no_row id db Hid H0). simpl. tauto.
    - rewrite (deleteOrder_some_row id db Hid H0). simpl.
      split; [discriminate|contradiction]. }
  split; [|split; [|split; [|split; [|split]]]].
  - rewrite Hdel, run_delete_changes. split; congruence.
  - intros H. apply Hdel in H. exact (deleteOrder_no_row id db Hid H).
  - unfold updateOrder. split.
    + destruct (update_statement id b) as [r|[updates params]] eqn:Hs.
      * simpl. intros H.
        rewrite (update_statement_status id b r Hs) in H. discriminate H.
      * intros H. exists updates, params. split; [reflexivity|].
        destruct (Sql.run_update updates params db) as [m|i k db'];
          [simpl in H; discriminate H|].
        simpl. destruct (k =? 0) eqn:Hk; [|simpl in H; discriminate H].
        apply Z.eqb_eq in Hk. congruence.
    + intros [updates [params [Hs Hc]]]. rewrite Hs.
      destruct (Sql.run_update updates params db) as [m|i k db'];
        [discriminate Hc|].
      simpl in Hc. inversion Hc. reflexivity.
  - unfold updateOrder.
    destruct (update_statement id b) as [r|[updates params]] eqn:Hs.
    + simpl. intros H.
      rewrite (update_statement_status id b r Hs) in H. discriminate H.
    + destruct (Sql.run_update updates params db) as [m|i k db'] eqn:Hr;
        [simpl; discriminate|].
      destruct (k =? 0) eqn:Hk; [|simpl; discriminate].
      apply Z.eqb_eq in Hk. intros _.
      rewrite (run_update_no_row id b updates params db i k db' Hs Hr Hk).
      split; [reflexivity|].
      symmetry. rewrite <- Hk.
      apply (run_update_changes id b updates params db k Hs).
      rewrite Hr. reflexivity.
  - intros H0 n. exact (delete_times_no_row id db n Hid H0).
  - assert (H0 : rows_with_id id (snd (deleteOrder id db)) = 0).
    { destruct (Z.eq_dec (rows_with_id id db) 0) as [H0|H0].
      - rewrite (deleteOrder_no_row id db Hid H0). exact H0.
      - rewrite (deleteOrder_some_row id db Hid H0). simpl.
        unfold rows_with_id. simpl. rewrite filter_filter_negb.
        reflexivity. }
    rewrite (deleteOrder_no_row id _ Hid H0). reflexivity.
Qed.

Lemma C6_not_found_iff_no_row_changed_witness :
  delete_times 3 "99999" Samples.db2
  = ([not_found; not_found; not_found], Samples.db2)
  /\ fst (deleteOrder "2" (snd (deleteOrder "2" Samples.db2))) = not_found.
Proof.
  destruct (C6_not_found_iff_no_row_changed "99999" Samples.nothing
              Samples.db2 eq_refl) as [_ [_ [_ [_ [H _]]]]].
  destruct (C6_not_found_iff_no_row_changed "2" Samples.nothing
              Samples.db2 eq_refl) as [_ [_ [_ [_ [_ H2]]]]].
  split; [exact (H eq_refl 3%nat)|exact H2].
Defined.

(** *** The order of a listing *)

Lemma number_cmp_antisym (x y : JS.number) :
  JS.cmp x y = CompOpp (JS.cmp y x).
Proof.
  destruct x, y; simpl; try reflexivity.
  rewrite <- Qcompare_antisym. destruct (q0 ?= q)%Q; reflexivity.
Qed.

Lemma number_cmp_eq_l (x y z : JS.number) :
  JS.cmp x y = Eq -> JS.cmp x z = JS.cmp y z.
Proof.
  destruct x, y; simpl; try discriminate; try reflexivity.
  intros H. apply Qeq_alt in H.
  destruct z; simpl; try reflexivity. rewrite H. reflexivity.
Qed.

Lemma number_cmp_lt_trans (x y z : JS.number) :
  JS.cmp x y = Lt -> JS.cmp y z = Lt -> JS.cmp x z = Lt.
Proof.
  destruct x, y, z; simpl; try discriminate; try reflexivity.
  intros H1 H2. apply Qlt_alt in H1, H2. apply Qlt_alt.
  exact (Qlt_trans _ _ _ H1 H2).
Qed.

Lemma string_compare_lt_trans (s t u : string) :
  String.compare s t = Lt -> String.compare t u = Lt ->
  String.compare s u = Lt.
Proof.
  intros H1 H2.
  apply String_as_OT.cmp_lt in H1. apply String_as_OT.cmp_lt in H2.
  apply String_as_OT.cmp_lt.
  exact (String_as_OT.lt_trans _ _ _ H1 H2).
Qed.

Lemma compare_antisym (a b : Sql.sqlval) :
  Sql.compare a b = CompOpp (Sql.compare b a).
Proof.
  destruct a, b; simpl; try reflexivity.
  - apply number_cmp_antisym.
  - apply String.compare_antisym.
Qed.

Lemma compare_eq_l (a b c : Sql.sqlval) :
  Sql.compare a b = Eq -> Sql.compare a c = Sql.compare b c.
Proof.
  destruct a, b; simpl; try discriminate; try reflexivity.
  - intros H. destruct c; simpl; try reflexivity.
    apply number_cmp_eq_l. exact H.
  - intros H. apply String.compare_eq_iff in H. subst. reflexivity.
Qed.

Lemma compare_eq_r (a b c : Sql.sqlval) :
  Sql.compare b c = Eq -> Sql.compare a c = Sql.compare a b.
Proof.
  intros H.
  rewrite (compare_antisym a c), (compare_antisym a b). f_equal.
  symmetry. apply compare_eq_l. exact H.
Qed.

Lemma compare_lt_trans (a b c : Sql.sqlval) :
  Sql.compare a b = Lt -> Sql.compare b c = Lt -> Sql.compare a c = Lt.
Proof.
  destruct a, b, c; simpl; try discriminate; try reflexivity.
  - apply number_cmp_lt_trans.
  - apply string_compare_lt_trans.
Qed.

Lemma compare_gt_trans (a b c : Sql.sqlval) :
  Sql.compare a b = Gt -> Sql.compare b c = Gt -> Sql.compare a c = Gt.
Proof.
  intros H1 H2.
  rewrite compare_antisym in H1, H2 |- *.
  destruct (Sql.compare b a) eqn:E1; try discriminate H1.
  destruct (Sql.compare c b) eqn:E2; try discriminate H2.
  rewrite (compare_lt_trans c b a E2 E1). reflexivity.
Qed.

Lemma precedes_listed_before (a b : Sql.order) :
  Sql.precedes a b = true <-> listed_before a b.
Proof.
  unfold Sql.precedes, listed_before.
  destruct (Sql.compare (Sql.o_order_date a) (Sql.o_order_date b)).
  - rewrite Z.leb_le. split; [intros H; right; auto|].
    intros [H|[_ H]]; [discriminate H|exact H].
  - split; [discriminate|]. intros [H|[H _]]; discriminate H.
  - split; [auto|reflexivity].
Qed.

Lemma listed_before_total (a b : Sql.order) :
  listed_before a b \/ listed_before b a.
Proof.
  unfold listed_before.
  rewrite (compare_antisym (Sql.o_order_date b) (Sql.o_order_date a)).
  destruct (Sql.compare (Sql.o_order_date a) (Sql.o_order_date b)); simpl.
  - destruct (Z.le_ge_cases (Sql.id a) (Sql.id b)); [right|left]; auto.
  - right. left. reflexivity.
  - left. left. reflexivity.
Qed.

Lemma listed_before_trans (a b c : Sql.order) :
  listed_before a b -> listed_before b c -> listed_before a c.
Proof.
  unfold listed_before. intros [H1|[H1 I1]] [H2|[H2 I2]].
  - left. exact (compare_gt_trans _ _ _ H1 H2).
  - left. rewrite (compare_eq_r _ _ _ H2). exact H1.
  - left. rewrite (compare_eq_l _ _ _ H1). exact H2.
  - right. split; [|lia]. rewrite (compare_eq_l _ _ _ H1). exact H2.
Qed.

Lemma listed_before_antisym (a b : Sql.order) :
  listed_before a b -> listed_before b a -> Sql.id a = Sql.id b.
Proof.
  unfold listed_before.
  rewrite (compare_antisym (Sql.o_order_date b) (Sql.o_order_date a)).
  destruct (Sql.compare (Sql.o_order_date a) (Sql.o_order_date b)); simpl;
    intros [H1|[H1 I1]] [H2|[H2 I2]]; try discriminate. lia.
Qed.

Lemma insert_sorted_perm (a : Sql.order) (l : list Sql.order) :
  Permutation (Sql.insert_sorted a l) (a :: l).
Proof.
  induction l as [|b l IH]; simpl; [apply Permutation_refl|].
  destruct (Sql.precedes a b); [apply Permutation_refl|].
  apply Permutation_trans with (b :: a :: l).
  - apply perm_skip. exact IH.
  - apply perm_swap.
Qed.

Lemma order_by_perm (l : list Sql.order) : Permutation (Sql.order_by l) l.
Proof.
  induction l as [|a l IH]; simpl; [apply perm_nil|].
  apply Permutation_trans with (a :: Sql.order_by l).
  - apply insert_sorted_perm.
  - apply perm_skip. exact IH.
Qed.

Lemma insert_sorted_sorted (a : Sql.order) (l : list Sql.order) :
  StronglySorted listed_before l ->
  StronglySorted listed_before (Sql.insert_sorted a l).
Proof.
  induction l as [|b l IH]; simpl; intros Hs.
  - constructor; [constructor|constructor].
  - destruct (Sql.precedes a b) eqn:Hp.
    + apply precedes_listed_before in Hp.
      constructor; [exact Hs|]. constructor; [exact Hp|].
      apply StronglySorted_inv in Hs. destruct Hs as [_ Hb].
      apply Forall_impl with (P := listed_before b); [|exact Hb].
      intros c Hc. exact (listed_before_trans a b c Hp Hc).
    + apply StronglySorted_inv in Hs. destruct Hs as [Hl Hb].
      constructor; [exact (IH Hl)|].
      assert (Hba : listed_before b a).
      { destruct (listed_before_total a b) as [H|H]; [|exact H].
        apply precedes_listed_before in H. congruence. }
      apply Forall_forall. intros c Hc.
      apply (Permutation_in c (insert_sorted_perm a l)) in Hc.
      destruct Hc as [<-|Hc]; [exact Hba|].
      rewrite Forall_forall in Hb. exact (Hb c Hc).
Qed.

Lemma order_by_sorted (l : list Sql.order) :
  StronglySorted listed_before (Sql.order_by l).
Proof.
  induction l as [|a l IH]; simpl; [constructor|].
  apply insert_sorted_sorted. exact IH.
Qed.

(** *** The WHERE clause *)

Lemma builder_nil (w : builder) (cs : list (Sql.condition * Sql.sqlval)) :
  cs = [] -> w = (fst w ++ map fst cs, snd w ++ map snd cs).
Proof. intros ->. simpl. rewrite !app_nil_r. destruct w; reflexivity. Qed.

Lemma filter_status_inr (q : query) (w w' : builder) :
  filter_status q w = inr w' ->
  let cs := conjunct_of Sql.status Sql.OpEq Sql.SText (q_status q) in
  w' = (fst w ++ map fst cs, snd w ++ map snd cs).
Proof.
  unfold filter_status, conjunct_of, push.
  destruct (given (q_status q)) as [s|].
  - destruct (negb _); [discriminate|]. intros H. inversion H. reflexivity.
  - intros H. inversion H. subst. apply builder_nil. reflexivity.
Qed.

Lemma bind_amount (n : JS.number) :
  JS.isNaN_number n = false -> Sql.bind (JS.Num n) = Sql.SNum n.
Proof. destruct n; simpl; [discriminate| | |]; reflexivity. Qed.

Lemma filter_minAmount_inr (q : query) (w w' : builder) :
  filter_minAmount q w = inr w' ->
  let cs := conjunct_of Sql.amount Sql.OpGe amount_bound (q_minAmount q) in
  w' = (fst w ++ map fst cs, snd w ++ map snd cs).
Proof.
  unfold filter_minAmount, conjunct_of, push, amount_bound.
  destruct (given (q_minAmount q)) as [s|].
  - destruct (JS.isNaN_number (JS.parseFloat s)) eqn:Hn; [discriminate|].
    rewrite orb_false_l. destruct (JS.lt _ _); [discriminate|].
    rewrite (bind_amount _ Hn). intros H. inversion H. reflexivity.
  - intros H. inversion H. subst. apply builder_nil. reflexivity.
Qed.

Lemma filter_maxAmount_inr (q : query) (w w' : builder) :
  filter_maxAmount q w = inr w' ->
  let cs := conjunct_of Sql.amount Sql.OpLe amount_bound (q_maxAmount q) in
  w' = (fst w ++ map fst cs, snd w ++ map snd cs).
Proof.
  unfold filter_maxAmount, conjunct_of, push, amount_bound.
  destruct (given (q_maxAmount q)) as [s|].
  - destruct (JS.isNaN_number (JS.parseFloat s)) eqn:Hn; [discriminate|].
    rewrite orb_false_l. destruct (JS.lt _ _); [discriminate|].
    rewrite (bind_amount _ Hn). intros H. inversion H. reflexivity.
  - intros H. inversion H. subst. apply builder_nil. reflexivity.
Qed.

Lemma filter_startDate_inr (q : query) (w w' : builder) :
  filter_startDate q w = inr w' ->
  let cs := conjunct_of Sql.order_date Sql.OpGe Sql.SText (q_startDate q) in
  w' = (fst w ++ map fst cs, snd w ++ map snd cs).
Proof.
  unfold filter_startDate, conjunct_of, push.
  destruct (given (q_startDate q)) as [s|]; intros H; inversion H.
  - reflexivity.
  - subst. apply builder_nil. reflexivity.
Qed.

Lemma filter_endDate_inr (q : query) (w w' : builder) :
  filter_endDate q w = inr w' ->
  let cs := conjunct_of Sql.order_date Sql.OpLe Sql.SText (q_endDate q) in
  w' = (fst w ++ map fst cs, snd w ++ map snd cs).
Proof.
  unfold filter_endDate, conjunct_of, push.
  destruct (given (q_endDate q)) as [s|]; intros H; inversion H.
  - reflexivity.
  - subst. apply builder_nil. reflexivity.
Qed.

(** The arrays [filters] and [params] hold the conjuncts of the request,
    in order. *)
Lemma build_where_conjuncts (q : query) (w : builder) :
  build_where q = inr w ->
  w = (map fst (conjuncts q), map snd (conjuncts q)).
Proof.
  unfold build_where, bind_step.
  destruct (filter_status q ([], [])) as [r|w1] eqn:H1; [discriminate|].
  destruct (filter_minAmount q w1) as [r|w2] eqn:H2; [discriminate|].
  destruct (filter_maxAmount q w2) as [r|w3] eqn:H3; [discriminate|].
  destruct (filter_startDate q w3) as [r|w4] eqn:H4; [discriminate|].
  intros H5.
  apply filter_status_inr in H1. apply filter_minAmount_inr in H2.
  apply filter_maxAmount_inr in H3. apply filter_startDate_inr in H4.
  apply filter_endDate_inr in H5. simpl in *.
  subst w1 w2 w3 w4 w. simpl. unfold conjuncts.
  rewrite !map_app, !app_assoc. reflexivity.
Qed.

Lemma build_where_status (q : query) (r : response) :
  build_where q = inl r -> statusCode r = 400.
Proof.
  unfold build_where, bind_step, filter_status, filter_minAmount,
    filter_maxAmount, filter_startDate, filter_endDate.
  repeat match goal with
         | |- context [match given ?v with _ => _ end] => destruct (given v)
         | |- context [if ?c then _ else _] => destruct c
         end;
    intros H; inversion H; subst; reflexivity.
Qed.

Lemma conjuncts_length (q : query) :
  List.length (conjuncts q) = given_count q.
Proof.
  unfold conjuncts, given_count, conjunct_of. simpl.
  destruct (given (q_status q)), (given (q_minAmount q)),
    (given (q_maxAmount q)), (given (q_startDate q)),
    (given (q_endDate q)); reflexivity.
Qed.

Lemma combine_fst_snd (A B : Type) (l : list (A * B)) :
  combine (map fst l) (map snd l) = l.
Proof.
  induction l as [|[a b] l IH]; simpl; [reflexivity|].
  rewrite IH. reflexivity.
Qed.

Lemma where_holds_satisfies (cs : list (Sql.condition * Sql.sqlval))
  (r : Sql.order) :
  Sql.where_holds (map fst cs) (map snd cs) r = satisfies cs r.
Proof.
  unfold Sql.where_holds, satisfies. rewrite combine_fst_snd. reflexivity.
Qed.

(** The answer to a request that passes validation. *)
Lemma getOrders_answer (q : query) (db : Sql.database) :
  valid_request q = true ->
  getOrders q db
  = if Sql.is_int64 (offset_of q)
    then mkResponse 200
           (Listing
              (Sql.slice (limit_of q) (offset_of q)
                 (Sql.order_by (matching q db)))
              (mkPagination (page_of q) (limit_of q) (total_of q db)
                 (Math_ceil_div (total_of q db) (limit_of q))
                 (page_of q <? Math_ceil_div (total_of q db) (limit_of q))
                 (page_of q >? 1)))
    else database_error Sql.mismatch.
Proof.
  unfold valid_request, filters_ok. intros H.
  apply andb_true_iff in H. destruct H as [Hp Hf].
  rewrite (getOrders_valid q db Hp).
  destruct (build_where q) as [r|w] eqn:Hw; [discriminate|].
  rewrite (build_where_conjuncts q w Hw). cbv zeta.
  destruct (Sql.is_int64 (offset_of q)) eqn:Ho.
  - rewrite select_page_rows;
      [|apply limit_is_int64, (pagination_ok_bounds q Hp)|exact Ho].
    unfold Sql.count, total_of, matching.
    rewrite (filter_ext _ _ (where_holds_satisfies (conjuncts q))).
    reflexivity.
  - rewrite select_page_error by exact Ho. reflexivity.
Qed.

Lemma getOrders_listing (q : query) (db : Sql.database) :
  valid_request q = true -> Sql.is_int64 (offset_of q) = true ->
  getOrders q db
  = mkResponse 200
      (Listing
         (Sql.slice (limit_of q) (offset_of q)
            (Sql.order_by (matching q db)))
         (mkPagination (page_of q) (limit_of q) (total_of q db)
            (Math_ceil_div (total_of q db) (limit_of q))
            (page_of q <? Math_ceil_div (total_of q db) (limit_of q))
            (page_of q >? 1))).
Proof.
  intros Hv Ho. rewrite (getOrders_answer q db Hv), Ho. reflexivity.
Qed.

Lemma getOrders_ok_valid (q : query) (db : Sql.database) :
  statusCode (getOrders q db) = 200 ->
  valid_request q = true /\ Sql.is_int64 (offset_of q) = true.
Proof.
  intros H.
  assert (Hv : valid_request q = true).
  { unfold valid_request, filters_ok.
    destruct (pagination_ok q) eqn:Hp.
    - rewrite (getOrders_valid q db Hp) in H.
      destruct (build_where q) as [r|w] eqn:Hw; [|reflexivity].
      rewrite (build_where_status q r Hw) in H. discriminate H.
    - rewrite (getOrders_pagination q db Hp) in H. discriminate H. }
  split; [exact Hv|].
  rewrite (getOrders_answer q db Hv) in H.
  destruct (Sql.is_int64 (offset_of q)); [reflexivity|discriminate H].
Qed.


(** *** Pages *)

Section Slices.

Variable A : Type.

Lemma firstn_incl (n : nat) (l : list A) (x : A) :
  In x (firstn n l) -> In x l.
Proof.
  intros H. rewrite <- (firstn_skipn n l). apply in_or_app. left. exact H.
Qed.

Lemma skipn_incl (n : nat) (l : list A) (x : A) :
  In x (skipn n l) -> In x l.
Proof.
  intros H. rewrite <- (firstn_skipn n l). apply in_or_app. right. exact H.
Qed.

Variable R : A -> A -> Prop.

Lemma skipn_sorted (n : nat) (l : list A) :
  StronglySorted R l -> StronglySorted R (skipn n l).
Proof.
  revert l. induction n as [|n IH]; intros l Hs; [exact Hs|].
  destruct l as [|a l]; [exact Hs|]. simpl.
  apply IH. apply StronglySorted_inv in Hs. tauto.
Qed.

Lemma firstn_sorted (n : nat) (l : list A) :
  StronglySorted R l -> StronglySorted R (firstn n l).
Proof.
  revert n. induction l as [|a l IH]; intros n Hs.
  - rewrite firstn_nil. constructor.
  - destruct n as [|n]; simpl; [constructor|].
    apply StronglySorted_inv in Hs. destruct Hs as [Hl Ha].
    constructor; [apply IH; exact Hl|].
    apply Forall_forall. intros x Hx. rewrite Forall_forall in Ha.
    apply Ha. exact (firstn_incl n l x Hx).
Qed.

Lemma sorted_positions (l : list A) :
  StronglySorted R l ->
  forall (i j : nat) (a b : A),
    (i < j)%nat -> nth_error l i = Some a -> nth_error l j = Some b ->
    R a b.
Proof.
  induction 1 as [|x l Hl IH Hx]; intros i j a b Hij Hi Hj.
  - destruct i; discriminate Hi.
  - destruct j as [|j]; [lia|]. simpl in Hj.
    destruct i as [|i]; simpl in Hi.
    + inversion Hi. subst x. rewrite Forall_forall in Hx.
      apply Hx. exact (nth_error_In l j Hj).
    + apply (IH i j a b); [lia|exact Hi|exact Hj].
Qed.

End Slices.

Lemma slice_valid (limit offset : Z) (l : list Sql.order) :
  1 <= limit ->
  Sql.slice limit offset l
  = firstn (Z.to_nat limit) (skipn (Z.to_nat offset) l).
Proof.
  intros H. unfold Sql.slice.
  replace (limit <? 0) with false by (symmetry; apply Z.ltb_ge; lia).
  reflexivity.
Qed.

Lemma slice_incl (limit offset : Z) (l : list Sql.order)
  (x : Sql.order) :
  In x (Sql.slice limit offset l) -> In x l.
Proof.
  unfold Sql.slice. destruct (limit <? 0); intros H.
  - exact (skipn_incl _ _ _ _ H).
  - exact (skipn_incl _ _ _ _ (firstn_incl _ _ _ _ H)).
Qed.

Lemma slice_sorted (limit offset : Z) (l : list Sql.order) :
  StronglySorted listed_before l ->
  StronglySorted listed_before (Sql.slice limit offset l).
Proof.
  unfold Sql.slice. intros H. destruct (limit <? 0).
  - apply skipn_sorted. exact H.
  - apply firstn_sorted. apply skipn_sorted. exact H.
Qed.

Lemma ceil_div_is_ceiling (a b : Z) :
  0 < b -> is_ceiling (Math_ceil_div a b) a b.
Proof.
  intros Hb. unfold is_ceiling, Math_ceil_div.
  pose proof (Z.div_mod (- a) b ltac:(lia)) as Hd.
  pose proof (Z.mod_pos_bound (- a) b Hb) as Hm.
  nia.
Qed.



Lemma order_by_length (l : list Sql.order) :
  List.length (Sql.order_by l) = List.length l.
Proof. apply Permutation_length. apply order_by_perm. Qed.

Lemma satisfies_conjuncts (q : query) (r : Sql.order) :
  satisfies (conjuncts q) r = true <->
  (forall s, given (q_status q) = Some s ->
             Sql.test Sql.OpEq (Sql.o_status r) (Sql.SText s) = true)
  /\ (forall s, given (q_minAmount q) = Some s ->
                Sql.test Sql.OpGe (Sql.o_amount r)
                         (Sql.SNum (JS.parseFloat s)) = true)
  /\ (forall s, given (q_maxAmount q) = Some s ->
                Sql.test Sql.OpLe (Sql.o_amount r)
                         (Sql.SNum (JS.parseFloat s)) = true)
  /\ (forall s, given (q_startDate q) = Some s ->
                Sql.test Sql.OpGe (Sql.o_order_date r) (Sql.SText s) = true)
  /\ (forall s, given (q_endDate q) = Some s ->
                Sql.test Sql.OpLe (Sql.o_order_date r) (Sql.SText s) = true).
Proof.
  unfold satisfies, conjuncts, conjunct_of, amount_bound.
  rewrite !forallb_app.
  destruct (given (q_status q)) as [s1|], (given (q_minAmount q)) as [s2|],
    (given (q_maxAmount q)) as [s3|], (given (q_startDate q)) as [s4|],
    (given (q_endDate q)) as [s5|]; simpl;
    rewrite ?andb_true_r, ?andb_true_iff;
    (split;
     [ intros H; repeat split; intros s Hs; inversion Hs; subst; tauto
     | intros [H1 [H2 [H3 [H4 H5]]]];
       repeat split;
       first [ apply H1 | apply H2 | apply H3 | apply H4 | apply H5 ];
       reflexivity ]).
Qed.

(** C3: for a request that is answered with a listing, the WHERE clause
    holds one conjunct for each filter that is given (with a non-empty
    value) and none for the others: [status = value],
    [amount >= minAmount], [amount <= maxAmount],
    [order_date >= startDate], [order_date <= endDate], joined by AND.
    Every row of [data] is a stored order that satisfies all of them, and
    [totalOrders] is the number of stored orders that satisfy all of
    them, whatever the limit and the offset. *)
Theorem C3_filters_select_and_count
  (q : query) (db : Sql.database) (data : list Sql.order) (pg : pagination) :
  getOrders q db = mkResponse 200 (Listing data pg) ->
  build_where q = inr (map fst (conjuncts q), map snd (conjuncts q))
  /\ List.length (conjuncts q) = given_count q
  /\ (forall r,
        Sql.where_holds (map fst (conjuncts q)) (map snd (conjuncts q)) r
        = true <->
        (forall s, given (q_status q) = Some s ->
           Sql.test Sql.OpEq (Sql.o_status r) (Sql.SText s) = true)
        /\ (forall s, given (q_minAmount q) = Some s ->
              Sql.test Sql.OpGe (Sql.o_amount r)
                       (Sql.SNum (JS.parseFloat s)) = true)
        /\ (forall s, given (q_maxAmount q) = Some s ->
              Sql.test Sql.OpLe (Sql.o_amount r)
                       (Sql.SNum (JS.parseFloat s)) = true)
        /\ (forall s, given (q_startDate q) = Some s ->
              Sql.test Sql.OpGe (Sql.o_order_date r) (Sql.SText s) = true)
        /\ (forall s, given (q_endDate q) = Some s ->
              Sql.test Sql.OpLe (Sql.o_order_date r) (Sql.SText s) = true))
  /\ Forall (fun r => In r (Sql.rows db)
                      /\ satisfies (conjuncts q) r = true) data
  /\ totalOrders pg
     = Z.of_nat (List.length
                   (filter (satisfies (conjuncts q)) (Sql.rows db))).
Proof.
  intros H.
  destruct (getOrders_ok_valid q db) as [Hv Ho]; [rewrite H; reflexivity|].
  rewrite (getOrders_listing q db Hv Ho) in H. inversion H as [[Hd Hp]].
  split.
  { unfold valid_request, filters_ok in Hv.
    apply andb_true_iff in Hv. destruct Hv as [_ Hf].
    destruct (build_where q) as [r|w] eqn:Hw; [discriminate|].
    rewrite (build_where_conjuncts q w Hw). reflexivity. }
  split; [apply conjuncts_length|].
  split.
  { intros r. rewrite where_holds_satisfies. apply satisfies_conjuncts. }
  split; [|reflexivity].
  apply Forall_forall. intros r Hr.
  apply slice_incl in Hr.
  apply (Permutation_in r (order_by_perm _)) in Hr.
  unfold matching in Hr. apply filter_In in Hr. exact Hr.
Qed.

Lemma C3_filters_select_and_count_witness :
  Forall (fun r => In r (Sql.rows Samples.db3)
                   /\ satisfies (conjuncts Samples.completed_range) r = true)
         (data_of (getOrders Samples.completed_range Samples.db3))
  /\ totalOrders (pagination_of (getOrders Samples.completed_range
                                           Samples.db3)) = 2.
Proof.
  destruct (C3_filters_select_and_count Samples.completed_range Samples.db3
              (data_of (getOrders Samples.completed_range Samples.db3))
              (pagination_of (getOrders Samples.completed_range Samples.db3))
              eq_refl) as [_ [_ [_ [Hd Ht]]]].
  split; [exact Hd|]. rewrite Ht. reflexivity.
Defined.

(** The page reported is the double [parseInt] returns: [page=2^53+1] is
    read as [2 ^ 53]. *)
Example page_is_a_double :
  page_of (Samples.paged (Some "9007199254740993"%string) None)
  = 9007199254740992
  /\ page (pagination_of
             (getOrders (Samples.paged (Some "9007199254740993"%string)
                                       None) Sql.empty))
     = 9007199254740992.
Proof.
  split; [vm_compute; reflexivity|].
  rewrite getOrders_listing by (vm_compute; reflexivity).
  cbn [pagination_of body page]. vm_compute. reflexivity.
Qed.








(** *** Unique ids and the order of the rows in the table *)

Section Keys.

Variables (A K : Type) (key : A -> K).

Lemma nodup_key_eq (l : list A) (a b : A) :
  NoDup (map key l) -> In a l -> In b l -> key a = key b -> a = b.
Proof.
  induction l as [|x l IH]; simpl; intros Hn Ha Hb Hk; [destruct Ha|].
  inversion Hn as [|? ? Hx Hl]. subst.
  destruct Ha as [->|Ha], Hb as [->|Hb].
  - reflexivity.
  - exfalso. apply Hx. rewrite Hk. apply in_map. exact Hb.
  - exfalso. apply Hx. rewrite <- Hk. apply in_map. exact Ha.
  - exact (IH Hl Ha Hb Hk).
Qed.

Lemma nodup_key_filter (f : A -> bool) (l : list A) :
  NoDup (map key l) -> NoDup (map key (filter f l)).
Proof.
  induction l as [|x l IH]; simpl; intros Hn; [constructor|].
  inversion Hn as [|? ? Hx Hl]. subst.
  destruct (f x); simpl; [|exact (IH Hl)].
  constructor; [|exact (IH Hl)].
  intros Hin. apply Hx. apply in_map_iff in Hin.
  destruct Hin as [y [Hy Hin]]. apply filter_In in Hin.
  rewrite <- Hy. apply in_map. tauto.
Qed.

Lemma nodup_key_skipn (n : nat) (l : list A) :
  NoDup (map key l) -> NoDup (map key (skipn n l)).
Proof.
  revert l. induction n as [|n IH]; intros l Hn; [exact Hn|].
  destruct l as [|x l]; [exact Hn|]. simpl.
  apply IH. inversion Hn. assumption.
Qed.

Lemma nodup_key_firstn (n : nat) (l : list A) :
  NoDup (map key l) -> NoDup (map key (firstn n l)).
Proof.
  revert n. induction l as [|x l IH]; intros n Hn.
  - rewrite firstn_nil. constructor.
  - destruct n as [|n]; simpl; [constructor|].
    inversion Hn as [|? ? Hx Hl]. subst.
    constructor; [|exact (IH n Hl)].
    intros Hin. apply Hx. apply in_map_iff in Hin.
    destruct Hin as [y [Hy Hin]]. rewrite <- Hy. apply in_map.
    exact (firstn_incl _ _ _ _ Hin).
Qed.

Lemma nodup_key_positions (l : list A) (i j : nat) (a b : A) :
  NoDup (map key l) -> (i < j)%nat ->
  nth_error l i = Some a -> nth_error l j = Some b -> key a <> key b.
Proof.
  intros Hn Hij Hi Hj Hk.
  assert (Hlen : (i < List.length (map key l))%nat).
  { rewrite length_map. apply nth_error_Some. rewrite Hi. discriminate. }
  pose proof (proj1 (NoDup_nth_error (map key l)) Hn i j Hlen) as Hinj.
  rewrite !nth_error_map, Hi, Hj in Hinj. simpl in Hinj.
  rewrite Hk in Hinj. specialize (Hinj eq_refl). lia.
Qed.

End Keys.

Lemma filter_perm (A : Type) (f : A -> bool) (l l' : list A) :
  Permutation l l' -> Permutation (filter f l) (filter f l').
Proof.
  induction 1 as [|x l l' _ IH|x y l|l l' l'' _ IH1 _ IH2]; simpl.
  - constructor.
  - destruct (f x); [apply perm_skip|]; exact IH.
  - destruct (f x), (f y); try apply Permutation_refl. apply perm_swap.
  - exact (Permutation_trans IH1 IH2).
Qed.

(** Two sorted arrangements of rows with distinct ids are the same. *)
Lemma sorted_perm_unique (l1 l2 : list Sql.order) :
  StronglySorted listed_before l1 -> StronglySorted listed_before l2 ->
  Permutation l1 l2 -> NoDup (map Sql.id l1) -> l1 = l2.
Proof.
  revert l2. induction l1 as [|a l1 IH]; intros l2 H1 H2 Hp Hn.
  - apply Permutation_nil in Hp. subst. reflexivity.
  - destruct l2 as [|b l2].
    { apply Permutation_sym, Permutation_nil in Hp. discriminate Hp. }
    apply StronglySorted_inv in H1. destruct H1 as [H1 Ha].
    apply StronglySorted_inv in H2. destruct H2 as [H2 Hb].
    rewrite Forall_forall in Ha, Hb.
    assert (Eab : a = b).
    { assert (Hin_a : In a (b :: l2))
        by (apply (Permutation_in a Hp); left; reflexivity).
      assert (Hin_b : In b (a :: l1))
        by (apply (Permutation_in b (Permutation_sym Hp)); left;
            reflexivity).
      destruct Hin_a as [E|Hin_a]; [symmetry; exact E|].
      destruct Hin_b as [E|Hin_b]; [exact E|].
      apply (nodup_key_eq _ _ Sql.id (a :: l1)); simpl; auto.
      apply listed_before_antisym; [apply Ha|apply Hb]; assumption. }
    subst b. f_equal. apply IH; try assumption.
    + exact (Permutation_cons_inv Hp).
    + inversion Hn. assumption.
Qed.

Lemma order_by_perm_unique (l l' : list Sql.order) :
  Permutation l l' -> NoDup (map Sql.id l) ->
  Sql.order_by l = Sql.order_by l'.
Proof.
  intros Hp Hn. apply sorted_perm_unique.
  - apply order_by_sorted.
  - apply order_by_sorted.
  - apply Permutation_trans with l; [apply order_by_perm|].
    apply Permutation_trans with l'; [exact Hp|].
    apply Permutation_sym, order_by_perm.
  - apply (Permutation_NoDup (l := map Sql.id l)); [|exact Hn].
    apply Permutation_map. apply Permutation_sym, order_by_perm.
Qed.

Lemma getOrders_invalid (q : query) (db db' : Sql.database) :
  valid_request q = false -> getOrders q db' = getOrders q db.
Proof.
  unfold valid_request, filters_ok. intros H.
  destruct (pagination_ok q) eqn:Hp.
  - rewrite (getOrders_valid q db Hp), (getOrders_valid q db' Hp).
    destruct (build_where q) as [r|w]; [reflexivity|discriminate H].
  - rewrite (getOrders_pagination q db Hp), (getOrders_pagination q db' Hp).
    reflexivity.
Qed.

(** The listing does not depend on the order in which the table holds
    its rows. *)
Lemma getOrders_perm (q : query) (db db' : Sql.database) :
  unique_ids db -> Permutation (Sql.rows db) (Sql.rows db') ->
  getOrders q db' = getOrders q db.
Proof.
  intros Hu Hp. destruct (valid_request q) eqn:Hv.
  - rewrite (getOrders_answer q db Hv), (getOrders_answer q db' Hv).
    assert (Hm : Permutation (matching q db) (matching q db'))
      by (apply filter_perm; exact Hp).
    assert (Ht : total_of q db' = total_of q db).
    { unfold total_of. rewrite (Permutation_length Hm). reflexivity. }
    rewrite Ht.
    rewrite (order_by_perm_unique (matching q db) (matching q db') Hm).
    + reflexivity.
    + apply nodup_key_filter. exact Hu.
  - apply getOrders_invalid. exact Hv.
Qed.

Lemma listing_unique_ids (q : query) (db : Sql.database) :
  unique_ids db ->
  NoDup (map Sql.id
           (Sql.slice (limit_of q) (offset_of q)
              (Sql.order_by (matching q db)))).
Proof.
  intros Hu.
  assert (Hs : NoDup (map Sql.id (Sql.order_by (matching q db)))).
  { apply (Permutation_NoDup (l := map Sql.id (matching q db))).
    - apply Permutation_map. apply Permutation_sym, order_by_perm.
    - apply nodup_key_filter. exact Hu. }
  unfold Sql.slice. destruct (limit_of q <? 0).
  - apply nodup_key_skipn. exact Hs.
  - apply nodup_key_firstn. apply nodup_key_skipn. exact Hs.
Qed.

(** C5: the rows of a listing are in the order "later order_date first,
    and among equal order_dates higher id first": any row comes before
    the rows after it in that order, so of two rows with the same
    order_date the one listed first has the higher id (strictly, ids
    being unique).  The order is total and transitive, and two rows that
    each come before the other have the same id, so that with unique ids
    the listing is the same whatever the order of the rows in the
    table. *)
Theorem C5_listing_order
  (q : query) (db : Sql.database) (data : list Sql.order) (pg : pagination) :
  getOrders q db = mkResponse 200 (Listing data pg) ->
  StronglySorted listed_before data
  /\ (forall (i j : nat) (a b : Sql.order),
        (i < j)%nat ->
        nth_error data i = Some a -> nth_error data j = Some b ->
        listed_before a b
        /\ (same_order_date a b -> Sql.id b <= Sql.id a)
        /\ (unique_ids db -> same_order_date a b -> Sql.id b < Sql.id a))
  /\ (forall a b, listed_before a b \/ listed_before b a)
  /\ (forall a b c,
        listed_before a b -> listed_before b c -> listed_before a c)
  /\ (forall a b,
        listed_before a b -> listed_before b a -> Sql.id a = Sql.id b)
  /\ (forall db',
        unique_ids db -> Permutation (Sql.rows db) (Sql.rows db') ->
        getOrders q db' = getOrders q db).
Proof.
  intros H.
  destruct (getOrders_ok_valid q db) as [Hv Ho]; [rewrite H; reflexivity|].
  rewrite (getOrders_listing q db Hv Ho) in H. inversion H as [[Hd Hp]].
  clear H Hp.
  assert (Hs : StronglySorted listed_before
                 (Sql.slice (limit_of q) (offset_of q)
                    (Sql.order_by (matching q db))))
    by (apply slice_sorted, order_by_sorted).
  split; [exact Hs|].
  split.
  { intros i j a b Hij Hi Hj.
    pose proof (sorted_positions _ _ _ Hs i j a b Hij Hi Hj) as Hab.
    assert (Hle : same_order_date a b -> Sql.id b <= Sql.id a).
    { unfold same_order_date. intros He.
      destruct Hab as [Hg|[_ Hid]]; [congruence|exact Hid]. }
    split; [exact Hab|]. split; [exact Hle|].
    intros Hu He. specialize (Hle He).
    pose proof (nodup_key_positions _ _ Sql.id _ i j a b
                  (listing_unique_ids q db Hu) Hij Hi Hj) as Hne.
    lia. }
  split; [exact listed_before_total|].
  split; [exact listed_before_trans|].
  split; [exact listed_before_antisym|].
  intros db'. apply getOrders_perm.
Qed.

Lemma C5_listing_order_witness :
  exists a b,
    data_of (getOrders Samples.no_query Samples.db2) = [a; b]
    /\ same_order_date a b /\ Sql.id b < Sql.id a.
Proof.
  destruct (C5_listing_order Samples.no_query Samples.db2
              (data_of (getOrders Samples.no_query Samples.db2))
              (pagination_of (getOrders Samples.no_query Samples.db2))
              eq_refl) as [_ [H _]].
  eexists. eexists. split; [reflexivity|].
  split; [reflexivity|].
  refine (proj2 (proj2 (H 0%nat 1%nat _ _ (Nat.lt_0_succ 0) eq_refl eq_refl))
                _ eq_refl).
  unfold unique_ids. simpl.
  constructor; [|constructor; [|constructor]]; simpl; intuition discriminate.
Defined.

(** *** The table stays well formed *)

Lemma max_id_bound (l : list Sql.order) (r : Sql.order) :
  In r l -> Sql.id r <= Sql.max_id l.
Proof.
  induction l as [|x l IH]; simpl; intros H; [destruct H|].
  destruct H as [->|H]; [lia|]. specialize (IH H). lia.
Qed.

Lemma next_id_fresh (db : Sql.database) :
  ~ In (Sql.next_id db) (map Sql.id (Sql.rows db)).
Proof.
  intros H. apply in_map_iff in H. destruct H as [r [Hr Hin]].
  apply max_id_bound in Hin. unfold Sql.next_id in Hr. lia.
Qed.

Lemma set_id (c : Sql.column) (v : Sql.sqlval) (r : Sql.order) :
  Sql.id (Sql.set c v r) = Sql.id r.
Proof. destruct c; reflexivity. Qed.

Lemma assign_id (sets : list (Sql.column * Sql.sqlval)) (r : Sql.order) :
  Sql.id (Sql.assign sets r) = Sql.id r.
Proof.
  revert r. induction sets as [|[c v] sets IH]; intros r; simpl;
    [reflexivity|].
  rewrite IH. apply set_id.
Qed.

Lemma createOrder_well_formed (b : fields) (now : string)
  (db : Sql.database) :
  well_formed db -> well_formed (snd (createOrder b now db)).
Proof.
  intros [Hu Hc]. destruct (create_accepts b) eqn:Ha.
  - rewrite (createOrder_accepts b now db Ha). simpl. split.
    + unfold unique_ids. simpl. rewrite map_app. simpl.
      apply (Permutation_NoDup
               (l := Sql.next_id db :: map Sql.id (Sql.rows db))).
      * apply Permutation_cons_append.
      * constructor; [apply next_id_fresh|exact Hu].
    + simpl. apply Forall_app. split; [exact Hc|].
      constructor; [|constructor].
      exact (create_accepts_constraints b now db Ha).
  - destruct (createOrder_rejects b now db Ha) as [_ E]. rewrite E.
    split; assumption.
Qed.

Lemma deleteOrder_well_formed (id : string) (db : Sql.database) :
  well_formed db -> well_formed (snd (deleteOrder id db)).
Proof.
  intros [Hu Hc]. unfold deleteOrder.
  destruct (invalid_id id); [split; assumption|]. simpl.
  destruct (_ =? 0); simpl; split;
    try (apply nodup_key_filter; exact Hu);
    apply Forall_forall; intros r Hr; apply filter_In in Hr;
    rewrite Forall_forall in Hc; apply Hc; tauto.
Qed.

Lemma run_update_well_formed (updates : list Sql.column)
  (params : list Sql.sqlval) (db db' : Sql.database) (i k : Z) :
  well_formed db ->
  Sql.run_update updates params db = Sql.RunDone i k db' ->
  well_formed db'.
Proof.
  intros [Hu Hc]. unfold Sql.run_update.
  destruct (Sql.split_last params) as [vals p_id].
  destruct (negb _); [discriminate|].
  destruct (forallb _ _) eqn:Hall; [|discriminate].
  intros H. inversion H. subst. clear H. split.
  - unfold unique_ids. simpl. rewrite map_map.
    rewrite (map_ext _ Sql.id); [exact Hu|].
    intros r. destruct (Sql.id_is p_id r); [apply assign_id|reflexivity].
  - simpl. apply Forall_forall. intros r' Hr'.
    apply in_map_iff in Hr'. destruct Hr' as [r [<- Hr]].
    destruct (Sql.id_is p_id r) eqn:Hid.
    + rewrite forallb_forall in Hall.
      specialize (Hall r). rewrite Hid in Hall. apply Hall.
      apply filter_In. auto.
    + rewrite Forall_forall in Hc. exact (Hc r Hr).
Qed.

Lemma updateOrder_well_formed (id : string) (b : fields)
  (db : Sql.database) :
  well_formed db -> well_formed (snd (updateOrder id b db)).
Proof.
  intros Hw. unfold updateOrder.
  destruct (update_statement id b) as [r|[updates params]]; [exact Hw|].
  destruct (Sql.run_update updates params db) as [m|i k db'] eqn:Hr;
    [exact Hw|].
  pose proof (run_update_well_formed updates params db db' i k Hw Hr).
  destruct (k =? 0); assumption.
Qed.

Lemma empty_well_formed : well_formed Sql.empty.
Proof. split; constructor. Qed.

(** *** A validated update is accepted by the table *)

Lemma set_constraints (c : Sql.column) (v : Sql.sqlval) (r : Sql.order) :
  Sql.constraints_ok r = true -> Sql.is_null v = false ->
  (c = Sql.status -> Sql.check_status (Sql.affinity c v) = true) ->
  Sql.constraints_ok (Sql.set c v r) = true.
Proof.
  unfold Sql.constraints_ok, Sql.all_columns. cbn [forallb].
  rewrite !andb_true_iff, !negb_true_iff.
  intros [[H1 [H2 [H3 [H4 [H5 [H6 _]]]]]] Hs] Hv Hc.
  pose proof (affinity_not_null c v Hv) as Ha.
  destruct c; unfold Sql.set;
    cbn [Sql.get Sql.o_customer_name Sql.o_product Sql.o_quantity
         Sql.o_amount Sql.o_status Sql.o_order_date];
    rewrite ?Ha, ?H1, ?H2, ?H3, ?H4, ?H5, ?H6;
    repeat split; try assumption; apply Hc; reflexivity.
Qed.

Lemma assign_constraints (sets : list (Sql.column * Sql.sqlval))
  (r : Sql.order) :
  Sql.constraints_ok r = true ->
  Forall (fun cv => Sql.is_null (snd cv) = false
                    /\ (fst cv = Sql.status ->
                        Sql.check_status (Sql.affinity (fst cv) (snd cv))
                        = true)) sets ->
  Sql.constraints_ok (Sql.assign sets r) = true.
Proof.
  revert r. induction sets as [|[c v] sets IH]; intros r Hr Hs; simpl;
    [exact Hr|].
  inversion Hs as [|? ? [Hv Hc] Hs']. subst. simpl in Hv, Hc.
  apply IH; [|exact Hs']. apply set_constraints; assumption.
Qed.

Lemma build_updates_sets (b : fields) :
  Forall (fun cv => snd cv = Sql.bind (field (fst cv) b)
                    /\ JS.truthy (field (fst cv) b) = true)
         (combine (fst (build_updates b)) (snd (build_updates b))).
Proof.
  unfold build_updates, set_if.
  destruct (JS.truthy (customer_name b)) eqn:H1,
    (JS.truthy (product b)) eqn:H2, (JS.truthy (quantity b)) eqn:H3,
    (JS.truthy (amount b)) eqn:H4, (JS.truthy (status b)) eqn:H5,
    (JS.truthy (order_date b)) eqn:H6; simpl;
    repeat (constructor; [split; [reflexivity|assumption]|]);
    constructor.
Qed.

Lemma update_statement_checked (id : string) (b : fields)
  (updates : list Sql.column) (params : list Sql.sqlval) :
  update_statement id b = inr (updates, params) ->
  JS.truthy (status b) = true -> JS.includes validStatuses (status b) = true.
Proof.
  unfold update_statement.
  destruct (invalid_id id); [discriminate|].
  destruct (JS.truthy (status b)); [|discriminate]. simpl.
  destruct (JS.includes validStatuses (status b)); [reflexivity|].
  discriminate.
Qed.

(** On a well-formed table the statement of a validated update never
    fails: it changes the rows that have the id, none or some. *)
Lemma updateOrder_runs (id : string) (b : fields)
  (updates : list Sql.column) (params : list Sql.sqlval)
  (db : Sql.database) :
  well_formed db ->
  update_statement id b = inr (updates, params) ->
  exists db',
    Sql.run_update updates params db
    = Sql.RunDone 0 (rows_with_id id db) db'.
Proof.
  intros [_ Hc] Hs.
  pose proof (update_statement_checked id b updates params Hs) as Hst.
  apply update_statement_shape in Hs. destruct Hs as [-> ->].
  unfold Sql.run_update, Sql.split_last.
  rewrite removelast_last, last_last, build_updates_length, Nat.eqb_refl.
  simpl.
  assert (Hall : forallb
            (fun r => Sql.constraints_ok
               (if Sql.id_is (Sql.SText id) r
                then Sql.assign
                       (combine (fst (build_updates b))
                                (snd (build_updates b))) r
                else r))
            (filter (Sql.id_is (Sql.SText id)) (Sql.rows db)) = true).
  { apply forallb_forall. intros r Hr. apply filter_In in Hr.
    destruct Hr as [Hr Hid]. rewrite Hid.
    rewrite Forall_forall in Hc.
    apply assign_constraints; [exact (Hc r Hr)|].
    apply Forall_impl with (2 := build_updates_sets b).
    intros [c v] [Hv Ht]. simpl in *. subst v. split.
    - apply bind_truthy. exact Ht.
    - intros ->. apply includes_check_status. apply Hst. exact Ht. }
  rewrite Hall. eexists. reflexivity.
Qed.

(** *** Scenarios *)

Example parseInt_reads : 
  JS.parseInt "0" = Some 0 /\ JS.parseInt "abc" = None
  /\ JS.parseInt " 12px" = Some 12 /\ JS.parseInt "-0x1f" = Some (-31)
  /\ JS.parseInt "undefined" = None.
Proof. repeat split. Qed.

Example parseFloat_reads :
  JS.cmp (JS.parseFloat "10.5e1x") (JS.of_Z 105) = Eq
  /\ JS.parseFloat "Infinity" = JS.PosInf
  /\ JS.parseFloat "abc" = JS.NaN.
Proof. repeat split. Qed.

Example number_of_string :
  JS.StringToNumber "" = JS.zero /\ JS.StringToNumber "12px" = JS.NaN
  /\ JS.cmp (JS.StringToNumber " 0x1F ") (JS.of_Z 31) = Eq.
Proof. repeat split. Qed.

(** Creating the first order answers 201 with id 1, and it is then the
    one match of [status=pending&minAmount=10&maxAmount=100]. *)
Example create_then_list :
  fst (createOrder Samples.alice Samples.now Sql.empty)
  = mkResponse 201
      (OrderCreated 1 Samples.alice "Order created successfully")
  /\ data_of (getOrders Samples.pending_range Samples.db1)
     = Sql.rows Samples.db1
  /\ totalOrders (pagination_of (getOrders Samples.pending_range
                                           Samples.db1)) = 1.
Proof. repeat split. Qed.

(** [PUT /orders/1] with [{status: "completed"}] answers 200 and changes
    the status only. *)
Example update_status_only :
  fst (updateOrder "1" Samples.complete Samples.db1)
  = mkResponse 200 (Message "Order updated successfully" "1")
  /\ Sql.rows (snd (updateOrder "1" Samples.complete Samples.db1))
     = [Sql.set Sql.status (Sql.SText "completed")
                (stored_row Samples.alice Samples.now Sql.empty)].
Proof. split; reflexivity. Qed.

(** The clause built for [status=completed&minAmount=100&maxAmount=1000]. *)
Example where_clause_text :
  match build_where Samples.completed_range with
  | inr (filters, params) =>
      Sql.whereClause filters
      = "WHERE status = ? AND amount >= ? AND amount <= ?"%string
      /\ List.length params = 3%nat
  | inl _ => False
  end.
Proof. split; reflexivity. Qed.

Example empty_table :
  getOrders Samples.no_query Sql.empty
  = mkResponse 200 (Listing [] (mkPagination 1 10 0 0 false false)).
Proof. reflexivity. Qed.

Example no_fields_to_update :
  fst (updateOrder "1" Samples.nothing Samples.db1)
  = mkResponse 400 (Error "No fields to update").
Proof. reflexivity. Qed.

Example invalid_id_format :
  getOrderById "invalid-id" Samples.db1 = invalid_order_id
  /\ getOrderById "99999" Samples.db1 = not_found.
Proof. split; reflexivity. Qed.

(** A no-break space before the digits is white space for [isNaN] and
    not for the engine: the id passes the check and matches no row. *)
Example id_after_no_break_space :
  invalid_id Samples.nbsp_1 = false
  /\ getOrderById Samples.nbsp_1 Samples.db1 = not_found
  /\ getOrderById " 1" Samples.db1
     = mkResponse 200 (Row (stored_row Samples.alice Samples.now Sql.empty)).
Proof. repeat split. Qed.

(** Two bounds that round to the same double are the same bound. *)
Example bounds_are_doubles :
  JS.parseFloat "0.1" = JS.parseFloat "0.1000000000000000055"
  /\ JS.parseFloat "9007199254740993" = JS.of_Z 9007199254740992
  /\ JS.parseFloat "1e400" = JS.PosInf
  /\ JS.cmp (JS.parseFloat "1e-400") JS.zero = Eq.
Proof. repeat split. Qed.

(* ===================================================================== *)
(** ** Further properties of the controller *)
(* ===================================================================== *)

Import Api.

(** *** Decimal text is read back *)

Lemma digit_cases (c : ascii) :
  is_digit c = true ->
  In c ["0"; "1"; "2"; "3"; "4"; "5"; "6"; "7"; "8"; "9"]%char.
Proof.
  destruct c as [[] [] [] [] [] [] [] []]; intros H;
    try discriminate H; simpl; tauto.
Qed.

Ltac each_digit c H :=
  apply digit_cases in H; simpl in H;
  repeat (destruct H as [H|H]; [subst c|]); [..|destruct H].

Lemma digits_of_uint_acc (d : Decimal.uint) (acc : BinNums.positive) (n : nat) :
  JS.digits 10 (NilEmpty.string_of_uint d) (Zpos acc) n
  = (Zpos (Pos.of_uint_acc d acc), (n + Decimal.nb_digits d)%nat,
     EmptyString).
Proof.
  revert acc n.
  induction d as [|d IH|d IH|d IH|d IH|d IH|d IH|d IH|d IH|d IH|d IH];
    intros acc n;
    [simpl; rewrite Nat.add_0_r; reflexivity | ..];
    cbn [NilEmpty.string_of_uint JS.digits Decimal.nb_digits
         Pos.of_uint_acc];
    match goal with
    | |- context [JS.digit 10 ?c] =>
        let v := eval vm_compute in (JS.digit 10 c) in
        change (JS.digit 10 c) with v; cbv iota
    end;
    match goal with
    | |- JS.digits 10 _ ?a _ = (Zpos (Pos.of_uint_acc _ ?b), _, _) =>
        replace a with (Zpos b) by lia
    end;
    rewrite IH, Nat.add_succ_r; reflexivity.
Qed.

Lemma digits_of_uint (d : Decimal.uint) (n : nat) :
  JS.digits 10 (NilEmpty.string_of_uint d) 0 n
  = (Z.of_N (Pos.of_uint d), (n + Decimal.nb_digits d)%nat, EmptyString).
Proof.
  revert n.
  induction d as [|d IH|d IH|d IH|d IH|d IH|d IH|d IH|d IH|d IH|d IH];
    intros n;
    [simpl; rewrite Nat.add_0_r; reflexivity | ..];
    cbn [NilEmpty.string_of_uint JS.digits Decimal.nb_digits Pos.of_uint];
    match goal with
    | |- context [JS.digit 10 ?c] =>
        let v := eval vm_compute in (JS.digit 10 c) in
        change (JS.digit 10 c) with v; cbv iota
    end;
    [ change (0 * 10 + 0) with 0; rewrite IH, Nat.add_succ_r; reflexivity
    | .. ];
    match goal with
    | |- JS.digits 10 _ ?a _ = _ =>
        let v := eval vm_compute in a in change a with v
    end;
    rewrite digits_of_uint_acc, Nat.add_succ_r; reflexivity.
Qed.

Lemma all_digits_of_uint (d : Decimal.uint) :
  all_digits (NilEmpty.string_of_uint d) = true.
Proof. induction d; simpl; try reflexivity; exact IHd. Qed.

Lemma decimal_text_pos (p : BinNums.positive) :
  decimal_text (Zpos p) = NilEmpty.string_of_uint (Pos.to_uint p).
Proof.
  unfold decimal_text. simpl. unfold NilZero.string_of_uint.
  pose proof (Unsigned.to_uint_nonnil p) as Hn.
  destruct (Pos.to_uint p); [contradiction|reflexivity..].
Qed.

Lemma digits_decimal_text (p : BinNums.positive) :
  exists m, JS.digits 10 (decimal_text (Zpos p)) 0 0
            = (Zpos p, S m, EmptyString).
Proof.
  rewrite decimal_text_pos, digits_of_uint, Unsigned.of_to. simpl.
  pose proof (Unsigned.to_uint_nonnil p) as Hn.
  destruct (Pos.to_uint p); [contradiction|..]; simpl; eexists; reflexivity.
Qed.

Lemma all_digits_decimal_text (p : BinNums.positive) :
  all_digits (decimal_text (Zpos p)) = true.
Proof. rewrite decimal_text_pos. apply all_digits_of_uint. Qed.

Lemma decimal_text_not_empty (p : BinNums.positive) :
  decimal_text (Zpos p) <> EmptyString.
Proof.
  intros H. destruct (digits_decimal_text p) as [m Hm].
  rewrite H in Hm. discriminate Hm.
Qed.

Lemma trim_start_digits (s : string) :
  all_digits s = true -> JS.trim_start s = s.
Proof.
  destruct s as [|c s]; [reflexivity|]. simpl all_digits.
  intros H. apply andb_true_iff in H. destruct H as [Hc _].
  each_digit c Hc; destruct s as [|c2 [|c3 s3]]; reflexivity.
Qed.

Lemma trim_end_digits (s : string) :
  all_digits s = true -> JS.trim_end s = s.
Proof.
  induction s as [|c s IH]; [reflexivity|].
  intros H. cbn [JS.trim_end]. unfold JS.blank.
  rewrite (trim_start_digits _ H).
  simpl in H. apply andb_true_iff in H. destruct H as [_ Hs].
  rewrite (IH Hs). reflexivity.
Qed.

Lemma trim_digits (s : string) : all_digits s = true -> JS.trim s = s.
Proof.
  intros H. unfold JS.trim.
  rewrite (trim_start_digits s H). apply trim_end_digits. exact H.
Qed.

Lemma rtrim_digits (s : string) :
  all_digits s = true -> Sql.rtrim s = s.
Proof.
  induction s as [|c s IH]; simpl; [reflexivity|].
  intros H. apply andb_true_iff in H. destruct H as [Hc Hs].
  rewrite (IH Hs). destruct s; [|reflexivity].
  each_digit c Hc; reflexivity.
Qed.

Lemma ltrim_digits (s : string) :
  all_digits s = true -> Sql.ltrim s = s.
Proof.
  destruct s as [|c s]; [reflexivity|]. simpl.
  intros H. apply andb_true_iff in H. destruct H as [Hc _].
  each_digit c Hc; reflexivity.
Qed.

Lemma signed_not_nan (sg : Z) (q : Q) :
  JS.isNaN_number (JS.signed sg q) = false.
Proof.
  unfold JS.signed, JS.infinity.
  destruct (JS.round_double q); destruct (sg <? 0); reflexivity.
Qed.

Lemma sign_digits (s : string) : all_digits s = true -> JS.sign s = (1, s).
Proof.
  destruct s as [|c s]; [reflexivity|]. simpl.
  intros H. apply andb_true_iff in H. destruct H as [Hc _].
  each_digit c Hc; reflexivity.
Qed.

Lemma not_infinity_digits (s : string) :
  all_digits s = true -> String.eqb s "Infinity" = false.
Proof.
  destruct s as [|c s]; [reflexivity|]. simpl.
  intros H. apply andb_true_iff in H. destruct H as [Hc _].
  each_digit c Hc; reflexivity.
Qed.

Lemma unsigned_decimal_text (p : BinNums.positive) :
  JS.unsigned_decimal (decimal_text (Zpos p))
  = Some ((inject_Z (Zpos p) * JS.ten ^ 0)%Q, EmptyString).
Proof.
  unfold JS.unsigned_decimal.
  destruct (digits_decimal_text p) as [m Hm]. rewrite Hm. reflexivity.
Qed.

Lemma decimal_literal_text (p : BinNums.positive) :
  JS.decimal_literal (decimal_text (Zpos p))
  = JS.signed 1 (inject_Z (Zpos p) * JS.ten ^ 0)%Q.
Proof.
  unfold JS.decimal_literal.
  rewrite (sign_digits _ (all_digits_decimal_text p)).
  rewrite (not_infinity_digits _ (all_digits_decimal_text p)).
  rewrite unsigned_decimal_text. reflexivity.
Qed.

Lemma StringToNumber_digits (s : string) :
  all_digits s = true -> s <> EmptyString ->
  JS.StringToNumber s = JS.decimal_literal s.
Proof.
  intros H Hne. unfold JS.StringToNumber. rewrite (trim_digits s H).
  destruct s as [|c s]; [contradiction|].
  destruct s as [|c' s]; simpl in H.
  - apply andb_true_iff in H. destruct H as [Hc _].
    each_digit c Hc; reflexivity.
  - apply andb_true_iff in H. destruct H as [Hc H].
    apply andb_true_iff in H. destruct H as [Hc' _].
    each_digit c Hc; try reflexivity.
    each_digit c' Hc'; reflexivity.
Qed.

(** The decimal text of a positive integer is read as that integer by
    the conversion to a number. *)
Lemma StringToNumber_decimal_text (p : BinNums.positive) :
  JS.StringToNumber (decimal_text (Zpos p))
  = JS.signed 1 (inject_Z (Zpos p) * JS.ten ^ 0)%Q.
Proof.
  rewrite StringToNumber_digits.
  - apply decimal_literal_text.
  - apply all_digits_decimal_text.
  - apply decimal_text_not_empty.
Qed.

Lemma invalid_id_decimal_text (p : BinNums.positive) :
  invalid_id (decimal_text (Zpos p)) = false.
Proof.
  unfold invalid_id, JS.isNaN.
  rewrite StringToNumber_decimal_text, signed_not_nan, orb_false_r.
  apply String.eqb_neq, decimal_text_not_empty.
Qed.

Lemma numeric_of_decimal_text (p : BinNums.positive) :
  Sql.numeric_of_text (decimal_text (Zpos p))
  = Some (JS.Fin (inject_Z 1 * (inject_Z (Zpos p) * JS.ten ^ 0))%Q).
Proof.
  unfold Sql.numeric_of_text, Sql.integer_literal.
  rewrite (ltrim_digits _ (all_digits_decimal_text p)).
  rewrite (rtrim_digits _ (all_digits_decimal_text p)).
  rewrite (sign_digits _ (all_digits_decimal_text p)).
  rewrite unsigned_decimal_text.
  destruct (digits_decimal_text p) as [m Hm]. rewrite Hm. reflexivity.
Qed.

Lemma Qcompare_inject_Z (a b : Z) :
  (inject_Z a ?= inject_Z b)%Q = (a ?= b).
Proof. unfold Qcompare. simpl. rewrite !Z.mul_1_r. reflexivity. Qed.

(** [WHERE id = ?] with the decimal text of [n] selects the rows whose id
    is [n]. *)
Lemma id_is_decimal_text (p : BinNums.positive) (r : Sql.order) :
  Sql.id_is (Sql.SText (decimal_text (Zpos p))) r = (Sql.id r =? Zpos p).
Proof.
  unfold Sql.id_is. simpl. rewrite numeric_of_decimal_text.
  unfold Sql.test, Sql.compare, JS.of_Z, JS.cmp.
  assert (E : (inject_Z 1 * (inject_Z (Zpos p) * JS.ten ^ 0)
               == inject_Z (Zpos p))%Q).
  { change (JS.ten ^ 0)%Q with 1%Q. change (inject_Z 1) with 1%Q. ring. }
  rewrite E, Qcompare_inject_Z.
  destruct (Z.compare_spec (Sql.id r) (Zpos p)) as [H|H|H].
  - symmetry. apply Z.eqb_eq. exact H.
  - symmetry. apply Z.eqb_neq. lia.
  - symmetry. apply Z.eqb_neq. lia.
Qed.

Lemma parseInt_decimal_text (p : BinNums.positive) :
  JS.parseInt (decimal_text (Zpos p)) = Some (JS.to_double (Zpos p)).
Proof.
  unfold JS.parseInt.
  pose proof (all_digits_decimal_text p) as Hd.
  rewrite (trim_start_digits _ Hd), (sign_digits _ Hd).
  assert (Er : match decimal_text (Zpos p) with
               | String "0"%char (String c r2) =>
                   if JS.is_char "x" "X" c then (16, r2)
                   else (10, decimal_text (Zpos p))
               | _ => (10, decimal_text (Zpos p))
               end = (10, decimal_text (Zpos p))).
  { destruct (decimal_text (Zpos p)) as [|c [|c' s]]; try reflexivity.
    - simpl in Hd. apply andb_true_iff in Hd. destruct Hd as [Hc _].
      each_digit c Hc; reflexivity.
    - simpl in Hd. apply andb_true_iff in Hd. destruct Hd as [Hc Hd].
      apply andb_true_iff in Hd. destruct Hd as [Hc' _].
      each_digit c Hc; try reflexivity.
      each_digit c' Hc'; reflexivity. }
  rewrite Er. destruct (digits_decimal_text p) as [m Hm]. rewrite Hm.
  reflexivity.
Qed.

(** *** Reading one order *)

Lemma rows_with_id_zero (id : string) (db : Sql.database) :
  rows_with_id id db = 0 <->
  find (Sql.id_is (Sql.SText id)) (Sql.rows db) = None.
Proof.
  unfold rows_with_id. induction (Sql.rows db) as [|r l IH]; simpl.
  - tauto.
  - destruct (Sql.id_is (Sql.SText id) r); simpl.
    + split; [lia|discriminate].
    + exact IH.
Qed.

Lemma getOrderById_valid (id : string) (db : Sql.database) :
  invalid_id id = false ->
  getOrderById id db
  = match find (Sql.id_is (Sql.SText id)) (Sql.rows db) with
    | Some r => mkResponse 200 (Row r)
    | None => not_found
    end.
Proof.
  intros H. unfold getOrderById. rewrite H. simpl.
  destruct (find _ _); reflexivity.
Qed.

Lemma find_same (A : Type) (f g : A -> bool) (l : list A) :
  (forall x, f x = g x) -> find f l = find g l.
Proof.
  intros H. induction l as [|a l IH]; simpl; [reflexivity|].
  rewrite H, IH. reflexivity.
Qed.

Lemma find_unique_id (n : Z) (l : list Sql.order) (r : Sql.order) :
  NoDup (map Sql.id l) -> In r l -> Sql.id r = n ->
  find (fun x => Sql.id x =? n) l = Some r.
Proof.
  intros Hn Hr Hid.
  destruct (find (fun x => Sql.id x =? n) l) as [x|] eqn:Hf.
  - apply find_some in Hf. destruct Hf as [Hx Hxn].
    apply Z.eqb_eq in Hxn. f_equal.
    apply (nodup_key_eq _ _ Sql.id l); auto. congruence.
  - apply (find_none _ _ Hf) in Hr. apply Z.eqb_neq in Hr. contradiction.
Qed.

(** X1.  [getOrderById] answers 400 "Invalid order ID" when the route
    parameter is empty or not numeric, whatever the table holds; 404
    "Order not found" when it is numeric and no row has it; and otherwise
    200 with a stored row that has it.  Asked with the decimal text of a
    positive [n] it answers with the order whose id is [n], which is the
    only one when ids are unique, and 404 when no order has id [n]. *)
Theorem getOrderById_outcomes (id : string) (db : Sql.database) :
  (invalid_id id = true -> getOrderById id db = invalid_order_id)
  /\ (invalid_id id = false ->
      (getOrderById id db = not_found <-> rows_with_id id db = 0)
      /\ (rows_with_id id db <> 0 ->
          exists r, getOrderById id db = mkResponse 200 (Row r)
                    /\ In r (Sql.rows db)
                    /\ Sql.id_is (Sql.SText id) r = true))
  /\ (forall p : BinNums.positive,
        id = decimal_text (Zpos p) ->
        invalid_id id = false
        /\ ((forall r, In r (Sql.rows db) -> Sql.id r <> Zpos p) ->
            getOrderById id db = not_found)
        /\ (forall r, unique_ids db -> In r (Sql.rows db) ->
                      Sql.id r = Zpos p ->
                      getOrderById id db = mkResponse 200 (Row r))).
Proof.
  split; [|split].
  - intros H. unfold getOrderById. rewrite H. reflexivity.
  - intros H. rewrite (getOrderById_valid id db H), rows_with_id_zero.
    split.
    + destruct (find _ _) as [r|]; split; intros E;
        try reflexivity; discriminate E.
    + intros Hn. destruct (find _ _) as [r|] eqn:Hf; [|contradiction].
      exists r. apply find_some in Hf. tauto.
  - intros p ->. pose proof (invalid_id_decimal_text p) as Hv.
    split; [exact Hv|].
    rewrite (getOrderById_valid _ db Hv).
    rewrite (find_same _ _ _ _ (id_is_decimal_text p)).
    split.
    + intros Hno.
      destruct (find _ _) as [r|] eqn:Hf; [|reflexivity].
      apply find_some in Hf. destruct Hf as [Hr Hid].
      apply Z.eqb_eq in Hid. exfalso. exact (Hno r Hr Hid).
    + intros r Hu Hr Hid.
      rewrite (find_unique_id (Zpos p) _ r Hu Hr Hid). reflexivity.
Qed.

(** *** Creating, then reading *)

Lemma max_id_nonneg (l : list Sql.order) : 0 <= Sql.max_id l.
Proof. induction l as [|r l IH]; simpl; lia. Qed.

Lemma next_id_bounds (db : Sql.database) :
  0 < Sql.next_id db /\ Sql.sequence db < Sql.next_id db
  /\ (forall r, In r (Sql.rows db) -> Sql.id r < Sql.next_id db).
Proof.
  pose proof (max_id_nonneg (Sql.rows db)) as H0.
  unfold Sql.next_id. split; [lia|]. split; [lia|].
  intros r Hr. apply max_id_bound in Hr. lia.
Qed.




(** X3.  [createOrder] answers 201 or 400 and never a database error:
    what it checks is enough for the table to accept the row.  A 400
    leaves the table as it was.  With no field missing, a status outside
    the four values is answered "Invalid status" with the list of valid
    ones, whatever the quantity and the amount; with a valid status, a
    quantity or an amount that is [<= 0] is answered "Quantity and amount
    must be positive numbers". *)
Theorem createOrder_outcomes (b : fields) (now : string)
  (db : Sql.database) :
  (statusCode (fst (createOrder b now db)) = 201
   \/ statusCode (fst (createOrder b now db)) = 400)
  /\ (statusCode (fst (createOrder b now db)) = 400 ->
      snd (createOrder b now db) = db)
  /\ (absent_fields b = [] ->
      JS.includes validStatuses (status b) = false ->
      fst (createOrder b now db)
      = mkResponse 400 (ErrorStatuses "Invalid status" validStatuses))
  /\ (absent_fields b = [] ->
      JS.includes validStatuses (status b) = true ->
      JS.le_zero (quantity b) || JS.le_zero (amount b) = true ->
      fst (createOrder b now db)
      = mkResponse 400
          (Error "Quantity and amount must be positive numbers")).
Proof.
  split; [|split; [|split]].
  - destruct (create_accepts b) eqn:Ha.
    + left. rewrite (createOrder_accepts b now db Ha). reflexivity.
    + right. exact (proj1 (createOrder_rejects b now db Ha)).
  - intros H. destruct (create_accepts b) eqn:Ha.
    + rewrite (createOrder_accepts b now db Ha) in H. discriminate H.
    + exact (proj2 (createOrder_rejects b now db Ha)).
  - intros Hf Hs. apply absent_fields_nil in Hf.
    unfold createOrder. rewrite Hf, Hs. reflexivity.
  - intros Hf Hs Hm. apply absent_fields_nil in Hf.
    unfold createOrder. rewrite Hf, Hs, Hm. reflexivity.
Qed.

(** *** What an update changes *)

Lemma assign_build_updates (b : fields) (r : Sql.order) :
  Sql.assign (combine (fst (build_updates b)) (snd (build_updates b))) r
  = updated_row b r.
Proof.
  unfold build_updates, set_if, updated_row, keep_or_set. simpl.
  destruct (JS.truthy (customer_name b)), (JS.truthy (product b)),
    (JS.truthy (quantity b)), (JS.truthy (amount b)),
    (JS.truthy (status b)), (JS.truthy (order_date b));
    destruct r; reflexivity.
Qed.

Lemma update_statement_valid_id (id : string) (b : fields)
  (updates : list Sql.column) (params : list Sql.sqlval) :
  update_statement id b = inr (updates, params) -> invalid_id id = false.
Proof.
  unfold update_statement. destruct (invalid_id id); [discriminate|].
  reflexivity.
Qed.

(** The table after an update whose statement runs. *)
Lemma updateOrder_effect (id : string) (b : fields)
  (updates : list Sql.column) (params : list Sql.sqlval)
  (db : Sql.database) :
  well_formed db ->
  update_statement id b = inr (updates, params) ->
  updateOrder id b db
  = (if rows_with_id id db =? 0 then not_found else updated id,
     Sql.mkDatabase
       (map (fun r => if Sql.id_is (Sql.SText id) r
                      then updated_row b r else r) (Sql.rows db))
       (Sql.sequence db)).
Proof.
  intros Hw Hs.
  destruct (updateOrder_runs id b updates params db Hw Hs) as [db' Hr].
  unfold updateOrder. rewrite Hs, Hr.
  assert (Ed : db' = Sql.mkDatabase
                 (map (fun r => if Sql.id_is (Sql.SText id) r
                                then updated_row b r else r) (Sql.rows db))
                 (Sql.sequence db)).
  { apply update_statement_shape in Hs. destruct Hs as [-> ->].
    unfold Sql.run_update, Sql.split_last in Hr.
    rewrite removelast_last, last_last, build_updates_length, Nat.eqb_refl
      in Hr.
    simpl in Hr. destruct (forallb _ _); [|discriminate Hr].
    inversion Hr. f_equal. apply map_ext. intros r.
    rewrite assign_build_updates. reflexivity. }
  rewrite Ed. destruct (rows_with_id id db =? 0); reflexivity.
Qed.




Lemma id_is_updated_row (p : Sql.sqlval) (b : fields) (r : Sql.order) :
  Sql.id_is p (updated_row b r) = Sql.id_is p r.
Proof. reflexivity. Qed.



(** X6.  On a well-formed table [updateOrder] answers 200, 400 or 404 and
    never a database error, and the table is changed only by a 200.  A
    body in which quantity and amount are absent and no other field is
    truthy is answered 400 "No fields to update" for every numeric id,
    whatever the table holds. *)
Theorem updateOrder_outcomes (id : string) (b : fields)
  (db : Sql.database) :
  well_formed db ->
  (statusCode (fst (updateOrder id b db)) = 200
   \/ statusCode (fst (updateOrder id b db)) = 400
   \/ statusCode (fst (updateOrder id b db)) = 404)
  /\ (statusCode (fst (updateOrder id b db)) <> 200 ->
      snd (updateOrder id b db) = db)
  /\ (invalid_id id = false ->
      quantity b = JS.Undefined -> amount b = JS.Undefined ->
      JS.truthy (customer_name b) = false ->
      JS.truthy (product b) = false ->
      JS.truthy (status b) = false ->
      JS.truthy (order_date b) = false ->
      updateOrder id b db = (no_fields_to_update, db)).
Proof.
  intros Hw. split; [|split].
  - destruct (update_statement id b) as [r|[updates params]] eqn:Hs.
    + right. left. unfold updateOrder. rewrite Hs. simpl.
      exact (update_statement_status id b r Hs).
    + rewrite (updateOrder_effect id b updates params db Hw Hs). simpl.
      destruct (rows_with_id id db =? 0); simpl; auto.
  - destruct (update_statement id b) as [r|[updates params]] eqn:Hs.
    + unfold updateOrder. rewrite Hs. reflexivity.
    + rewrite (updateOrder_effect id b updates params db Hw Hs). simpl.
      destruct (rows_with_id id db =? 0) eqn:H0;
        [|intros Hne; exfalso; apply Hne; reflexivity].
      intros _. apply Z.eqb_eq in H0. unfold rows_with_id in H0.
      apply length_zero_nil in H0.
      rewrite (filter_nil_map _ _ _ _ H0). destruct db; reflexivity.
  - intros Hid Hq Ha H1 H2 H3 H4.
    unfold updateOrder, update_statement, build_updates, set_if.
    rewrite Hid, Hq, Ha, H1, H2, H3, H4. reflexivity.
Qed.

Lemma updateOrder_outcomes_witness :
  updateOrder "1" Samples.nothing Samples.db2
  = (no_fields_to_update, Samples.db2).
Proof.
  destruct (updateOrder_outcomes "1" Samples.nothing Samples.db2)
    as [_ [_ H]].
  - apply createOrder_well_formed. apply createOrder_well_formed.
    apply empty_well_formed.
  - exact (H eq_refl eq_refl eq_refl eq_refl eq_refl eq_refl eq_refl).
Defined.

(** *** What a delete removes *)

Lemma find_filter_kept (A : Type) (f g : A -> bool) (l : list A) :
  (forall r, find f l = Some r -> g r = true) ->
  find f (filter g l) = find f l.
Proof.
  induction l as [|a l IH]; simpl; intros H; [reflexivity|].
  destruct (f a) eqn:Hf.
  - rewrite (H a eq_refl). simpl. rewrite Hf. reflexivity.
  - destruct (g a); simpl; [rewrite Hf|]; apply IH; exact H.
Qed.

Lemma deleteOrder_rows (id : string) (db : Sql.database) :
  invalid_id id = false ->
  snd (deleteOrder id db)
  = Sql.mkDatabase
      (filter (fun r => negb (Sql.id_is (Sql.SText id) r)) (Sql.rows db))
      (Sql.sequence db).
Proof.
  intros Hid.
  destruct (Z.eq_dec (rows_with_id id db) 0) as [H0|H0].
  - rewrite (deleteOrder_no_row id db Hid H0). simpl.
    unfold rows_with_id in H0. apply length_zero_nil in H0.
    rewrite (filter_nil_keeps _ _ _ H0). destruct db; reflexivity.
  - rewrite (deleteOrder_some_row id db Hid H0). reflexivity.
Qed.

(** X7.  With a numeric id, [deleteOrder] answers 200 when some row has
    the id and removes exactly the rows that have it, keeping the others
    in place and the sequence of ids as it was.  Reading the id
    afterwards answers 404, and reading an order that did not have the
    deleted id answers what it answered before; in particular deleting
    order [n] changes nothing to the reading of any other order [m]. *)
Theorem deleteOrder_removes_only_that_order
  (id : string) (db : Sql.database) :
  invalid_id id = false ->
  (rows_with_id id db <> 0 -> fst (deleteOrder id db) = deleted id)
  /\ Sql.rows (snd (deleteOrder id db))
     = filter (fun r => negb (Sql.id_is (Sql.SText id) r)) (Sql.rows db)
  /\ Sql.sequence (snd (deleteOrder id db)) = Sql.sequence db
  /\ getOrderById id (snd (deleteOrder id db)) = not_found
  /\ (forall id',
        (forall r, getOrderById id' db = mkResponse 200 (Row r) ->
                   Sql.id_is (Sql.SText id) r = false) ->
        getOrderById id' (snd (deleteOrder id db)) = getOrderById id' db)
  /\ (forall n m : BinNums.positive,
        id = decimal_text (Zpos n) -> n <> m ->
        getOrderById (decimal_text (Zpos m)) (snd (deleteOrder id db))
        = getOrderById (decimal_text (Zpos m)) db).
Proof.
  intros Hid.
  assert (Hother : forall id',
            (forall r, getOrderById id' db = mkResponse 200 (Row r) ->
                       Sql.id_is (Sql.SText id) r = false) ->
            getOrderById id' (snd (deleteOrder id db))
            = getOrderById id' db).
  { intros id' Hr. rewrite (deleteOrder_rows id db Hid).
    unfold getOrderById in *. destruct (invalid_id id'); [reflexivity|].
    simpl in *. rewrite find_filter_kept; [reflexivity|].
    intros r Hf. rewrite Hf in Hr. rewrite (Hr r eq_refl). reflexivity. }
  split; [|split; [|split; [|split; [|split]]]].
  - intros H0. rewrite (deleteOrder_some_row id db Hid H0). reflexivity.
  - rewrite (deleteOrder_rows id db Hid). reflexivity.
  - rewrite (deleteOrder_rows id db Hid). reflexivity.
  - rewrite (deleteOrder_rows id db Hid).
    rewrite (getOrderById_valid id _ Hid). simpl.
    destruct (find _ _) as [r|] eqn:Hf; [|reflexivity].
    apply find_some in Hf. destruct Hf as [Hin Hr].
    apply filter_In in Hin. destruct Hin as [_ Hn].
    rewrite Hr in Hn. discriminate Hn.
  - exact Hother.
  - intros n m -> Hnm. apply Hother. intros r Hr.
    rewrite (getOrderById_valid _ db (invalid_id_decimal_text m)) in Hr.
    destruct (find _ _) as [x|] eqn:Hf; [|discriminate Hr].
    inversion Hr. subst x. apply find_some in Hf. destruct Hf as [_ Hm].
    rewrite id_is_decimal_text in Hm |- *. apply Z.eqb_eq in Hm.
    apply Z.eqb_neq. rewrite Hm. congruence.
Qed.

Lemma deleteOrder_removes_only_that_order_witness :
  Sql.rows (snd (deleteOrder "1" Samples.db2))
  = [stored_row Samples.bob Samples.now Samples.db1]
  /\ getOrderById "2" (snd (deleteOrder "1" Samples.db2))
     = getOrderById "2" Samples.db2.
Proof.
  destruct (deleteOrder_removes_only_that_order "1" Samples.db2 eq_refl)
    as [_ [H [_ [_ [_ Hm]]]]].
  split.
  - rewrite H. reflexivity.
  - apply (Hm 1%positive 2%positive eq_refl). discriminate.
Defined.

(** *** Validation of the filters *)

Lemma build_where_steps (q : query) :
  build_where q
  = if negb (status_filter_ok q) then inl invalid_status_filter
    else if negb (amount_filter_ok (q_minAmount q))
    then inl (invalid_amount_filter "minAmount")
    else if negb (amount_filter_ok (q_maxAmount q))
    then inl (invalid_amount_filter "maxAmount")
    else inr (map fst (conjuncts q), map snd (conjuncts q)).
Proof.
  destruct (build_where q) as [r|w] eqn:Hw.
  - revert Hw.
    unfold build_where, bind_step, filter_status, filter_minAmount,
      filter_maxAmount, filter_startDate, filter_endDate,
      status_filter_ok, amount_filter_ok.
    destruct (given (q_status q)) as [s1|].
    + destruct (JS.includes validStatuses (JS.Str s1)); simpl;
        [|intros H; inversion H; reflexivity].
      destruct (given (q_minAmount q)) as [s2|].
      * destruct (JS.isNaN_number (JS.parseFloat s2)
                  || JS.lt (JS.parseFloat s2) JS.zero); simpl;
          [intros H; inversion H; reflexivity|].
        destruct (given (q_maxAmount q)) as [s3|].
        -- destruct (JS.isNaN_number (JS.parseFloat s3)
                     || JS.lt (JS.parseFloat s3) JS.zero); simpl;
             [intros H; inversion H; reflexivity|].
           destruct (given (q_startDate q)), (given (q_endDate q));
             discriminate.
        -- destruct (given (q_startDate q)), (given (q_endDate q));
             discriminate.
      * destruct (given (q_maxAmount q)) as [s3|].
        -- destruct (JS.isNaN_number (JS.parseFloat s3)
                     || JS.lt (JS.parseFloat s3) JS.zero); simpl;
             [intros H; inversion H; reflexivity|].
           destruct (given (q_startDate q)), (given (q_endDate q));
             discriminate.
        -- destruct (given (q_startDate q)), (given (q_endDate q));
             discriminate.
    + simpl. destruct (given (q_minAmount q)) as [s2|].
      * destruct (JS.isNaN_number (JS.parseFloat s2)
                  || JS.lt (JS.parseFloat s2) JS.zero); simpl;
          [intros H; inversion H; reflexivity|].
        destruct (given (q_maxAmount q)) as [s3|].
        -- destruct (JS.isNaN_number (JS.parseFloat s3)
                     || JS.lt (JS.parseFloat s3) JS.zero); simpl;
             [intros H; inversion H; reflexivity|].
           destruct (given (q_startDate q)), (given (q_endDate q));
             discriminate.
        -- destruct (given (q_startDate q)), (given (q_endDate q));
             discriminate.
      * destruct (given (q_maxAmount q)) as [s3|].
        -- destruct (JS.isNaN_number (JS.parseFloat s3)
                     || JS.lt (JS.parseFloat s3) JS.zero); simpl;
             [intros H; inversion H; reflexivity|].
           destruct (given (q_startDate q)), (given (q_endDate q));
             discriminate.
        -- destruct (given (q_startDate q)), (given (q_endDate q));
             discriminate.
  - rewrite (build_where_conjuncts q w Hw). revert Hw.
    unfold build_where, bind_step, filter_status, filter_minAmount,
      filter_maxAmount, status_filter_ok, amount_filter_ok.
    destruct (given (q_status q)) as [s1|];
      [destruct (JS.includes validStatuses (JS.Str s1)); simpl;
       [|discriminate]|simpl];
      (destruct (given (q_minAmount q)) as [s2|];
       [destruct (JS.isNaN_number (JS.parseFloat s2)
                  || JS.lt (JS.parseFloat s2) JS.zero); simpl;
        [discriminate|]|simpl]);
      (destruct (given (q_maxAmount q)) as [s3|];
       [destruct (JS.isNaN_number (JS.parseFloat s3)
                  || JS.lt (JS.parseFloat s3) JS.zero); simpl;
        [discriminate|]|simpl]);
      reflexivity.
Qed.

(** X8.  Once the pagination parameters are accepted, [getOrders] checks
    the filters in the order status, minAmount, maxAmount and answers
    with the first failure: "Invalid status filter" for a status outside
    the four values, "Invalid minAmount parameter" (then "Invalid
    maxAmount parameter") for an amount that [parseFloat] does not read
    or reads as negative.  startDate and endDate are never rejected: when
    the three checks pass the data query is run, and the answer is a
    listing with status 200, or the database error 500 when the offset
    of the page is not an integer the engine takes. *)
Theorem getOrders_filter_validation (q : query) (db : Sql.database) :
  pagination_ok q = true ->
  (status_filter_ok q = false -> getOrders q db = invalid_status_filter)
  /\ (status_filter_ok q = true ->
      amount_filter_ok (q_minAmount q) = false ->
      getOrders q db = invalid_amount_filter "minAmount")
  /\ (status_filter_ok q = true ->
      amount_filter_ok (q_minAmount q) = true ->
      amount_filter_ok (q_maxAmount q) = false ->
      getOrders q db = invalid_amount_filter "maxAmount")
  /\ (status_filter_ok q = true ->
      amount_filter_ok (q_minAmount q) = true ->
      amount_filter_ok (q_maxAmount q) = true ->
      valid_request q = true
      /\ if Sql.is_int64 (offset_of q)
         then exists data pg,
                getOrders q db = mkResponse 200 (Listing data pg)
         else getOrders q db = offset_error).
Proof.
  intros Hp.
  split; [|split; [|split]].
  - rewrite (getOrders_valid q db Hp), build_where_steps.
    intros ->. reflexivity.
  - rewrite (getOrders_valid q db Hp), build_where_steps.
    intros -> ->. reflexivity.
  - rewrite (getOrders_valid q db Hp), build_where_steps.
    intros -> -> ->. reflexivity.
  - intros H1 H2 H3.
    assert (Hv : valid_request q = true).
    { unfold valid_request, filters_ok.
      rewrite Hp, build_where_steps, H1, H2, H3. reflexivity. }
    split; [exact Hv|].
    rewrite (getOrders_answer q db Hv).
    destruct (Sql.is_int64 (offset_of q)); [|reflexivity].
    eexists. eexists. reflexivity.
Qed.

Lemma getOrders_filter_validation_witness :
  getOrders (mkQuery None None (Some "shipped"%string) (Some "-1"%string)
                     None None None) Samples.db2
  = invalid_status_filter
  /\ getOrders (mkQuery None None None (Some "-1"%string)
                        (Some "abc"%string) None None) Samples.db2
     = invalid_amount_filter "minAmount".
Proof.
  split.
  - exact (proj1 (getOrders_filter_validation
                    (mkQuery None None (Some "shipped"%string)
                             (Some "-1"%string) None None None)
                    Samples.db2 eq_refl) eq_refl).
  - exact (proj1 (proj2 (getOrders_filter_validation
                    (mkQuery None None None (Some "-1"%string)
                             (Some "abc"%string) None None)
                    Samples.db2 eq_refl)) eq_refl eq_refl).
Defined.

(** *** Walking the pages *)

Lemma to_double_exact_le (n : Z) :
  Z.abs n <= 2 ^ 53 -> JS.to_double n = n.
Proof.
  intros H. destruct (Z.eq_dec (Z.abs n) (2 ^ 53)) as [E|E].
  - destruct (Z.abs_eq_or_opp n) as [Hn|Hn]; rewrite Hn in E.
    + rewrite E. vm_compute. reflexivity.
    + replace n with (- 2 ^ 53) by lia. vm_compute. reflexivity.
  - apply to_double_exact. lia.
Qed.

Lemma to_double_positive (n : Z) : 1 <= n -> 1 <= JS.to_double n.
Proof.
  intros H. destruct (Z.lt_ge_cases n (2 ^ 53)) as [Hs|Hs].
  - rewrite to_double_exact by lia. exact H.
  - pose proof (to_double_large n Hs). assert (1 < 2 ^ 53) by reflexivity.
    lia.
Qed.

Lemma or_default_positive (v d : Z) :
  1 <= v -> JS.or_default (Some v) d = v.
Proof. intros H. destruct v; [lia|reflexivity|lia]. Qed.

(** A page written in decimal is read as the double nearest to it. *)
Lemma page_of_at_page (q : query) (p : BinNums.positive) :
  page_of (at_page q (Zpos p)) = JS.to_double (Zpos p).
Proof.
  unfold page_of, at_page, parseInt_param. cbn [q_page].
  rewrite parseInt_decimal_text. apply or_default_positive.
  apply to_double_positive. lia.
Qed.

Lemma valid_request_at_page (q : query) (p : BinNums.positive) :
  valid_request q = true -> valid_request (at_page q (Zpos p)) = true.
Proof.
  unfold valid_request, pagination_ok. rewrite page_of_at_page.
  change (limit_of (at_page q (Zpos p))) with (limit_of q).
  change (filters_ok (at_page q (Zpos p))) with (filters_ok q).
  rewrite !andb_true_iff, !Z.leb_le. intros [[[_ H1] H2] H3].
  repeat split; try assumption. apply to_double_positive. lia.
Qed.

(** The offset of a page far away is far away. *)
Lemma offset_at_far (n l : Z) :
  1 <= n -> 1 <= l -> 2 ^ 53 <= (n - 1) * l ->
  2 ^ 53 - 1 <= offset_at (JS.to_double n) l.
Proof.
  intros Hn Hl H.
  destruct (Z.le_gt_cases n (2 ^ 53)) as [Hs|Hs].
  - rewrite to_double_exact_le by lia.
    pose proof (offset_at_large n l Hn Hl H). lia.
  - assert (Hd : 2 ^ 53 <= JS.to_double n) by (apply to_double_large; lia).
    assert (0 < 2 ^ 53) by reflexivity.
    destruct (Z.lt_ge_cases ((JS.to_double n - 1) * l) (2 ^ 53)) as [He|He].
    + rewrite offset_at_exact by lia. nia.
    + pose proof (offset_at_large (JS.to_double n) l ltac:(lia) Hl He). lia.
Qed.

Lemma chunks_concat (A : Type) (k : nat) (l : list A) (n : nat) :
  (List.length l <= n * k)%nat ->
  List.concat (map (fun i => firstn k (skipn (i * k) l)) (seq 0 n)) = l.
Proof.
  revert l. induction n as [|n IH]; intros l Hl.
  - destruct l; [reflexivity|simpl in Hl; lia].
  - rewrite <- cons_seq, <- seq_shift, map_cons, map_map. simpl List.concat.
    transitivity (firstn k l ++ skipn k l); [|apply firstn_skipn].
    f_equal. rewrite <- (IH (skipn k l)).
    + f_equal. apply map_ext. intros i. rewrite skipn_skipn.
      f_equal. f_equal. lia.
    + rewrite length_skipn. simpl in Hl. lia.
Qed.

Lemma data_at_page (q : query) (db : Sql.database) (i : nat) :
  valid_request q = true -> total_of q db < 2 ^ 53 ->
  data_of (getOrders (at_page q (Z.of_nat (S i))) db)
  = firstn (Z.to_nat (limit_of q))
           (skipn (i * Z.to_nat (limit_of q))
                  (Sql.order_by (matching q db))).
Proof.
  intros Hv Ht.
  assert (Hb : 1 <= page_of q /\ 1 <= limit_of q <= 100).
  { apply pagination_ok_bounds. unfold valid_request in Hv.
    apply andb_true_iff in Hv. tauto. }
  destruct Hb as [_ Hl].
  change (Z.of_nat (S i)) with (Zpos (Pos.of_succ_nat i)).
  set (p := Pos.of_succ_nat i).
  assert (Hp : Zpos p = Z.of_nat i + 1)
    by (unfold p; rewrite Zpos_P_of_succ_nat; lia).
  rewrite (getOrders_answer _ db (valid_request_at_page q p Hv)).
  unfold offset_of. rewrite page_of_at_page.
  change (limit_of (at_page q (Zpos p))) with (limit_of q).
  change (matching (at_page q (Zpos p)) db) with (matching q db).
  change (total_of (at_page q (Zpos p)) db) with (total_of q db).
  assert (H53 : 0 < 2 ^ 53) by reflexivity.
  destruct (Z.lt_ge_cases (Z.of_nat i * limit_of q) (2 ^ 53)) as [Hs|Hs].
  - assert (Hle : Zpos p <= 2 ^ 53) by nia.
    rewrite (to_double_exact_le (Zpos p)) by lia.
    assert (Hx : (Zpos p - 1) * limit_of q < 2 ^ 53)
      by (rewrite Hp; replace (Z.of_nat i + 1 - 1) with (Z.of_nat i) by lia;
          exact Hs).
    rewrite offset_at_int64 by (lia || assumption).
    rewrite offset_at_exact by (lia || assumption).
    unfold data_of. cbn [body].
    rewrite slice_valid by lia. f_equal. f_equal.
    rewrite Hp. replace (Z.of_nat i + 1 - 1) with (Z.of_nat i) by lia.
    rewrite Z2Nat.inj_mul by lia. rewrite Nat2Z.id. reflexivity.
  - assert (Hlen : (List.length (Sql.order_by (matching q db))
                    <= i * Z.to_nat (limit_of q))%nat).
    { rewrite order_by_length. unfold total_of in Ht.
      apply Nat2Z.inj_le. rewrite Nat2Z.inj_mul, Z2Nat.id by lia. lia. }
    rewrite (skipn_all2 _ Hlen), firstn_nil.
    destruct (Sql.is_int64 _); [|reflexivity].
    unfold data_of. cbn [body].
    rewrite slice_valid by lia.
    rewrite skipn_all2; [apply firstn_nil|].
    rewrite order_by_length. unfold total_of in Ht.
    pose proof (offset_at_far (Zpos p) (limit_of q) ltac:(lia) ltac:(lia))
      as Hfar.
    rewrite Hp in Hfar at 1.
    replace (Z.of_nat i + 1 - 1) with (Z.of_nat i) in Hfar by lia.
    specialize (Hfar Hs). lia.
Qed.

(** X9.  For a request that passes validation, the pages 1, 2, ... up to
    [totalPages] (or beyond), asked with the same limit and the same
    filters on the same table, put end to end give every matching order
    exactly once, in the order of the listing (the matches being fewer
    than [2 ^ 53], the range in which a page number and its offset are
    exact). *)
Theorem pages_cover_the_matches (q : query) (db : Sql.database) (n : nat) :
  valid_request q = true ->
  total_of q db < 2 ^ 53 ->
  Math_ceil_div (total_of q db) (limit_of q) <= Z.of_nat n ->
  List.concat
    (map (fun i => data_of (getOrders (at_page q (Z.of_nat (S i))) db))
         (seq 0 n))
  = Sql.order_by (matching q db).
Proof.
  intros Hv Ht Hn.
  assert (Hb : 1 <= page_of q /\ 1 <= limit_of q <= 100).
  { apply pagination_ok_bounds. unfold valid_request in Hv.
    apply andb_true_iff in Hv. tauto. }
  destruct Hb as [_ Hl].
  rewrite <- (chunks_concat _ (Z.to_nat (limit_of q))
                (Sql.order_by (matching q db)) n).
  - f_equal. apply map_ext. intros i. apply data_at_page; assumption.
  - rewrite order_by_length.
    assert (Hc : is_ceiling (Math_ceil_div (total_of q db) (limit_of q))
                            (total_of q db) (limit_of q))
      by (apply ceil_div_is_ceiling; lia).
    unfold is_ceiling, total_of in *. nia.
Qed.

Lemma pages_cover_the_matches_witness :
  List.concat
    (map (fun i =>
            data_of (getOrders (at_page (Samples.paged None (Some "2"%string))
                                        (Z.of_nat (S i))) Samples.db3))
         (seq 0 2))
  = Sql.order_by (matching (Samples.paged None (Some "2"%string))
                           Samples.db3).
Proof.
  apply pages_cover_the_matches; [reflexivity|reflexivity|].
  vm_compute. discriminate.
Defined.

(** *** Any sequence of requests *)

Lemma getOrders_response (q : query) (db : Sql.database) :
  created_id (getOrders q db) = None
  /\ if out_of_range (GET_orders q)
     then getOrders q db = offset_error
     else expected_status (getOrders q db) = true.
Proof.
  unfold out_of_range. destruct (valid_request q) eqn:Hv.
  - rewrite (getOrders_answer q db Hv).
    destruct (Sql.is_int64 (offset_of q)); split; reflexivity.
  - cbn [andb]. unfold valid_request, filters_ok in Hv.
    destruct (pagination_ok q) eqn:Hp.
    + rewrite (getOrders_valid q db Hp), build_where_steps in *.
      destruct (negb (status_filter_ok q)); [split; reflexivity|].
      destruct (negb (amount_filter_ok (q_minAmount q)));
        [split; reflexivity|].
      destruct (negb (amount_filter_ok (q_maxAmount q)));
        [split; reflexivity|discriminate Hv].
    + rewrite (getOrders_pagination q db Hp). split; reflexivity.
Qed.

Lemma getOrderById_response (id : string) (db : Sql.database) :
  created_id (getOrderById id db) = None
  /\ expected_status (getOrderById id db) = true.
Proof.
  unfold getOrderById. destruct (invalid_id id); [split; reflexivity|].
  destruct (Sql.get_by_id _ db); split; reflexivity.
Qed.

Lemma update_statement_response (id : string) (b : fields) (r : response) :
  update_statement id b = inl r ->
  created_id r = None /\ expected_status r = true.
Proof.
  unfold update_statement.
  destruct (invalid_id id); [intros H; inversion H; split; reflexivity|].
  destruct (JS.truthy (status b) && _);
    [intros H; inversion H; split; reflexivity|].
  destruct (_ || _); [intros H; inversion H; split; reflexivity|].
  destruct (build_updates b) as [updates params].
  destruct (List.length updates =? 0)%nat; intros H; inversion H.
  split; reflexivity.
Qed.

Lemma run_update_sequence (updates : list Sql.column)
  (params : list Sql.sqlval) (db db' : Sql.database) (i k : Z) :
  Sql.run_update updates params db = Sql.RunDone i k db' ->
  Sql.sequence db' = Sql.sequence db.
Proof.
  unfold Sql.run_update. destruct (Sql.split_last params) as [vals p_id].
  destruct (negb _); [discriminate|].
  destruct (forallb _ _); [|discriminate].
  intros H. inversion H. reflexivity.
Qed.

Lemma updateOrder_response (id : string) (b : fields) (db : Sql.database) :
  created_id (fst (updateOrder id b db)) = None
  /\ Sql.sequence (snd (updateOrder id b db)) = Sql.sequence db
  /\ (well_formed db -> expected_status (fst (updateOrder id b db)) = true).
Proof.
  destruct (update_statement id b) as [r|[updates params]] eqn:Hs.
  - unfold updateOrder. rewrite Hs. simpl.
    destruct (update_statement_response id b r Hs) as [H1 H2].
    split; [exact H1|]. split; [reflexivity|]. intros _. exact H2.
  - split; [|split].
    + unfold updateOrder. rewrite Hs.
      destruct (Sql.run_update updates params db) as [m|i k db'];
        [reflexivity|]. destruct (k =? 0); reflexivity.
    + unfold updateOrder. rewrite Hs.
      destruct (Sql.run_update updates params db) as [m|i k db'] eqn:Hr;
        [reflexivity|].
      apply run_update_sequence in Hr.
      destruct (k =? 0); exact Hr.
    + intros Hw.
      rewrite (updateOrder_effect id b updates params db Hw Hs). simpl.
      destruct (rows_with_id id db =? 0); reflexivity.
Qed.

Lemma deleteOrder_response (id : string) (db : Sql.database) :
  created_id (fst (deleteOrder id db)) = None
  /\ Sql.sequence (snd (deleteOrder id db)) = Sql.sequence db
  /\ expected_status (fst (deleteOrder id db)) = true.
Proof.
  unfold deleteOrder. destruct (invalid_id id); [repeat split|].
  simpl. destruct (_ =? 0); repeat split.
Qed.

Lemma createOrder_response (b : fields) (now : string)
  (db : Sql.database) :
  expected_status (fst (createOrder b now db)) = true
  /\ match created_id (fst (createOrder b now db)) with
     | Some n => Sql.sequence db < n
                 /\ Sql.sequence (snd (createOrder b now db)) = n
     | None => snd (createOrder b now db) = db
     end.
Proof.
  destruct (create_accepts b) eqn:Ha.
  - rewrite (createOrder_accepts b now db Ha). simpl.
    split; [reflexivity|]. split; [|reflexivity].
    exact (proj1 (proj2 (next_id_bounds db))).
  - destruct (createOrder_rejects b now db Ha) as [H400 Hdb].
    split.
    + unfold expected_status. rewrite H400. reflexivity.
    + revert H400 Hdb. unfold createOrder.
      destruct (_ || _); [intros _ _; reflexivity|].
      destruct (negb _); [intros _ _; reflexivity|].
      destruct (_ || _); [intros _ _; reflexivity|].
      destruct (Sql.run_insert _ now db); simpl;
        [intros _ _; reflexivity|discriminate].
Qed.

(** What one request does to the sequence of ids. *)
Lemma handle_sequence (rq : request) (db : Sql.database) :
  match created_id (fst (handle rq db)) with
  | Some n => Sql.sequence db < n /\ Sql.sequence (snd (handle rq db)) = n
  | None => Sql.sequence (snd (handle rq db)) = Sql.sequence db
  end.
Proof.
  destruct rq as [b now|q|id|id b|id]; simpl.
  - pose proof (proj2 (createOrder_response b now db)) as H.
    destruct (created_id (fst (createOrder b now db)));
      [exact H|rewrite H; reflexivity].
  - rewrite (proj1 (getOrders_response q db)). reflexivity.
  - rewrite (proj1 (getOrderById_response id db)). reflexivity.
  - destruct (updateOrder_response id b db) as [H1 [H2 _]].
    rewrite H1. exact H2.
  - destruct (deleteOrder_response id db) as [H1 [H2 _]].
    rewrite H1. exact H2.
Qed.

Lemma serve_cons (rq : request) (rqs : list request) (db : Sql.database) :
  serve (rq :: rqs) db
  = (fst (handle rq db) :: fst (serve rqs (snd (handle rq db))),
     snd (serve rqs (snd (handle rq db)))).
Proof.
  simpl. destruct (handle rq db) as [r db']. simpl.
  destruct (serve rqs db') as [rs db'']. reflexivity.
Qed.

Lemma created_ids_above (rqs : list request) (db : Sql.database) :
  Forall (fun n => Sql.sequence db < n) (created_ids (fst (serve rqs db)))
  /\ Sql.sequence db <= Sql.sequence (snd (serve rqs db)).
Proof.
  revert db. induction rqs as [|rq rqs IH]; intros db.
  - simpl. split; [constructor|lia].
  - rewrite serve_cons. simpl.
    destruct (IH (snd (handle rq db))) as [Hids Hseq].
    pose proof (handle_sequence rq db) as Hh.
    destruct (created_id (fst (handle rq db))) as [n|].
    + destruct Hh as [Hlt Heq]. split; [|lia].
      constructor; [exact Hlt|].
      apply Forall_impl with (2 := Hids). intros m Hm. lia.
    + split; [|lia].
      apply Forall_impl with (2 := Hids). intros m Hm. lia.
Qed.

Lemma increasing_nodup (l : list Z) : StronglySorted Z.lt l -> NoDup l.
Proof.
  induction 1 as [|a l Hl IH Ha]; constructor; [|exact IH].
  intros Hin. rewrite Forall_forall in Ha. specialize (Ha a Hin). lia.
Qed.

(** X10.  Whatever requests are handled, one after the other, the ids
    announced by the successful creations come in strictly increasing
    order, each above every id given out before: an id is never given
    twice, not even after the order that had it was deleted. *)
Theorem created_ids_never_reused (rqs : list request) (db : Sql.database) :
  StronglySorted Z.lt (created_ids (fst (serve rqs db)))
  /\ NoDup (created_ids (fst (serve rqs db)))
  /\ Forall (fun n => Sql.sequence db < n) (created_ids (fst (serve rqs db)))
  /\ Sql.sequence db <= Sql.sequence (snd (serve rqs db)).
Proof.
  assert (Hs : forall rqs db,
             StronglySorted Z.lt (created_ids (fst (serve rqs db)))).
  { clear. induction rqs as [|rq rqs IH]; intros db.
    - constructor.
    - rewrite serve_cons. simpl.
      pose proof (handle_sequence rq db) as Hh.
      destruct (created_id (fst (handle rq db))) as [n|]; [|apply IH].
      constructor; [apply IH|]. destruct Hh as [_ Heq].
      pose proof (proj1 (created_ids_above rqs (snd (handle rq db)))) as Ha.
      rewrite Heq in Ha. exact Ha. }
  split; [apply Hs|]. split; [apply increasing_nodup, Hs|].
  apply created_ids_above.
Qed.

Lemma handle_well_formed (rq : request) (db : Sql.database) :
  well_formed db ->
  well_formed (snd (handle rq db))
  /\ if out_of_range rq then fst (handle rq db) = offset_error
     else expected_status (fst (handle rq db)) = true.
Proof.
  intros Hw. destruct rq as [b now|q|id|id b|id];
    cbn [handle fst snd]; try cbn [out_of_range].
  - split; [apply createOrder_well_formed; exact Hw|].
    exact (proj1 (createOrder_response b now db)).
  - split; [exact Hw|]. exact (proj2 (getOrders_response q db)).
  - split; [exact Hw|]. exact (proj2 (getOrderById_response id db)).
  - split; [apply updateOrder_well_formed; exact Hw|].
    exact (proj2 (proj2 (updateOrder_response id b db)) Hw).
  - split; [apply deleteOrder_well_formed; exact Hw|].
    exact (proj2 (proj2 (deleteOrder_response id db))).
Qed.

(** X11.  Starting from a well-formed table (unique ids, no NULL in the
    six columns, a status among the four), any sequence of requests
    leaves the table well formed.  A listing that passes validation and
    asks for a page whose offset is not an integer the engine takes is
    answered with the database error 500; every other request is
    answered 200, 201, 400 or 404: creating, reading one order, updating
    and deleting never meet a database error.  The empty table is well
    formed. *)
Theorem serve_keeps_table_well_formed
  (rqs : list request) (db : Sql.database) :
  well_formed db ->
  well_formed (snd (serve rqs db))
  /\ Forall2 (fun rq r => if out_of_range rq then r = offset_error
                          else expected_status r = true)
             rqs (fst (serve rqs db)).
Proof.
  revert db. induction rqs as [|rq rqs IH]; intros db Hw.
  - simpl. split; [exact Hw|constructor].
  - rewrite serve_cons. cbn [fst snd].
    destruct (handle_well_formed rq db Hw) as [Hw' Hst].
    destruct (IH _ Hw') as [H1 H2].
    split; [exact H1|]. constructor; assumption.
Qed.

Lemma serve_keeps_table_well_formed_witness :
  well_formed
    (snd (serve [POST_orders Samples.alice Samples.now;
                 PUT_orders_id "1" Samples.complete;
                 GET_orders (Samples.paged
                               (Some "1000000000000000000"%string) None);
                 DELETE_orders_id "1";
                 POST_orders Samples.bob Samples.now] Sql.empty)).
Proof.
  exact (proj1 (serve_keeps_table_well_formed
                  [POST_orders Samples.alice Samples.now;
                   PUT_orders_id "1" Samples.complete;
                   GET_orders (Samples.paged
                                 (Some "1000000000000000000"%string) None);
                   DELETE_orders_id "1";
                   POST_orders Samples.bob Samples.now]
                  Sql.empty empty_well_formed)).
Defined.

(** *** Counting by status *)

Lemma count_split (A : Type) (P : A -> Prop) (g f1 f2 f3 f4 : A -> bool)
  (l : list A) :
  Forall P l ->
  (forall x, P x ->
     Nat.b2n (g x)
     = (Nat.b2n (f1 x) + Nat.b2n (f2 x) + Nat.b2n (f3 x) + Nat.b2n (f4 x))
       %nat) ->
  List.length (filter g l)
  = (List.length (filter f1 l) + List.length (filter f2 l)
     + List.length (filter f3 l) + List.length (filter f4 l))%nat.
Proof.
  intros Hl Hx. induction Hl as [|x l Hpx Hl IH]; simpl; [reflexivity|].
  specialize (Hx x Hpx).
  destruct (g x), (f1 x), (f2 x), (f3 x), (f4 x); simpl in *;
    try discriminate Hx; lia.
Qed.

Lemma status_of_row (r : Sql.order) :
  Sql.constraints_ok r = true ->
  exists s, Sql.o_status r = Sql.SText s /\ In s validStatuses.
Proof.
  unfold Sql.constraints_ok. intros H. apply andb_true_iff in H.
  destruct H as [_ H]. unfold Sql.check_status in H.
  destruct (Sql.o_status r) as [|n|s]; try discriminate H.
  exists s. split; [reflexivity|].
  apply existsb_exists in H. destruct H as [x [Hx Hs]].
  apply String.eqb_eq in Hs. subst x. exact Hx.
Qed.

Lemma total_of_by_status (q : query) (db : Sql.database) :
  well_formed db ->
  total_of (with_status q None) db
  = total_of (with_status q (Some "pending"%string)) db
    + total_of (with_status q (Some "processing"%string)) db
    + total_of (with_status q (Some "completed"%string)) db
    + total_of (with_status q (Some "cancelled"%string)) db.
Proof.
  intros [_ Hc]. unfold total_of, matching.
  rewrite (count_split _ (fun r => Sql.constraints_ok r = true)
             (satisfies (conjuncts (with_status q None)))
             (satisfies (conjuncts (with_status q (Some "pending"%string))))
             (satisfies
                (conjuncts (with_status q (Some "processing"%string))))
             (satisfies
                (conjuncts (with_status q (Some "completed"%string))))
             (satisfies
                (conjuncts (with_status q (Some "cancelled"%string))))
             (Sql.rows db) Hc).
  - lia.
  - intros r Hr. destruct (status_of_row r Hr) as [s [Hs Hin]].
    change (conjuncts (with_status q (Some "pending"%string)))
      with ((Sql.mkCondition Sql.status Sql.OpEq, Sql.SText "pending")
            :: conjuncts (with_status q None)).
    change (conjuncts (with_status q (Some "processing"%string)))
      with ((Sql.mkCondition Sql.status Sql.OpEq, Sql.SText "processing")
            :: conjuncts (with_status q None)).
    change (conjuncts (with_status q (Some "completed"%string)))
      with ((Sql.mkCondition Sql.status Sql.OpEq, Sql.SText "completed")
            :: conjuncts (with_status q None)).
    change (conjuncts (with_status q (Some "cancelled"%string)))
      with ((Sql.mkCondition Sql.status Sql.OpEq, Sql.SText "cancelled")
            :: conjuncts (with_status q None)).
    unfold satisfies at 2 3 4 5. cbn [forallb fst snd Sql.cond_op
      Sql.cond_column Sql.get]. fold (satisfies (conjuncts (with_status q None)) r).
    rewrite Hs.
    destruct (satisfies (conjuncts (with_status q None)) r);
      simpl in Hin;
      destruct Hin as [<-|[<-|[<-|[<-|[]]]]]; reflexivity.
Qed.

(** A status filter among the four values does not change whether a
    request passes validation. *)
Lemma valid_request_with_status (q : query) (s : string) :
  In s validStatuses ->
  valid_request (with_status q None) = true ->
  valid_request (with_status q (Some s)) = true.
Proof.
  intros Hs. unfold valid_request, filters_ok.
  change (pagination_ok (with_status q (Some s)))
    with (pagination_ok (with_status q None)).
  destruct (pagination_ok (with_status q None)); [|discriminate].
  cbn [andb]. rewrite !build_where_steps.
  change (amount_filter_ok (q_minAmount (with_status q (Some s))))
    with (amount_filter_ok (q_minAmount (with_status q None))).
  change (amount_filter_ok (q_maxAmount (with_status q (Some s))))
    with (amount_filter_ok (q_maxAmount (with_status q None))).
  assert (E : status_filter_ok (with_status q (Some s)) = true).
  { simpl in Hs.
    destruct Hs as [<-|[<-|[<-|[<-|[]]]]]; reflexivity. }
  rewrite E. cbn [negb].
  destruct (negb (status_filter_ok (with_status q None)));
    [discriminate|].
  destruct (negb (amount_filter_ok (q_minAmount (with_status q None))));
    [discriminate|].
  destruct (negb (amount_filter_ok (q_maxAmount (with_status q None))));
    [discriminate|reflexivity].
Qed.

Lemma listed_total_valid (q : query) (v : option string)
  (db : Sql.database) :
  valid_request (with_status q v) = true ->
  Sql.is_int64 (offset_of q) = true ->
  statusCode (getOrders (with_status q v) db) = 200
  /\ listed_total q v db = total_of (with_status q v) db.
Proof.
  intros Hv Ho. unfold listed_total.
  rewrite (getOrders_listing _ db Hv Ho). split; reflexivity.
Qed.

(** X12.  On a well-formed table, take a listing without a status filter
    that is answered 200.  The same listing asked with [status=pending],
    [status=processing], [status=completed] and [status=cancelled], the
    page, the limit and the other filters being the same, is answered
    200 each time, and the four [totalOrders] add up to the
    [totalOrders] of the listing without a status filter: every order is
    counted under exactly one status. *)
Theorem status_counts_add_up (q : query) (db : Sql.database) :
  well_formed db ->
  statusCode (getOrders (with_status q None) db) = 200 ->
  Forall (fun s =>
            statusCode (getOrders (with_status q (Some s)) db) = 200)
         validStatuses
  /\ listed_total q None db
     = listed_total q (Some "pending"%string) db
       + listed_total q (Some "processing"%string) db
       + listed_total q (Some "completed"%string) db
       + listed_total q (Some "cancelled"%string) db.
Proof.
  intros Hw H200.
  destruct (getOrders_ok_valid _ db H200) as [Hv Ho].
  change (offset_of (with_status q None)) with (offset_of q) in Ho.
  assert (Hs : forall s, In s validStatuses ->
             statusCode (getOrders (with_status q (Some s)) db) = 200
             /\ listed_total q (Some s) db
                = total_of (with_status q (Some s)) db).
  { intros s Hin. apply listed_total_valid; [|exact Ho].
    apply valid_request_with_status; assumption. }
  split.
  - apply Forall_forall. intros s Hin. exact (proj1 (Hs s Hin)).
  - rewrite (proj2 (listed_total_valid q None db Hv Ho)).
    rewrite (proj2 (Hs "pending"%string ltac:(simpl; tauto))).
    rewrite (proj2 (Hs "processing"%string ltac:(simpl; tauto))).
    rewrite (proj2 (Hs "completed"%string ltac:(simpl; tauto))).
    rewrite (proj2 (Hs "cancelled"%string ltac:(simpl; tauto))).
    apply total_of_by_status. exact Hw.
Qed.

Lemma status_counts_add_up_witness :
  listed_total Samples.no_query None Samples.db3
  = listed_total Samples.no_query (Some "pending"%string) Samples.db3
    + listed_total Samples.no_query (Some "processing"%string) Samples.db3
    + listed_total Samples.no_query (Some "completed"%string) Samples.db3
    + listed_total Samples.no_query (Some "cancelled"%string) Samples.db3.
Proof.
  exact (proj2 (status_counts_add_up Samples.no_query Samples.db3
           (createOrder_well_formed _ _ _
              (createOrder_well_formed _ _ _
                 (createOrder_well_formed _ _ _ empty_well_formed)))
           eq_refl)).
Defined.

(** Deleting the only order and creating another one gives id 2. *)
Example id_after_delete :
  created_ids
    (fst (serve [POST_orders Samples.alice Samples.now;
                 DELETE_orders_id "1";
                 POST_orders Samples.bob Samples.now] Sql.empty))
  = [1; 2].
Proof. reflexivity. Qed.

(** *** An empty amount range *)

Lemma filter_none (A : Type) (f : A -> bool) (l : list A) :
  (forall x, In x l -> f x = false) -> filter f l = [].
Proof.
  induction l as [|a l IH]; simpl; intros H; [reflexivity|].
  rewrite (H a (or_introl eq_refl)). apply IH. auto.
Qed.

Lemma amount_range_empty (a : Sql.sqlval) (lo hi : JS.number) :
  JS.cmp hi lo = Lt ->
  Sql.test Sql.OpGe a (Sql.SNum lo) = true ->
  Sql.test Sql.OpLe a (Sql.SNum hi) = true -> False.
Proof.
  intros Hlt Hge Hle.
  assert (Hx : Sql.compare (Sql.SNum hi) (Sql.SNum lo) = Lt) by exact Hlt.
  unfold Sql.test in Hge, Hle.
  destruct a as [|n|s]; try discriminate Hge.
  - destruct (Sql.compare (Sql.SNum n) (Sql.SNum lo)) eqn:H1;
      try discriminate Hge.
    + rewrite (compare_eq_l _ _ (Sql.SNum hi) H1) in Hle.
      rewrite compare_antisym, Hx in Hle. discriminate Hle.
    + rewrite compare_antisym in H1.
      destruct (Sql.compare (Sql.SNum lo) (Sql.SNum n)) eqn:H2;
        try discriminate H1.
      pose proof (compare_lt_trans _ _ _ Hx H2) as H3.
      rewrite compare_antisym, H3 in Hle. discriminate Hle.
  - discriminate Hle.
Qed.

(** X13.  A request whose maxAmount is read as a number below its
    minAmount is not rejected: it passes validation like any other and
    matches no order, whatever the table holds.  It is answered 200 with
    no data, [totalOrders] 0 and [totalPages] 0, unless the offset of the
    page is not an integer the engine takes, in which case the answer is
    the database error 500. *)
Theorem inverted_amount_range_is_empty
  (q : query) (db : Sql.database) (lo hi : string) :
  valid_request q = true ->
  given (q_minAmount q) = Some lo -> given (q_maxAmount q) = Some hi ->
  JS.cmp (JS.parseFloat hi) (JS.parseFloat lo) = Lt ->
  matching q db = []
  /\ getOrders q db
     = if Sql.is_int64 (offset_of q)
       then mkResponse 200
              (Listing []
                 (mkPagination (page_of q) (limit_of q) 0 0 false
                               (page_of q >? 1)))
       else offset_error.
Proof.
  intros Hv Hlo Hhi Hlt.
  assert (Hb : 1 <= page_of q /\ 1 <= limit_of q <= 100).
  { apply pagination_ok_bounds. unfold valid_request in Hv.
    apply andb_true_iff in Hv. tauto. }
  destruct Hb as [Hp Hl].
  assert (Hm : matching q db = []).
  { unfold matching. apply filter_none. intros r _.
    destruct (satisfies (conjuncts q) r) eqn:Hs; [|reflexivity].
    exfalso. apply satisfies_conjuncts in Hs.
    destruct Hs as [_ [Hmin [Hmax _]]].
    exact (amount_range_empty _ _ _ Hlt (Hmin lo Hlo) (Hmax hi Hhi)). }
  split; [exact Hm|].
  rewrite (getOrders_answer q db Hv).
  destruct (Sql.is_int64 (offset_of q)); [|reflexivity].
  unfold total_of. rewrite Hm.
  change (Math_ceil_div (Z.of_nat (List.length (@nil Sql.order)))
                        (limit_of q)) with 0.
  replace (page_of q <? 0) with false by (symmetry; apply Z.ltb_ge; lia).
  rewrite slice_valid by lia. simpl Sql.order_by.
  rewrite skipn_nil, firstn_nil. reflexivity.
Qed.

Lemma inverted_amount_range_is_empty_witness :
  getOrders (mkQuery None None None (Some "1000"%string)
                     (Some "100"%string) None None) Samples.db3
  = mkResponse 200 (Listing [] (mkPagination 1 10 0 0 false false)).
Proof.
  exact (proj2 (inverted_amount_range_is_empty
           (mkQuery None None None (Some "1000"%string)
                    (Some "100"%string) None None)
           Samples.db3 "1000" "100" eq_refl eq_refl eq_refl eq_refl)).
Defined.

(** *** Explicit page and limit *)

(** X14.  A page [p >= 1] and a limit [l >= 1] written in decimal in the
    query string are read as the doubles nearest to them, which are [p]
    and [l] themselves up to [2 ^ 53].  With [l > 100] the answer is the
    pagination error, whatever the page.  With [l <= 100], filters that
    pass and an offset [(p - 1) * l] below [2 ^ 53], the answer is 200,
    its pagination carries [p] and [l], and the data starts at that
    offset. *)
Theorem explicit_page_and_limit
  (q : query) (db : Sql.database) (p l : BinNums.positive) :
  q_page q = Some (decimal_text (Zpos p)) ->
  q_limit q = Some (decimal_text (Zpos l)) ->
  page_of q = JS.to_double (Zpos p)
  /\ limit_of q = JS.to_double (Zpos l)
  /\ (Zpos p <= 2 ^ 53 -> page_of q = Zpos p)
  /\ (Zpos l <= 100 -> limit_of q = Zpos l)
  /\ (100 < Zpos l -> getOrders q db = invalid_pagination)
  /\ (Zpos l <= 100 -> filters_ok q = true ->
      (Zpos p - 1) * Zpos l < 2 ^ 53 ->
      getOrders q db
      = mkResponse 200
          (Listing
             (firstn (Pos.to_nat l)
                     (skipn (Z.to_nat ((Zpos p - 1) * Zpos l))
                            (Sql.order_by (matching q db))))
             (mkPagination (Zpos p) (Zpos l) (total_of q db)
                (Math_ceil_div (total_of q db) (Zpos l))
                (Zpos p <? Math_ceil_div (total_of q db) (Zpos l))
                (Zpos p >? 1)))).
Proof.
  intros Hp Hl.
  assert (Ep : page_of q = JS.to_double (Zpos p)).
  { unfold page_of, parseInt_param. rewrite Hp, parseInt_decimal_text.
    apply or_default_positive, to_double_positive. lia. }
  assert (El : limit_of q = JS.to_double (Zpos l)).
  { unfold limit_of, parseInt_param. rewrite Hl, parseInt_decimal_text.
    apply or_default_positive, to_double_positive. lia. }
  assert (H53 : 100 < 2 ^ 53) by reflexivity.
  split; [exact Ep|]. split; [exact El|].
  split; [intros Hs; rewrite Ep; apply to_double_exact_le; lia|].
  split; [intros Hs; rewrite El; apply to_double_exact; lia|].
  split.
  - intros Hbig. apply getOrders_pagination.
    unfold pagination_ok. rewrite El.
    replace (JS.to_double (Zpos l) <=? 100) with false;
      [apply andb_false_r|].
    symmetry. apply Z.leb_gt.
    destruct (Z.lt_ge_cases (Zpos l) (2 ^ 53)) as [Hs|Hs].
    + rewrite to_double_exact by lia. exact Hbig.
    + pose proof (to_double_large _ Hs). lia.
  - intros Hok Hf Hoff.
    assert (El' : limit_of q = Zpos l)
      by (rewrite El; apply to_double_exact; lia).
    assert (Ep' : page_of q = Zpos p).
    { rewrite Ep. apply to_double_exact_le.
      assert (Zpos p - 1 <= (Zpos p - 1) * Zpos l) by nia. lia. }
    assert (Hpg : pagination_ok q = true).
    { unfold pagination_ok. rewrite Ep', El'.
      rewrite !andb_true_iff, !Z.leb_le. repeat split; lia. }
    assert (Hv : valid_request q = true)
      by (unfold valid_request; rewrite Hpg, Hf; reflexivity).
    assert (Hx : (page_of q - 1) * limit_of q < 2 ^ 53)
      by (rewrite Ep', El'; exact Hoff).
    rewrite (getOrders_listing q db Hv (offset_of_int64 q Hpg Hx)).
    rewrite (offset_of_exact q Hpg Hx), Ep', El'.
    rewrite slice_valid by lia. reflexivity.
Qed.

Lemma explicit_page_and_limit_witness :
  page_of Samples.second_page = 2 /\ limit_of Samples.second_page = 2.
Proof.
  destruct (explicit_page_and_limit Samples.second_page Samples.db3
              2%positive 2%positive eq_refl eq_refl)
    as [_ [_ [H1 [H2 _]]]].
  split; [apply H1|apply H2]; vm_compute; discriminate.
Defined.
